(** * iSPY shoplifting alert core: a shallow embedding and its properties

    The development follows the TypeScript sources module by module:
    - [Gate]       lib/grocery-shoplift/gate.ts
    - [AlertGate]  lib/shoplift-alerts/alert-gate.ts
    - [Tracking]   lib/grocery-shoplift/tracking.ts
    - [Suspicion]  lib/grocery-shoplift/suspicion.ts
    - [Judge]      lib/grocery-shoplift/judge.ts
    - [Voice]      lib/grocery-shoplift/voice.ts
    - [Pipeline]   lib/shoplift-alerts/pipeline.ts

    A JavaScript [number] is modelled by an exact rational ([Q]); the
    comparisons of the sources are the boolean comparisons of [Q], and an
    equation between numbers is [Qeq] ([==]).  Rounding of IEEE doubles,
    NaN and infinities are outside the model.  A [Map<string, V>] whose
    iteration order is never observed is a [gmap string V]; the tracker's
    map, which is iterated, is an association list in insertion order. *)

From Stdlib Require Import Ascii String QArith Qround Qminmax Qabs Lqa Lia.
From stdpp Require Import gmap strings list pretty.

Local Open Scope string_scope.
Local Open Scope list_scope.
Local Open Scope Q_scope.

(** ** JavaScript numbers *)

(** [a < b] on numbers, as a boolean. *)
Definition Qlt_bool (a b : Q) : bool := negb (Qle_bool b a).

(** [Number(process.env.X)] for an environment variable: [None] stands for a
    variable that is unset, empty or does not read as a finite number. *)
Definition EnvNumber := option Q.

(** The shape shared by the configuration getters: the variable's value when
    it is a finite number accepted by [ok], the default otherwise. *)
Definition envNumberOr (v : EnvNumber) (ok : Q -> bool) (dflt : Q) : Q :=
  match v with
  | None => dflt
  | Some n => if ok n then n else dflt
  end.

(** ** lib/grocery-shoplift/gate.ts *)

Module Gate.

Definition DEFAULT_CAMERA_COOLDOWN : Q := 20.
Definition DEFAULT_TRACK_COOLDOWN : Q := 30.
Definition DEFAULT_JUDGE_MIN_CONFIDENCE : Q := 7 # 10.

Record Env := {
  SHOPLIFT_CAMERA_COOLDOWN_SECONDS : EnvNumber;
  SHOPLIFT_TRACK_COOLDOWN_SECONDS : EnvNumber;
  SHOPLIFT_JUDGE_MIN_CONFIDENCE : EnvNumber
}.

(** No variable set: the default configuration. *)
Definition defaultEnv : Env :=
  {| SHOPLIFT_CAMERA_COOLDOWN_SECONDS := None;
     SHOPLIFT_TRACK_COOLDOWN_SECONDS := None;
     SHOPLIFT_JUDGE_MIN_CONFIDENCE := None |}.

Definition getCameraCooldown (env : Env) : Q :=
  envNumberOr (SHOPLIFT_CAMERA_COOLDOWN_SECONDS env) (fun n => Qle_bool 0 n)
    DEFAULT_CAMERA_COOLDOWN.

Definition getTrackCooldown (env : Env) : Q :=
  envNumberOr (SHOPLIFT_TRACK_COOLDOWN_SECONDS env) (fun n => Qle_bool 0 n)
    DEFAULT_TRACK_COOLDOWN.

Definition getJudgeMinConfidence (env : Env) : Q :=
  envNumberOr (SHOPLIFT_JUDGE_MIN_CONFIDENCE env)
    (fun n => Qle_bool 0 n && Qle_bool n 1) DEFAULT_JUDGE_MIN_CONFIDENCE.

(** The two module-level maps. *)
Record GateState := {
  lastTriggerByCamera : gmap string Q;
  lastTriggerByTrack : gmap string Q
}.

Inductive RejectReason := below_confidence | camera_cooldown | track_cooldown.

Inductive GateDecision :=
| Allow
| Reject (reason : RejectReason).

Definition allow (d : GateDecision) : bool :=
  match d with Allow => true | Reject _ => false end.

Record GateInput := {
  camera_id : string;
  track_id : string;
  judge_confidence_0_1 : Q;
  now_ms : option Q
}.

(** [lastX != null && now - lastX < cooldown] *)
Definition inCooldown (last : option Q) (now cooldown : Q) : bool :=
  match last with
  | Some t => Qlt_bool (now - t) cooldown
  | None => false
  end.

(** [alertGate]; [clock] is the value [Date.now()] would return. *)
Definition alertGate (env : Env) (clock : Q) (input : GateInput)
    (st : GateState) : GateDecision * GateState :=
  let now := default clock (now_ms input) in
  let minConf := getJudgeMinConfidence env in
  if Qlt_bool (judge_confidence_0_1 input) minConf then
    (Reject below_confidence, st)
  else
    let camCooldown := getCameraCooldown env * 1000 in
    let trackCooldown := getTrackCooldown env * 1000 in
    let lastCam := lastTriggerByCamera st !! camera_id input in
    if inCooldown lastCam now camCooldown then
      (Reject camera_cooldown, st)
    else
      let lastTrack := lastTriggerByTrack st !! track_id input in
      if inCooldown lastTrack now trackCooldown then
        (Reject track_cooldown, st)
      else
        (Allow,
         {| lastTriggerByCamera :=
              <[camera_id input := now]> (lastTriggerByCamera st);
            lastTriggerByTrack :=
              <[track_id input := now]> (lastTriggerByTrack st) |}).

(** The state after [resetGate]. *)
Definition resetGate (_ : GateState) : GateState :=
  {| lastTriggerByCamera := ∅; lastTriggerByTrack := ∅ |}.

Definition emptyGate : GateState :=
  {| lastTriggerByCamera := ∅; lastTriggerByTrack := ∅ |}.

(** An event of the scenario: camera, track, confidence, explicit time. *)
Definition gateEvent (cam trk : string) (conf now : Q) : GateInput :=
  {| camera_id := cam; track_id := trk;
     judge_confidence_0_1 := conf; now_ms := Some now |}.

End Gate.

(** ** Arrays *)

(** [arr.slice(-n)] for a positive [n]: the last [n] elements. *)
Definition slice_last {A : Type} (n : nat) (l : list A) : list A :=
  drop (length l - n) l.

(** ** lib/shoplift-alerts/types.ts *)

Record ShopliftingEventEvidence := {
  keyframe_path : option string;
  keyframe_base64 : option string;
  clip_path : option string
}.

(** [event_type] is the constant ["shoplifting_detected"] and is not stored. *)
Record ShopliftingEvent := {
  camera_id : string;
  location : string;
  confidence : Q;
  timestamp : string;
  evidence : option ShopliftingEventEvidence
}.

(** ** lib/shoplift-alerts/alert-gate.ts *)

Module AlertGate.

Definition DEFAULT_MIN_CONFIDENCE : Q := 75 # 100.
Definition DEFAULT_COOLDOWN_SECONDS : Q := 20.
Definition DEFAULT_PERSISTENCE_COUNT : Q := 2.
Definition DEFAULT_PERSISTENCE_WINDOW_MS : Q := 1000.

Record Env := {
  SHOPLIFT_MIN_CONFIDENCE : EnvNumber;
  SHOPLIFT_COOLDOWN_SECONDS : EnvNumber;
  SHOPLIFT_PERSISTENCE_COUNT : EnvNumber;
  SHOPLIFT_PERSISTENCE_WINDOW_MS : EnvNumber
}.

Definition defaultEnv : Env :=
  {| SHOPLIFT_MIN_CONFIDENCE := None;
     SHOPLIFT_COOLDOWN_SECONDS := None;
     SHOPLIFT_PERSISTENCE_COUNT := None;
     SHOPLIFT_PERSISTENCE_WINDOW_MS := None |}.

(** The environment the unit tests install before each case:
    persistence count 1, window 0. *)
Definition noPersistenceEnv : Env :=
  {| SHOPLIFT_MIN_CONFIDENCE := None;
     SHOPLIFT_COOLDOWN_SECONDS := None;
     SHOPLIFT_PERSISTENCE_COUNT := Some 1;
     SHOPLIFT_PERSISTENCE_WINDOW_MS := Some 0 |}.

Definition getMinConfidence (env : Env) : Q :=
  envNumberOr (SHOPLIFT_MIN_CONFIDENCE env)
    (fun n => Qle_bool 0 n && Qle_bool n 1) DEFAULT_MIN_CONFIDENCE.

Definition getCooldownSeconds (env : Env) : Q :=
  envNumberOr (SHOPLIFT_COOLDOWN_SECONDS env) (fun n => Qle_bool 0 n)
    DEFAULT_COOLDOWN_SECONDS.

Definition getPersistenceCount (env : Env) : Q :=
  envNumberOr (SHOPLIFT_PERSISTENCE_COUNT env) (fun n => Qle_bool 1 n)
    DEFAULT_PERSISTENCE_COUNT.

Definition getPersistenceWindowMs (env : Env) : Q :=
  envNumberOr (SHOPLIFT_PERSISTENCE_WINDOW_MS env) (fun n => Qle_bool 0 n)
    DEFAULT_PERSISTENCE_WINDOW_MS.

Record GateState := {
  lastTriggerByCamera : gmap string Q;
  recentEventsByCamera : gmap string (list Q)
}.

Inductive RejectReason := below_threshold | cooldown | persistence_not_met.

(** The string the pipeline logs for a rejection. *)
Definition reasonString (r : RejectReason) : string :=
  match r with
  | below_threshold => "below_threshold"
  | cooldown => "cooldown"
  | persistence_not_met => "persistence_not_met"
  end.

Inductive GateResult :=
| Allowed (event : ShopliftingEvent)
| Rejected (reason : RejectReason) (event : ShopliftingEvent).


(** [alertGate]; [nowMs] is the value of [Date.now()]. *)
Definition alertGate (env : Env) (nowMs : Q) (event : ShopliftingEvent)
    (st : GateState) : GateResult * GateState :=
  let minConf := getMinConfidence env in
  if Qlt_bool (confidence event) minConf then
    (Rejected below_threshold event, st)
  else
    let cooldownSec := getCooldownSeconds env in
    let last := lastTriggerByCamera st !! camera_id event in
    if match last with
       | Some t => Qlt_bool (nowMs - t) (cooldownSec * 1000)
       | None => false
       end
    then (Rejected cooldown event, st)
    else
      let persistenceCount := getPersistenceCount env in
      let persistenceWindowMs := getPersistenceWindowMs env in
      let accept (st1 : GateState) :=
        (Allowed event,
         {| lastTriggerByCamera :=
              <[camera_id event := nowMs]> (lastTriggerByCamera st1);
            recentEventsByCamera := recentEventsByCamera st1 |}) in
      if Qlt_bool 1 persistenceCount && Qlt_bool 0 persistenceWindowMs then
        let recent := default [] (recentEventsByCamera st !! camera_id event) in
        let windowStart := nowMs - persistenceWindowMs in
        let inWindow :=
          List.filter (fun t => Qle_bool windowStart t) recent ++ [nowMs] in
        let st1 :=
          {| lastTriggerByCamera := lastTriggerByCamera st;
             recentEventsByCamera :=
               <[camera_id event := slice_last 10 inWindow]>
                 (recentEventsByCamera st) |} in
        if Qlt_bool (inject_Z (Z.of_nat (length inWindow))) persistenceCount
        then (Rejected persistence_not_met event, st1)
        else accept st1
      else accept st.

Definition resetAlertGate (_ : GateState) : GateState :=
  {| lastTriggerByCamera := ∅; recentEventsByCamera := ∅ |}.

Definition emptyGate : GateState :=
  {| lastTriggerByCamera := ∅; recentEventsByCamera := ∅ |}.

End AlertGate.

(** ** lib/grocery-shoplift/tracking.ts *)

Module Tracking.

Record Point := { x : Q; y : Q }.

Record Bbox := { x1 : Q; y1 : Q; x2 : Q; y2 : Q }.

(** [PersonDetection]: the fields [bbox] and [confidence] of one detection. *)
Record PersonDetection := { det_bbox : Bbox; det_confidence : Q }.

Record TrackedPerson := {
  track_id : string;
  bbox : Bbox;
  confidence : Q;
  bbox_history : list Bbox;
  last_seen : Q;
  first_seen : Q
}.

Definition IOU_THRESHOLD : Q := 3 # 10.
Definition MAX_BBOX_HISTORY : nat := 10.

Definition iou (a b : Bbox) : Q :=
  let xi1 := Qmax (x1 a) (x1 b) in
  let yi1 := Qmax (y1 a) (y1 b) in
  let xi2 := Qmin (x2 a) (x2 b) in
  let yi2 := Qmin (y2 a) (y2 b) in
  let interW := Qmax 0 (xi2 - xi1) in
  let interH := Qmax 0 (yi2 - yi1) in
  let inter := interW * interH in
  let areaA := (x2 a - x1 a) * (y2 a - y1 a) in
  let areaB := (x2 b - x1 b) * (y2 b - y1 b) in
  let union := areaA + areaB - inter in
  if Qle_bool union 0 then 0 else inter / union.

(** The module state: [activeTracks] in insertion order (the order
    [activeTracks.values()] yields) and the counter [nextTrackId]. *)
Record TrackerState := {
  activeTracks : list (string * TrackedPerson);
  nextTrackId : N
}.

(** [Map.prototype.set]: an existing key keeps its position, a new key goes
    to the end. *)
Fixpoint map_set (k : string) (v : TrackedPerson)
    (m : list (string * TrackedPerson)) : list (string * TrackedPerson) :=
  match m with
  | [] => [(k, v)]
  | (k', v') :: rest =>
      if String.eqb k' k then (k, v) :: rest else (k', v') :: map_set k v rest
  end.

(** [Array.from(activeTracks.values())] *)
Definition values (m : list (string * TrackedPerson)) : list TrackedPerson :=
  map snd m.

(** One turn of the inner loop over the active tracks; the accumulator is
    [(bestIou, bestTrack)]. *)
Definition bestStep (matched : gset string) (det : PersonDetection)
    (acc : Q * option TrackedPerson) (track : TrackedPerson)
    : Q * option TrackedPerson :=
  if bool_decide (track_id track ∈ matched) then acc
  else
    let score := iou (bbox track) (det_bbox det) in
    if Qlt_bool (fst acc) score then (score, Some track) else acc.

(** The inner loop: the best unmatched track above the threshold, if any. *)
Definition findBest (matched : gset string) (det : PersonDetection)
    (tracks : list TrackedPerson) : Q * option TrackedPerson :=
  fold_left (bestStep matched det) tracks (IOU_THRESHOLD, None).

(** The track written for a matched detection. *)
Definition updatedTrack (bestTrack : TrackedPerson) (det : PersonDetection)
    (nowMs : Q) : TrackedPerson :=
  {| track_id := track_id bestTrack;
     bbox := det_bbox det;
     confidence := det_confidence det;
     bbox_history :=
       slice_last MAX_BBOX_HISTORY (bbox_history bestTrack ++ [det_bbox det]);
     last_seen := nowMs;
     first_seen := first_seen bestTrack |}.

(** The track minted for an unmatched detection. *)
Definition newTrack (trackId : string) (det : PersonDetection) (nowMs : Q)
    : TrackedPerson :=
  {| track_id := trackId;
     bbox := det_bbox det;
     confidence := det_confidence det;
     bbox_history := [det_bbox det];
     last_seen := nowMs;
     first_seen := nowMs |}.

(** The state of the outer loop of [updateTracks]. *)
Record LoopState := {
  tracker : TrackerState;
  matched : gset string;
  result : list TrackedPerson
}.

(** The body of the outer loop, for one detection. *)
Definition detStep (nowMs : Q) (ls : LoopState) (det : PersonDetection)
    : LoopState :=
  let st := tracker ls in
  match snd (findBest (matched ls) det (values (activeTracks st))) with
  | Some bestTrack =>
      let updated := updatedTrack bestTrack det nowMs in
      {| tracker :=
           {| activeTracks :=
                map_set (track_id bestTrack) updated (activeTracks st);
              nextTrackId := nextTrackId st |};
         matched := {[track_id bestTrack]} ∪ matched ls;
         result := result ls ++ [updated] |}
  | None =>
      let trackId := "t" +:+ pretty (nextTrackId st) in
      let track := newTrack trackId det nowMs in
      {| tracker :=
           {| activeTracks := map_set trackId track (activeTracks st);
              nextTrackId := (nextTrackId st + 1)%N |};
         matched := matched ls;
         result := result ls ++ [track] |}
  end.

(** [updateTracks(detections, nowMs)]: the returned array and the new module
    state. *)
Definition updateTracks (detections : list PersonDetection) (nowMs : Q)
    (st : TrackerState) : list TrackedPerson * TrackerState :=
  let final :=
    fold_left (detStep nowMs) detections
      {| tracker := st; matched := ∅; result := [] |} in
  (result final, tracker final).

Definition bboxCenter (box : Bbox) (frameWidth frameHeight : option Q)
    : Point :=
  let cx := (x1 box + x2 box) / 2 in
  let cy := (y1 box + y2 box) / 2 in
  match frameWidth, frameHeight with
  | Some w, Some h => {| x := cx / w; y := cy / h |}
  | _, _ => {| x := cx; y := cy |}
  end.

Definition bboxTorsoRatio (box : Bbox) : Q :=
  let w := x2 box - x1 box in
  let h := y2 box - y1 box in
  if Qle_bool h 0 then 0 else w / h.

(** The state after [resetTracks]. *)
Definition resetTracks (_ : TrackerState) : TrackerState :=
  {| activeTracks := []; nextTrackId := 1 |}.

Definition getActiveTracks (st : TrackerState) : list TrackedPerson :=
  values (activeTracks st).

End Tracking.

(** ** JavaScript numbers: rounding to a double

    A finite JavaScript number is a rational [m * 2 ^ e] with 53 significant
    bits; addition, subtraction, multiplication and division return the
    double nearest to the exact result, ties to the even significand.  The
    running sum of [computeSuspicion] is modelled with this rounding, step by
    step, on inputs that are doubles themselves (whole milliseconds are).
    Results of magnitude [2 ^ 1024] and above, which JavaScript turns into
    [Infinity], are outside the model. *)

Module Double.

(** [floor (log2 q)] for a positive [q]. *)
Definition ilog2 (q : Q) : Z :=
  let k := (Z.log2 (Qnum q) - Z.log2 (Zpos (Qden q)))%Z in
  if Qle_bool (2 ^ k) q then k else (k - 1)%Z.

(** The nearest integer, a half going to the even neighbour. *)
Definition roundHalfEven (q : Q) : Z :=
  let f := Qfloor q in
  match Qcompare (q - inject_Z f) (1 # 2) with
  | Lt => f
  | Gt => (f + 1)%Z
  | Eq => if Z.even f then f else (f + 1)%Z
  end.

(** The double nearest to [q]: a significand of 53 bits, or of fewer bits at
    the smallest exponent -1074. *)
Definition round (q : Q) : Q :=
  if Qeq_bool q 0 then 0
  else
    let a := Qabs q in
    let e := Z.max (-1074) (ilog2 a - 52) in
    let m := inject_Z (roundHalfEven (a / 2 ^ e)) * 2 ^ e in
    Qred (if Qle_bool 0 q then m else - m).

(** [a + b], [a - b], [a * b] and [a / b] on doubles. *)
Definition add (a b : Q) : Q := round (a + b).
Definition sub (a b : Q) : Q := round (a - b).
Definition mul (a b : Q) : Q := round (a * b).
Definition div (a b : Q) : Q := round (a / b).

End Double.

(** ** lib/grocery-shoplift/suspicion.ts *)

Module Suspicion.
Import Tracking.

(** [ZoneConfig] as the sources use it: [type] is compared with string
    literals, and a zone counts as enabled unless [enabled === false]. *)
Record ZoneConfig := {
  id : string;
  name : string;
  type : string;
  polygon : list Point;
  enabled : option bool
}.

(** One zone-visit record of a track's [zone_history]. *)
Record ZoneVisit := {
  zone_id : string;
  zone_type : string;
  entered_ms : Q
}.

Record SuspicionInput := {
  track : TrackedPerson;
  zones : list ZoneConfig;
  zone_history : list ZoneVisit;
  now_ms : Q
}.

Record SuspicionResult := {
  suspicion_score : Q;
  reasons : list string;
  exit_without_checkout : bool;
  dwell_high_theft_sec : Q;
  torso_ratio_spike : bool
}.

Definition DEFAULT_ESCALATE_SCORE : Q := 70.
Definition DEFAULT_DWELL_SECONDS : Q := 12.
Definition DEFAULT_CHECKOUT_MEMORY_SECONDS : Q := 60.
Definition EXIT_WITHOUT_CHECKOUT_BONUS : Q := 40.
Definition DWELL_HIGH_THEFT_BONUS : Q := 25.
Definition TORSO_RATIO_SPIKE_BONUS : Q := 20.
Definition TORSO_RATIO_WINDOW : nat := 5.
Definition TORSO_SPIKE_RATIO : Q := 25 # 100.

Record Env := {
  SHOPLIFT_ESCALATE_SCORE : EnvNumber;
  SHOPLIFT_DWELL_SECONDS : EnvNumber;
  SHOPLIFT_CHECKOUT_MEMORY_SECONDS : EnvNumber
}.

Definition defaultEnv : Env :=
  {| SHOPLIFT_ESCALATE_SCORE := None;
     SHOPLIFT_DWELL_SECONDS := None;
     SHOPLIFT_CHECKOUT_MEMORY_SECONDS := None |}.

Definition getEscalateScore (env : Env) : Q :=
  envNumberOr (SHOPLIFT_ESCALATE_SCORE env)
    (fun n => Qle_bool 0 n && Qle_bool n 100) DEFAULT_ESCALATE_SCORE.

Definition getDwellSeconds (env : Env) : Q :=
  envNumberOr (SHOPLIFT_DWELL_SECONDS env) (fun n => Qle_bool 0 n)
    DEFAULT_DWELL_SECONDS.

Definition getCheckoutMemorySeconds (env : Env) : Q :=
  envNumberOr (SHOPLIFT_CHECKOUT_MEMORY_SECONDS env) (fun n => Qle_bool 0 n)
    DEFAULT_CHECKOUT_MEMORY_SECONDS.

(** [polygon[i]]; every index the loop uses is in range. *)
Definition vertex (polygon : list Point) (i : nat) : Point :=
  nth i polygon {| x := 0; y := 0 |}.

(** The condition of the ray-casting loop for the edge from vertex [j] to
    vertex [i]; [&&] evaluates the division only when [yi] and [yj] lie on
    different sides of [p.y]. *)
Definition edgeCrossed (p pi pj : Point) : bool :=
  let xi := x pi in let yi := y pi in
  let xj := x pj in let yj := y pj in
  xorb (Qlt_bool (y p) yi) (Qlt_bool (y p) yj)
  && Qlt_bool (x p) ((xj - xi) * (y p - yi) / (yj - yi) + xi).

(** [for (let i = 0, j = n - 1; i < n; j = i++)], accumulator
    [(inside, j)]. *)
Definition isPointInPolygon (p : Point) (polygon : list Point) : bool :=
  let n := length polygon in
  if (n <? 3)%nat then false
  else
    fst (fold_left
           (fun (acc : bool * nat) (i : nat) =>
              let (inside, j) := acc in
              (if edgeCrossed p (vertex polygon i) (vertex polygon j)
               then negb inside else inside, i))
           (seq 0 n) (false, (n - 1)%nat)).

(** [z.enabled !== false] *)
Definition isEnabled (z : ZoneConfig) : bool :=
  match enabled z with Some false => false | _ => true end.

Fixpoint whichZone (point : Point) (zs : list ZoneConfig)
    : option ZoneConfig :=
  match zs with
  | [] => None
  | z :: rest =>
      if negb (isEnabled z) then whichZone point rest
      else if isPointInPolygon point (polygon z) then Some z
      else whichZone point rest
  end.

(** [Math.round]: the nearest integer, halves upwards. *)
Definition Math_round (q : Q) : Q := inject_Z (Qfloor (q + (1 # 2))).

(** [q.toFixed(0)] for a number below 1e21: the nearest integer (halves away
    from zero) in decimal, a negative number keeping its sign. *)
Definition toFixed0 (q : Q) : string :=
  if Qlt_bool q 0 then "-" +:+ pretty (Qfloor (- q + (1 # 2)))
  else pretty (Qfloor (q + (1 # 2))).

(** [currentZone?.id === exitZone.id], false when either zone is missing. *)
Definition sameZoneId (currentZone exitZone : option ZoneConfig) : bool :=
  match exitZone, currentZone with
  | Some e, Some c => String.eqb (id c) (id e)
  | _, _ => false
  end.

(** [dwell_high_theft_sec += (now - h.entered_ms) / 1000], each operation
    rounded to a double. *)
Definition dwellAdd (now : Q) (acc : Q) (h : ZoneVisit) : Q :=
  Double.add acc (Double.div (Double.sub now (entered_ms h)) 1000).

(** The loop that accumulates [dwell_high_theft_sec]. *)
Definition dwellStep (highTheftZones : list ZoneConfig) (now : Q)
    (acc : Q) (h : ZoneVisit) : Q :=
  if negb (String.eqb (zone_type h) "high_theft") then acc
  else
    match List.find (fun z => String.eqb (id z) (zone_id h)) highTheftZones with
    | None => acc
    | Some _ => dwellAdd now acc h
    end.

(** The torso-ratio test on the bbox history. *)
Definition torsoSpike (history : list Bbox) : bool :=
  if (TORSO_RATIO_WINDOW <=? length history)%nat then
    let recent := slice_last TORSO_RATIO_WINDOW history in
    let ratios := map bboxTorsoRatio recent in
    let mean :=
      fold_left Qplus ratios 0 / inject_Z (Z.of_nat (length ratios)) in
    let last := List.last ratios 0 in
    Qle_bool TORSO_SPIKE_RATIO (Qabs (last - mean))
  else false.

Definition computeSuspicion (env : Env) (input : SuspicionInput)
    (frameWidth frameHeight : option Q) : SuspicionResult :=
  let dwellSec := getDwellSeconds env in
  let checkoutMemorySec := getCheckoutMemorySeconds env in
  let now := now_ms input in
  let center := bboxCenter (bbox (track input)) frameWidth frameHeight in
  let currentZone := whichZone center (zones input) in
  let exitZone :=
    List.find (fun z => String.eqb (type z) "exit" && isEnabled z)
      (zones input) in
  let highTheftZones :=
    List.filter (fun z => String.eqb (type z) "high_theft" && isEnabled z)
      (zones input) in
  (* exit without checkout *)
  let exit_wo :=
    if sameZoneId currentZone exitZone then
      let cutoff := now - checkoutMemorySec * 1000 in
      let enteredCheckout :=
        existsb
          (fun h => String.eqb (zone_type h) "checkout"
                    && Qle_bool cutoff (entered_ms h))
          (zone_history input) in
      negb enteredCheckout
    else false in
  let score1 := if exit_wo then 0 + EXIT_WITHOUT_CHECKOUT_BONUS else 0 in
  let reasons1 := if exit_wo then ["exit_without_checkout"] else [] in
  (* dwell in high-theft zones *)
  let dwell := fold_left (dwellStep highTheftZones now) (zone_history input) 0 in
  let dwellHit := Qle_bool dwellSec dwell in
  let score2 := if dwellHit then score1 + DWELL_HIGH_THEFT_BONUS else score1 in
  let reasons2 :=
    if dwellHit
    then reasons1 ++ ["dwell_high_theft_" +:+ toFixed0 dwell +:+ "s"]
    else reasons1 in
  (* torso ratio spike *)
  let spike := torsoSpike (bbox_history (track input)) in
  let score3 := if spike then score2 + TORSO_RATIO_SPIKE_BONUS else score2 in
  let reasons3 :=
    if spike then reasons2 ++ ["torso_ratio_spike"] else reasons2 in
  {| suspicion_score := Qmin 100 score3;
     reasons := reasons3;
     exit_without_checkout := exit_wo;
     dwell_high_theft_sec := Double.div (Math_round (Double.mul dwell 10)) 10;
     torso_ratio_spike := spike |}.

Definition shouldEscalate (env : Env) (r : SuspicionResult) : bool :=
  Qle_bool (getEscalateScore env) (suspicion_score r).

End Suspicion.

(** ** lib/grocery-shoplift/judge.ts *)

Module Judge.

Record ConcealmentJudgeInput := {
  framePaths : list string;
  location : string;
  cameraId : string;
  suspicionScore : Q;
  suspicionReasons : list string;
  exitWithoutCheckout : bool;
  torsoRatioSpike : bool
}.

Record JudgeResult := {
  concealment_likely : bool;
  confidence_0_1 : Q;
  evidence : list string;
  risk_of_false_positive : list string;
  recommended_action : string
}.

(** [LocalFallbackJudge.judge]; the promise it returns always fulfils, with
    this value. *)
Definition LocalFallbackJudge_judge (input : ConcealmentJudgeInput)
    : JudgeResult :=
  let concealment_likely := exitWithoutCheckout input || torsoRatioSpike input in
  let confidence_0_1 := if concealment_likely then 7 # 10 else 2 # 10 in
  let evidence0 :=
    if exitWithoutCheckout input then ["exit_without_checkout"] else [] in
  let evidence1 :=
    if torsoRatioSpike input then evidence0 ++ ["torso_ratio_spike"]
    else evidence0 in
  {| concealment_likely := concealment_likely;
     confidence_0_1 := confidence_0_1;
     evidence := evidence1;
     risk_of_false_positive := ["rule-based heuristic; no visual analysis"];
     recommended_action :=
       if concealment_likely && Qle_bool (7 # 10) confidence_0_1
       then "alert" else "log_only" |}.

End Judge.

(** ** Effects: exceptions, and a trace of the calls that leave the process *)

(** A thrown JavaScript value: an [Error] with its message, or another
    value with the text [String(e)] gives for it. *)
Inductive Thrown :=
| ErrorObj (message : string)
| NonError (shown : string).

(** The calls the voice and pipeline code makes to the world outside. *)
Inductive Effect :=
| EMkdir (dir : string)
| ESpawnWait (cmd : string) (args : list string)
| ESpawnDetached (cmd : string) (args : list string)
| EWriteFile (path : string)
| EConsoleError (tag : string) (e : Thrown)
| EGenerateAlertAudio (location cameraId : string)
| EImport (module : string)
| EPlayAudioNonBlocking (audioPath : string)
| ELogSuppressed (event : ShopliftingEvent) (reason : string)
| ELogTriggered (event : ShopliftingEvent) (alertText audioPath : string).

(** A computation over a state [S] that returns or throws. *)
Definition M (S A : Type) : Type := S -> S * (Thrown + A).

Definition ret {S A} (a : A) : M S A := fun s => (s, inr a).

Definition throw {S A} (e : Thrown) : M S A := fun s => (s, inl e).

Definition bind {S A B} (m : M S A) (k : A -> M S B) : M S B :=
  fun s =>
    match m s with
    | (s1, inr a) => k a s1
    | (s1, inl e) => (s1, inl e)
    end.

(** [try { m } catch (e) { h e }] *)
Definition try_catch {S A} (m : M S A) (h : Thrown -> M S A) : M S A :=
  fun s =>
    match m s with
    | (s1, inr a) => (s1, inr a)
    | (s1, inl e) => h e s1
    end.

Definition get {S} : M S S := fun s => (s, inr s).

Definition modify {S} (f : S -> S) : M S unit := fun s => (f s, inr tt).

(** Run [m] on the component of the state selected by [proj], writing the
    component back with [upd]. *)
Definition zoom {S T A} (proj : S -> T) (upd : T -> S -> S) (m : M T A)
    : M S A :=
  fun s => let (t1, r) := m (proj s) in (upd t1 s, r).

(** The monad structure, in stdpp's classes: [x ← m; k] and [m;; k]. *)
#[global] Instance M_ret {S} : MRet (M S) := fun A a => ret a.
#[global] Instance M_bind {S} : MBind (M S) := fun A B k m => bind m k.

(** [e instanceof Error ? e.message : String(e)] *)
Definition messageOrString (e : Thrown) : string :=
  match e with ErrorObj m => m | NonError s => s end.

(** ** Strings *)

(** [s.replace(/pat/g, rep)] for a literal, non-empty [pat]; [skip] counts
    the characters of a match still to be dropped.  The replacement is
    inserted as it is (the [$] patterns of [String.prototype.replace] are not
    modelled). *)
Fixpoint replaceAllFrom (pat rep : string) (skip : nat) (s : string)
    : string :=
  match s with
  | EmptyString => EmptyString
  | String c rest =>
      match skip with
      | S k => replaceAllFrom pat rep k rest
      | O =>
          if String.prefix pat s
          then rep +:+ replaceAllFrom pat rep (String.length pat - 1) rest
          else String c (replaceAllFrom pat rep O rest)
      end
  end.

Definition replaceAll (pat rep s : string) : string :=
  replaceAllFrom pat rep O s.

(** [s.replace(pat, rep)] for a literal [pat]: the first occurrence only. *)
Fixpoint replaceFirst (pat rep s : string) : string :=
  match s with
  | EmptyString => EmptyString
  | String c rest =>
      if String.prefix pat s
      then rep +:+ String.substring (String.length pat) (String.length s) s
      else String c (replaceFirst pat rep rest)
  end.

Fixpoint mapChars (f : ascii -> ascii) (s : string) : string :=
  match s with
  | EmptyString => EmptyString
  | String c rest => String (f c) (mapChars f rest)
  end.

(** [s.slice(0, n)] *)
Definition sliceTo (n : nat) (s : string) : string := String.substring 0 n s.

(** The character class [[a-zA-Z0-9-_]]. *)
Definition isSafeChar (c : ascii) : bool :=
  let n := nat_of_ascii c in
  ((97 <=? n) && (n <=? 122) || (65 <=? n) && (n <=? 90)
   || (48 <=? n) && (n <=? 57) || (n =? 45) || (n =? 95))%nat.

(** [new Date().toISOString().replace(/[:.]/g, "-").slice(0, 19)] *)
Definition fileTimestamp (iso : string) : string :=
  sliceTo 19
    (mapChars (fun c => if (Ascii.eqb c ":" || Ascii.eqb c ".")%bool
                        then "-"%char else c) iso).

(** [cameraId.replace(/[^a-zA-Z0-9-_]/g, "_").slice(0, n)] *)
Definition safeName (n : nat) (cameraId : string) : string :=
  sliceTo n (mapChars (fun c => if isSafeChar c then c else "_"%char) cameraId).

(** [path.join(a, b)] for the relative segments the sources pass. *)
Definition path_join (a b : string) : string := a +:+ "/" +:+ b.

(** A string in a condition: [undefined] and the empty string are falsy. *)
Definition truthy (o : option string) : bool :=
  match o with
  | Some s => negb (String.eqb s "")
  | None => false
  end.

(** [process.env.X === "1" || process.env.X === "true"] *)
Definition flagSet (o : option string) : bool :=
  match o with
  | Some s => String.eqb s "1" || String.eqb s "true"
  | None => false
  end.

(** ** lib/shoplift-alerts/minimax-tts.ts: [TTSResult] *)

Record TTSResult := {
  tts_success : bool;
  tts_audioPath : option string;
  tts_fallbackUsed : bool;
  tts_traceId : option string;
  tts_error : option string
}.

(** ** The world outside the process

    Every call that leaves the process has its outcome fixed by the world:
    [None] is success, [Some e] is the failure [e] (a rejected promise for an
    asynchronous call).  [logSuppressed] and [logTriggered] (incident-log.ts),
    and the network call behind [generateAlertAudio], are known here only by
    such outcomes. *)
Record World := {
  platform : string;
  cwd : string;
  isoNow : string;
  dateNow : Q;
  mkdir_outcome : string -> option Thrown;
  spawn_outcome : string -> list string -> option Thrown;
  writeFile_outcome : string -> option Thrown;
  import_outcome : string -> option Thrown;
  generateAlertAudio_outcome : string -> string -> Thrown + TTSResult;
  playAudioNonBlocking_outcome : string -> option Thrown;
  logSuppressed_outcome : ShopliftingEvent -> string -> option Thrown;
  logTriggered_outcome : ShopliftingEvent -> string -> string -> option Thrown
}.

(** Record the call [eff] and return or throw according to [outcome]. *)
Definition io (eff : Effect) (outcome : option Thrown) : M (list Effect) unit :=
  fun tr =>
    (tr ++ [eff],
     match outcome with None => inr tt | Some e => inl e end).

(** ** lib/grocery-shoplift/voice.ts *)

Module Voice.

Definition DEFAULT_TEMPLATE : string :=
  "Security alert. Possible shoplifting detected at {location}.".

Record Env := {
  SHOPLIFT_ALERT_TEMPLATE : option string;
  MINIMAX_API_KEY : option string;
  ENABLE_MINIMAX_TTS : option string
}.

Definition getAlertText (env : Env) (location : string) : string :=
  let t := default DEFAULT_TEMPLATE (SHOPLIFT_ALERT_TEMPLATE env) in
  replaceAll "{location}" location t.

Record VoiceAlertResult := {
  success : bool;
  audioPath : option string;
  voiceUsed : string;
  error : option string
}.

Definition mkdir (w : World) (dir : string) : M (list Effect) unit :=
  io (EMkdir dir) (mkdir_outcome w dir).

(** [spawn(cmd, args)] awaited until the child closes: an exit code other
    than 0 or a spawn error rejects. *)
Definition spawnWait (w : World) (cmd : string) (args : list string)
    : M (list Effect) unit :=
  io (ESpawnWait cmd args) (spawn_outcome w cmd args).

Definition writeFile (w : World) (path : string) : M (list Effect) unit :=
  io (EWriteFile path) (writeFile_outcome w path).

(** [writeBeepWav]: the directory is made, then the file written; the sample
    data of the tone is not part of the model. *)
Definition writeBeepWav (w : World) (dir fileName : string)
    : M (list Effect) string :=
  mkdir w dir;;
  let fullPath := path_join dir fileName in
  writeFile w fullPath;;
  mret fullPath.

(** [playNonBlocking]: a detached child; a player that is missing is
    reported on the child later, not thrown here. *)
Definition playNonBlocking (w : World) (audioPath : string)
    : M (list Effect) unit :=
  let darwin := String.eqb (platform w) "darwin" in
  let cmd := if darwin then "afplay" else "ffplay" in
  let args :=
    if darwin then [audioPath]
    else ["-nodisp"; "-autoexit"; "-loglevel"; "quiet"; audioPath] in
  io (ESpawnDetached cmd args) None.

Definition localResult (path : string) (err : option string)
    : VoiceAlertResult :=
  {| success := true; audioPath := Some path; voiceUsed := "local";
     error := err |}.

(** [LocalVoiceAlert.play] *)
Definition LocalVoiceAlert_play (env : Env) (w : World)
    (location cameraId : string) : M (list Effect) VoiceAlertResult :=
  let text := getAlertText env location in
  let dir := path_join (path_join (cwd w) "alerts") "audio" in
  let ts := fileTimestamp (isoNow w) in
  let safeCam := safeName 24 cameraId in
  let beep (err : option string) : M (list Effect) VoiceAlertResult :=
    beepPath ← writeBeepWav w dir (ts +:+ "_" +:+ safeCam +:+ "_beep.wav");
    playNonBlocking w beepPath;;
    mret (localResult beepPath err) in
  try_catch
    (if String.eqb (platform w) "darwin" then
       let wavPath := path_join dir (ts +:+ "_" +:+ safeCam +:+ "_local.wav") in
       mkdir w dir;;
       spawnWait w "say" ["-o"; wavPath; text];;
       playNonBlocking w wavPath;;
       mret (localResult wavPath None)
     else
       spoken ←
         (if String.eqb (platform w) "linux" then
            try_catch
              (let wavPath :=
                 path_join dir (ts +:+ "_" +:+ safeCam +:+ "_local.wav") in
               mkdir w dir;;
               spawnWait w "espeak" ["-w"; wavPath; text];;
               playNonBlocking w wavPath;;
               mret (Some (localResult wavPath None)))
              (fun _ => mret None)
          else mret None);
       match spoken with
       | Some r => mret r
       | None => beep None
       end)
    (fun e => beep (Some (messageOrString e))).

(** The two implementations of [IVoiceAlert]. *)
Inductive IVoiceAlert := LocalVoiceAlert | MiniMaxVoiceAlert.

(** [play] of the object [createMiniMaxVoiceAlert] returns. *)
Definition MiniMaxVoiceAlert_play (env : Env) (w : World)
    (location cameraId : string) : M (list Effect) VoiceAlertResult :=
  attempt ←
    try_catch
      (io (EImport "@/lib/shoplift-alerts/minimax-tts")
          (import_outcome w "@/lib/shoplift-alerts/minimax-tts");;
       result ←
         (fun tr =>
            (tr ++ [EGenerateAlertAudio location cameraId],
             generateAlertAudio_outcome w location cameraId));
       if truthy (tts_audioPath result) then
         io (EImport "@/lib/shoplift-alerts/playback")
            (import_outcome w "@/lib/shoplift-alerts/playback");;
         io (EPlayAudioNonBlocking (default "" (tts_audioPath result))) None;;
         mret (Some
                 {| success := true;
                    audioPath := tts_audioPath result;
                    voiceUsed :=
                      if tts_fallbackUsed result then "local" else "minimax";
                    error := tts_error result |})
       else mret None)
      (fun _ => mret None);
  match attempt with
  | Some r => mret r
  | None => LocalVoiceAlert_play env w location cameraId
  end.

Definition play (v : IVoiceAlert) (env : Env) (w : World)
    (location cameraId : string) : M (list Effect) VoiceAlertResult :=
  match v with
  | LocalVoiceAlert => LocalVoiceAlert_play env w location cameraId
  | MiniMaxVoiceAlert => MiniMaxVoiceAlert_play env w location cameraId
  end.

(** [createMiniMaxVoiceAlert]: [null] unless the key is set and the flag on. *)
Definition createMiniMaxVoiceAlert (env : Env) : option IVoiceAlert :=
  if negb (truthy (MINIMAX_API_KEY env)) || negb (flagSet (ENABLE_MINIMAX_TTS env))
  then None else Some MiniMaxVoiceAlert.

(** The initial value of [defaultVoice]. *)
Definition defaultVoice0 : IVoiceAlert := LocalVoiceAlert.

(** [initVoiceAlert]: the new value of [defaultVoice]. *)
Definition initVoiceAlert (env : Env) : IVoiceAlert :=
  default LocalVoiceAlert (createMiniMaxVoiceAlert env).

End Voice.

(** ** lib/shoplift-alerts/pipeline.ts *)

Module Pipeline.

Record PipelineResult := {
  triggered : bool;
  reason : option string;
  audioPath : option string;
  fallbackUsed : option bool
}.

Record Env := {
  gateEnv : AlertGate.Env;
  voiceEnv : Voice.Env
}.

(** The module states the pipeline touches, and the trace of outside calls. *)
Record Sys := {
  gate : AlertGate.GateState;
  defaultVoice : Voice.IVoiceAlert;
  trace : list Effect
}.

Definition setGate (g : AlertGate.GateState) (s : Sys) : Sys :=
  {| gate := g; defaultVoice := defaultVoice s; trace := trace s |}.

Definition setTrace (t : list Effect) (s : Sys) : Sys :=
  {| gate := gate s; defaultVoice := defaultVoice s; trace := t |}.

(** An outside call, run on the trace component. *)
Definition call (eff : Effect) (outcome : option Thrown) : M Sys unit :=
  zoom trace setTrace (io eff outcome).

Definition TEMPLATE_0 : string :=
  "Security alert. Possible shoplifting detected at {location}.".

(** [buildAlertText] of minimax-tts.ts. *)
Definition buildAlertText (env : Env) (location : string) : string :=
  let template := Voice.SHOPLIFT_ALERT_TEMPLATE (voiceEnv env) in
  if truthy template
  then replaceAll "{location}" location (default "" template)
  else replaceFirst "{location}" location TEMPLATE_0.

Definition useMiniMaxTTS (env : Env) : bool :=
  truthy (Voice.MINIMAX_API_KEY (voiceEnv env))
  && flagSet (Voice.ENABLE_MINIMAX_TTS (voiceEnv env)).

Definition consoleError (tag : string) (e : Thrown) : M Sys unit :=
  call (EConsoleError tag e) None.

(** [logSuppressed(event, reason).catch(e => console.error(tag, e))] *)
Definition logSuppressedReported (w : World) (event : ShopliftingEvent)
    (reason : string) : M Sys unit :=
  try_catch
    (call (ELogSuppressed event reason) (logSuppressed_outcome w event reason))
    (consoleError "[ShopliftPipeline] logSuppressed error:").

(** [logTriggered(event, text, path, undefined).catch(e => console.error(tag, e))] *)
Definition logTriggeredReported (w : World) (event : ShopliftingEvent)
    (alertText path : string) : M Sys unit :=
  try_catch
    (call (ELogTriggered event alertText path)
       (logTriggered_outcome w event alertText path))
    (consoleError "[ShopliftPipeline] logTriggered error:").

(** [alertGate(event)] on the gate's module state. *)
Definition gateCall (env : Env) (w : World) (event : ShopliftingEvent)
    : M Sys AlertGate.GateResult :=
  fun s =>
    let (r, g) := AlertGate.alertGate (gateEnv env) (dateNow w) event (gate s) in
    (setGate g s, inr r).

(** The MiniMax attempt of the pipeline: [(audioPath, fallbackUsed)]. *)
Definition miniMaxAttempt (env : Env) (w : World) (event : ShopliftingEvent)
    : M Sys (option string * bool) :=
  if useMiniMaxTTS env then
    try_catch
      (call (EImport "./minimax-tts") (import_outcome w "./minimax-tts");;
       ttsResult ←
         zoom trace setTrace
           (fun tr =>
              (tr ++ [EGenerateAlertAudio (location event) (camera_id event)],
               generateAlertAudio_outcome w (location event) (camera_id event)));
       if truthy (tts_audioPath ttsResult)
       then mret (tts_audioPath ttsResult, tts_fallbackUsed ttsResult)
       else mret (None, true))
      (fun _ => mret (None, true))
  else mret (None, true).

(** The local voice step, taken when no audio path has been produced. *)
Definition voiceStep (env : Env) (w : World) (event : ShopliftingEvent)
    (sofar : option string * bool) : M Sys (option string * bool) :=
  if negb (truthy (fst sofar)) then
    call (EImport "@/lib/grocery-shoplift/voice")
      (import_outcome w "@/lib/grocery-shoplift/voice");;
    s ← get;
    result ←
      zoom trace setTrace
        (Voice.play (defaultVoice s) (voiceEnv env) w
           (location event) (camera_id event));
    mret (Voice.audioPath result, String.eqb (Voice.voiceUsed result) "local")
  else mret sofar.

(** The body of the [try] block. *)
Definition pipelineBody (env : Env) (w : World) (event : ShopliftingEvent)
    : M Sys PipelineResult :=
  gateResult ← gateCall env w event;
  match gateResult with
  | AlertGate.Rejected reason _ =>
      logSuppressedReported w event (AlertGate.reasonString reason);;
      mret {| triggered := false;
              reason := Some (AlertGate.reasonString reason);
              audioPath := None; fallbackUsed := None |}
  | AlertGate.Allowed _ =>
      let alertText := buildAlertText env (location event) in
      fromTts ← miniMaxAttempt env w event;
      voiced ← voiceStep env w event fromTts;
      if negb (truthy (fst voiced)) then
        logSuppressedReported w event "voice_failed";;
        mret {| triggered := false; reason := Some "voice_failed";
                audioPath := None; fallbackUsed := None |}
      else
        let path := default "" (fst voiced) in
        logTriggeredReported w event alertText path;;
        call (EImport "./playback") (import_outcome w "./playback");;
        try_catch
          (call (EPlayAudioNonBlocking path)
             (playAudioNonBlocking_outcome w path))
          (consoleError "[ShopliftPipeline] playback error:");;
        mret {| triggered := true; reason := None;
                audioPath := Some path; fallbackUsed := Some (snd voiced) |}
  end.

(** [e instanceof Error ? e.message : "pipeline_error"] *)
Definition suppressedReasonOf (e : Thrown) : string :=
  match e with
  | ErrorObj m => m
  | NonError _ => "pipeline_error"
  end.

(** The [catch] block. *)
Definition pipelineHandler (w : World) (event : ShopliftingEvent) (e : Thrown)
    : M Sys PipelineResult :=
  consoleError "[ShopliftPipeline] unexpected error:" e;;
  try_catch
    (call (ELogSuppressed event (suppressedReasonOf e))
       (logSuppressed_outcome w event (suppressedReasonOf e)))
    (fun _ => mret tt);;
  mret {| triggered := false; reason := Some "pipeline_error";
          audioPath := None; fallbackUsed := None |}.

Definition runShopliftAlertPipeline (env : Env) (w : World)
    (event : ShopliftingEvent) : M Sys PipelineResult :=
  try_catch (pipelineBody env w event) (pipelineHandler w event).

End Pipeline.

(** ** lib/shoplift-alerts/types.ts: building and validating events *)

Module EventTypes.

Definition SHOPLIFTING_EVENT_TYPE : string := "shoplifting_detected".

(** A JavaScript value as [isShopliftingEvent] inspects it; the fields of an
    object are listed once each. *)
#[warnings="-register-all"]
Inductive JsValue :=
| JUndefined
| JNull
| JBool (b : bool)
| JNumber (n : Q)
| JString (s : string)
| JObject (fields : list (string * JsValue)).

(** [o.key], [undefined] when the object has no such field. *)
Fixpoint getField (key : string) (fields : list (string * JsValue))
    : JsValue :=
  match fields with
  | [] => JUndefined
  | (k, v) :: rest => if String.eqb k key then v else getField key rest
  end.

(** [typeof v === "string"] *)
Definition isString (v : JsValue) : bool :=
  match v with JString _ => true | _ => false end.

Definition isShopliftingEvent (ev : JsValue) : bool :=
  match ev with
  | JObject o =>
      match getField "event_type" o with
      | JString t => String.eqb t SHOPLIFTING_EVENT_TYPE
      | _ => false
      end
      && isString (getField "camera_id" o)
      && isString (getField "location" o)
      && match getField "confidence" o with
         | JNumber c => Qle_bool 0 c && Qle_bool c 1
         | _ => false
         end
      && isString (getField "timestamp" o)
  | _ => false
  end.

(** The object a [ShopliftingEvent] is at run time. *)
Definition evidenceObject (e : ShopliftingEventEvidence) : JsValue :=
  JObject
    (flat_map
       (fun kv : string * option string =>
          match snd kv with Some s => [(fst kv, JString s)] | None => [] end)
       [("keyframe_path", keyframe_path e);
        ("keyframe_base64", keyframe_base64 e);
        ("clip_path", clip_path e)]).

Definition eventObject (e : ShopliftingEvent) : JsValue :=
  JObject
    [("event_type", JString SHOPLIFTING_EVENT_TYPE);
     ("camera_id", JString (camera_id e));
     ("location", JString (location e));
     ("confidence", JNumber (confidence e));
     ("timestamp", JString (timestamp e));
     ("evidence",
      match evidence e with
      | Some ev => evidenceObject ev
      | None => JUndefined
      end)].

(** The argument of [fromTheftEvent]; [timestamp] is the text
    [theft.timestamp.toISOString()] gives, [zoneId] is [None] for [null] and
    [undefined] alike. *)
Record TheftInput := {
  theft_id : string;
  cameraId : string;
  zoneId : option string;
  suspicionScore : Q;
  theft_timestamp : string;
  description : option string;
  keyframes : option (list string)
}.

Definition fromTheftEvent (theft : TheftInput) (locationLabel : option string)
    : ShopliftingEvent :=
  let location :=
    match locationLabel with
    | Some l => l
    | None => default "Unknown area" (zoneId theft)
    end in
  let confidence := Qmin 1 (Qmax 0 (suspicionScore theft / 100)) in
  let evidence :=
    match keyframes theft with
    | Some (k :: _) =>
        if truthy (Some k)
        then Some {| keyframe_path := None; keyframe_base64 := Some k;
                     clip_path := None |}
        else None
    | _ => None
    end in
  {| camera_id := cameraId theft;
     location := location;
     confidence := confidence;
     timestamp := theft_timestamp theft;
     evidence := evidence |}.

(** [Partial<ShopliftingEvent>] *)
Record Overrides := {
  o_camera_id : option string;
  o_location : option string;
  o_confidence : option Q;
  o_timestamp : option string;
  o_evidence : option ShopliftingEventEvidence
}.

(** [createStubShopliftingEvent]; [isoNow] is [new Date().toISOString()]. *)
Definition createStubShopliftingEvent (isoNow : string)
    (overrides : option Overrides) : ShopliftingEvent :=
  {| camera_id := default "cam-test-1" (overrides ≫= o_camera_id);
     location := default "Aisle 6" (overrides ≫= o_location);
     confidence := default (85 # 100) (overrides ≫= o_confidence);
     timestamp := default isoNow (overrides ≫= o_timestamp);
     evidence := overrides ≫= o_evidence |}.

End EventTypes.

(** ** lib/shoplift-alerts/minimax-tts.ts: [hexToBytes] *)

Module MinimaxTts.

(** The characters of the class [\s] among the code units below 256. *)
Definition isWhitespace (c : ascii) : bool :=
  let n := nat_of_ascii c in
  ((n =? 9) || (n =? 10) || (n =? 11) || (n =? 12) || (n =? 13)
   || (n =? 32) || (n =? 160))%nat.

(** [hex.replace(/\s/g, "")] *)
Fixpoint stripWhitespace (s : string) : string :=
  match s with
  | EmptyString => EmptyString
  | String c rest =>
      if isWhitespace c then stripWhitespace rest
      else String c (stripWhitespace rest)
  end.

Definition hexDigitValue (c : ascii) : option N :=
  let n := N_of_ascii c in
  if ((48 <=? n) && (n <=? 57))%N then Some (n - 48)%N
  else if ((97 <=? n) && (n <=? 102))%N then Some (n - 87)%N
  else if ((65 <=? n) && (n <=? 70))%N then Some (n - 55)%N
  else None.

(** [buf[k] = parseInt(pair, 16)] for a two-character [pair]: [parseInt]
    reads an optional sign and the longest run of hex digits ([NaN] when
    there is none), and the store into the buffer keeps the value modulo 256,
    [NaN] as 0. *)
Definition byteOfPair (c1 c2 : ascii) : N :=
  match hexDigitValue c1, hexDigitValue c2 with
  | Some a, Some b => (16 * a + b)%N
  | Some a, None => a
  | None, Some b =>
      if Ascii.eqb c1 "-" then ((256 - b) mod 256)%N
      else if Ascii.eqb c1 "+" then b
      else 0%N
  | None, None => 0%N
  end.

(** The loop [for (i = 0; i < clean.length; i += 2)]. *)
Fixpoint bytesOfPairs (clean : string) : list N :=
  match clean with
  | String c1 (String c2 rest) => byteOfPair c1 c2 :: bytesOfPairs rest
  | _ => []
  end.

Definition hexToBytes (hex : string) : Thrown + list N :=
  let clean := stripWhitespace hex in
  if negb (String.length clean mod 2 =? 0)%nat
  then inl (ErrorObj "Invalid hex length")
  else inr (bytesOfPairs clean).

End MinimaxTts.

(** ** lib/grocery-shoplift/capture.ts: [cropBoxWithMargin] *)

Module Capture.

Definition MARGIN : Q := 15 # 100.

Record Crop := { x : Q; y : Q; w : Q; h : Q }.

(** [Math.floor] and [Math.ceil] *)
Definition Math_floor (q : Q) : Q := inject_Z (Qfloor q).
Definition Math_ceil (q : Q) : Q := inject_Z (Qceiling q).

Definition cropBoxWithMargin (box : Tracking.Bbox) (frameWidth frameHeight : Q)
    (margin : option Q) : Crop :=
  let margin := default MARGIN margin in
  let w := Tracking.x2 box - Tracking.x1 box in
  let h := Tracking.y2 box - Tracking.y1 box in
  let mw := w * margin in
  let mh := h * margin in
  let x1 := Tracking.x1 box - mw in
  let y1 := Tracking.y1 box - mh in
  let x2 := Tracking.x2 box + mw in
  let y2 := Tracking.y2 box + mh in
  let x1 := Qmax 0 (Qmin x1 (frameWidth - 1)) in
  let y1 := Qmax 0 (Qmin y1 (frameHeight - 1)) in
  let x2 := Qmax 0 (Qmin x2 frameWidth) in
  let y2 := Qmax 0 (Qmin y2 frameHeight) in
  let x2 := if Qle_bool x2 x1 then x1 + 1 else x2 in
  let y2 := if Qle_bool y2 y1 then y1 + 1 else y2 in
  {| x := Math_floor x1; y := Math_floor y1;
     w := Math_ceil (x2 - x1); h := Math_ceil (y2 - y1) |}.

End Capture.

(** ** lib/grocery-shoplift/judge.ts: the MiniMax judge and its rate limit *)

Module JudgeSelect.

Record Env := {
  MINIMAX_API_KEY : option string;
  ENABLE_MINIMAX_VLM : option string
}.

Definition RATE_LIMIT_PER_CAMERA : nat := 6.
Definition RATE_WINDOW_MS : Q := 60000.

(** [checkRateLimit]; [now] is [Date.now()], the state is the closure's
    [rateCount] map. *)
Definition checkRateLimit (now : Q) (cameraId : string)
    (rateCount : gmap string (list Q)) : bool * gmap string (list Q) :=
  let list := default [] (rateCount !! cameraId) in
  let inWindow :=
    List.filter (fun t => Qle_bool (now - RATE_WINDOW_MS) t) list in
  if (RATE_LIMIT_PER_CAMERA <=? length inWindow)%nat then (false, rateCount)
  else
    (true,
     <[cameraId := slice_last RATE_LIMIT_PER_CAMERA (inWindow ++ [now])]>
       rateCount).

(** [judge] of the object [createMiniMaxVLMJudge] returns. *)
Definition MiniMaxVLMJudge_judge (now : Q)
    (input : Judge.ConcealmentJudgeInput) (rateCount : gmap string (list Q))
    : Judge.JudgeResult * gmap string (list Q) :=
  let (ok, rateCount') := checkRateLimit now (Judge.cameraId input) rateCount in
  if negb ok then (Judge.LocalFallbackJudge_judge input, rateCount')
  else (Judge.LocalFallbackJudge_judge input, rateCount').

Inductive IConcealmentJudge := LocalFallbackJudge | MiniMaxVLMJudge.

Definition createMiniMaxVLMJudge (env : Env) : option IConcealmentJudge :=
  if negb (truthy (MINIMAX_API_KEY env))
     || negb (flagSet (ENABLE_MINIMAX_VLM env))
  then None else Some MiniMaxVLMJudge.

(** [initConcealmentJudge]: the new value of [defaultJudge]. *)
Definition initConcealmentJudge (env : Env) : IConcealmentJudge :=
  default LocalFallbackJudge (createMiniMaxVLMJudge env).

(** [judge] of either implementation. *)
Definition judge (j : IConcealmentJudge) (now : Q)
    (input : Judge.ConcealmentJudgeInput) (rateCount : gmap string (list Q))
    : Judge.JudgeResult * gmap string (list Q) :=
  match j with
  | LocalFallbackJudge => (Judge.LocalFallbackJudge_judge input, rateCount)
  | MiniMaxVLMJudge => MiniMaxVLMJudge_judge now input rateCount
  end.

End JudgeSelect.

(** ** lib/shoplift-alerts/minimax-tts.ts: [generateAlertAudio] *)

Module TtsClient.

Definition MAX_RETRIES : nat := 2.

Record Env := {
  MINIMAX_API_KEY : option string;
  DRY_RUN : option string
}.

(** The calls [generateAlertAudio] makes to the world outside. *)
Inductive TtsEffect :=
| TMkdir (dir : string)
| TWriteFile (path : string)
| TSleep (ms : Q)
| TFetch (attempt : nat).

(** What one request comes to: [fetch] or the reading of the body throws
    (network failure, timeout), or a response arrives with its status, the
    body's [trace_id] and the body's [data.audio] when that is a string. *)
Inductive FetchOutcome :=
| FetchThrows (e : Thrown)
| FetchResponse (status : Z) (traceId : option string) (audio : option string).

Record TtsWorld := {
  cwd : string;
  isoNow : string;
  mkdir_outcome : string -> option Thrown;
  writeFile_outcome : string -> option Thrown;
  fetch_outcome : nat -> FetchOutcome
}.

Definition emit (eff : TtsEffect) (outcome : option Thrown)
    : M (list TtsEffect) unit :=
  fun tr =>
    (tr ++ [eff], match outcome with None => inr tt | Some e => inl e end).

(** [s.includes(pat)] *)
Fixpoint includes (pat s : string) : bool :=
  String.prefix pat s
  || match s with
     | EmptyString => false
     | String _ rest => includes pat rest
     end.

Definition isDryRun (env : Env) : bool := flagSet (DRY_RUN env).

(** [writeFallbackBeep]; the sample data of the tone is not part of the
    model. *)
Definition writeFallbackBeep (w : TtsWorld) (alertsDir ts safeCamera : string)
    : M (list TtsEffect) string :=
  emit (TMkdir alertsDir) (mkdir_outcome w alertsDir);;
  let wavPath := path_join alertsDir (ts +:+ "_" +:+ safeCamera +:+ "_beep.wav") in
  emit (TWriteFile wavPath) (writeFile_outcome w wavPath);;
  mret wavPath.

(** How one turn of the retry loop ends. *)
Inductive LoopExit :=
| Continue (lastError : option string)
| Break (lastError : option string)
| Return (result : TTSResult).

(** [res.ok] *)
Definition statusOk (status : Z) : bool :=
  ((200 <=? status) && (status <=? 299))%Z.

(** [res.status === 429 || (res.status >= 500 && res.status < 600)] *)
Definition statusRetryable (status : Z) : bool :=
  ((status =? 429) || (500 <=? status) && (status <? 600))%Z.

Definition isRetryable (lastError : string) : bool :=
  includes "429" lastError || includes "5" lastError
  || includes "timeout" lastError || includes "ETIMEDOUT" lastError.

(** The [try] block of one turn. *)
Definition attemptBody (w : TtsWorld) (audioPath : string) (attempt : nat)
    : M (list TtsEffect) LoopExit :=
  fun tr =>
    let tr1 := tr ++ [TFetch attempt] in
    match fetch_outcome w attempt with
    | FetchThrows e => (tr1, inl e)
    | FetchResponse status traceId audio =>
        if negb (statusOk status) then
          let lastError := "HTTP " +:+ pretty status in
          if statusRetryable status then (tr1, inr (Continue (Some lastError)))
          else
            (tr1,
             inr (Return {| tts_success := false; tts_audioPath := None;
                            tts_fallbackUsed := false; tts_traceId := traceId;
                            tts_error := Some lastError |}))
        else if negb (truthy audio) then
          (tr1, inr (Continue (Some "Missing data.audio in response")))
        else
          match MinimaxTts.hexToBytes (default "" audio) with
          | inl e => (tr1, inl e)
          | inr _ =>
              (emit (TWriteFile audioPath) (writeFile_outcome w audioPath);;
               mret (Return {| tts_success := true;
                               tts_audioPath := Some audioPath;
                               tts_fallbackUsed := false;
                               tts_traceId := traceId;
                               tts_error := None |})) tr1
          end
    end.

(** The [catch] block of one turn. *)
Definition attemptHandler (attempt : nat) (e : Thrown)
    : M (list TtsEffect) LoopExit :=
  let lastError := messageOrString e in
  if negb (isRetryable lastError) || (attempt =? MAX_RETRIES)%nat
  then mret (Break (Some lastError))
  else mret (Continue (Some lastError)).

(** [for (let attempt = 0; attempt <= MAX_RETRIES; attempt++)], with
    [remaining] turns left: the result returned from inside the loop, or the
    [lastError] the loop is left with. *)
Fixpoint attemptLoop (w : TtsWorld) (audioPath : string)
    (remaining attempt : nat) (lastError : option string)
    : M (list TtsEffect) (TTSResult + option string) :=
  match remaining with
  | O => mret (inr lastError)
  | S k =>
      (if (0 <? attempt)%nat
       then emit (TSleep (Qmin (1000 * 2 ^ Z.of_nat attempt) 5000)) None
       else mret tt);;
      exit ← try_catch (attemptBody w audioPath attempt)
                        (attemptHandler attempt);
      match exit with
      | Continue lastError' => attemptLoop w audioPath k (S attempt) lastError'
      | Break lastError' => mret (inr lastError')
      | Return r => mret (inl r)
      end
  end.

Definition generateAlertAudio (env : Env) (w : TtsWorld)
    (location cameraId : string) : M (list TtsEffect) TTSResult :=
  let ts := fileTimestamp (isoNow w) in
  let safeCamera := safeName 32 cameraId in
  let fileName := ts +:+ "_" +:+ safeCamera +:+ ".mp3" in
  let alertsDir := path_join (path_join (cwd w) "alerts") "audio" in
  let audioPath := path_join alertsDir fileName in
  let apiKey := MINIMAX_API_KEY env in
  if negb (truthy apiKey) || isDryRun env then
    fallbackPath ← writeFallbackBeep w alertsDir ts safeCamera;
    mret {| tts_success := true; tts_audioPath := Some fallbackPath;
            tts_fallbackUsed := true; tts_traceId := None;
            tts_error :=
              Some (if negb (truthy apiKey) then "MINIMAX_API_KEY not set"
                    else "DRY_RUN=1") |}
  else
    created ←
      try_catch
        (emit (TMkdir alertsDir) (mkdir_outcome w alertsDir);; mret None)
        (fun e => mret (Some e));
    match created with
    | Some e =>
        mret {| tts_success := false; tts_audioPath := None;
                tts_fallbackUsed := false; tts_traceId := None;
                tts_error :=
                  Some ("Failed to create alerts dir: "
                        +:+ messageOrString e) |}
    | None =>
        looped ← attemptLoop w audioPath (S MAX_RETRIES) 0 None;
        match looped with
        | inl result => mret result
        | inr lastError =>
            try_catch
              (fallbackPath ← writeFallbackBeep w alertsDir ts safeCamera;
               mret {| tts_success := true;
                       tts_audioPath := Some fallbackPath;
                       tts_fallbackUsed := true; tts_traceId := None;
                       tts_error := lastError |})
              (fun _ =>
                 mret {| tts_success := false; tts_audioPath := None;
                         tts_fallbackUsed := false; tts_traceId := None;
                         tts_error :=
                           Some (default "TTS failed" lastError) |})
        end
    end.

End TtsClient.

(** * Vocabulary of the properties *)

(** A box with positive width and height. *)
Definition properBox (a : Tracking.Bbox) : Prop :=
  Tracking.x1 a < Tracking.x2 a /\ Tracking.y1 a < Tracking.y2 a.

(** Two boxes without overlapping area: one lies beside, above or below the
    other (touching edges allowed). *)
Definition noOverlap (a b : Tracking.Bbox) : Prop :=
  Tracking.x2 a <= Tracking.x1 b \/ Tracking.x2 b <= Tracking.x1 a \/
  Tracking.y2 a <= Tracking.y1 b \/ Tracking.y2 b <= Tracking.y1 a.

(** The bound on a track's [bbox_history]. *)
Definition historyBounded (t : Tracking.TrackedPerson) : Prop :=
  (length (Tracking.bbox_history t) <= Tracking.MAX_BBOX_HISTORY)%nat.

(** A track is a candidate for a detection when no earlier detection of the
    frame has taken it. *)
Definition unmatched (matched : gset string) (t : Tracking.TrackedPerson)
    : Prop :=
  Tracking.track_id t ∉ matched.

(** The track the tracker's store holds under a key ([Map.prototype.get]). *)
Fixpoint map_get (k : string) (m : list (string * Tracking.TrackedPerson))
    : option Tracking.TrackedPerson :=
  match m with
  | [] => None
  | (k', v) :: rest => if String.eqb k' k then Some v else map_get k rest
  end.

(** The invariant of the outer loop of [updateTracks] behind the history
    bound: it holds of the stored tracks and of the tracks returned so far. *)
Definition loopBounded (ls : Tracking.LoopState) : Prop :=
  Forall historyBounded
    (Tracking.values (Tracking.activeTracks (Tracking.tracker ls))) /\
  Forall historyBounded (Tracking.result ls).



(** The outer loop of [updateTracks] on the store [st] once the detections
    [pre] of the frame have been handled. *)
Definition loopBefore (nowMs : Q) (st : Tracking.TrackerState)
    (pre : list Tracking.PersonDetection) : Tracking.LoopState :=
  fold_left (Tracking.detStep nowMs) pre
    {| Tracking.tracker := st; Tracking.matched := ∅;
       Tracking.result := [] |}.

(** First-in, first-out history in a frame [pre ++ det :: post] whose
    detection [det] is taken by the track [t]: the track [updateTracks]
    returns at [det]'s position, which is also the one stored under [t]'s id
    once [det] has been handled, carries [t]'s history with the new box at
    the end, cut to its last 10 entries. *)
Definition fifoFrame (pre post : list Tracking.PersonDetection)
    (det : Tracking.PersonDetection) (nowMs : Q)
    (st : Tracking.TrackerState) (t : Tracking.TrackedPerson) : Prop :=
  let old := Tracking.bbox_history t in
  exists u : Tracking.TrackedPerson,
    fst (Tracking.updateTracks (pre ++ det :: post) nowMs st) !! length pre
    = Some u /\
    map_get (Tracking.track_id t)
      (Tracking.activeTracks
         (snd (Tracking.updateTracks (pre ++ [det]) nowMs st))) = Some u /\
    Tracking.track_id u = Tracking.track_id t /\
    Tracking.bbox u = Tracking.det_bbox det /\
    Tracking.bbox_history u = slice_last 10 (old ++ [Tracking.det_bbox det]) /\
    ((length old < 10)%nat ->
       Tracking.bbox_history u = old ++ [Tracking.det_bbox det]) /\
    (length old = 10%nat ->
       Tracking.bbox_history u = tail old ++ [Tracking.det_bbox det]).

(** The dwell sum as the specification words it: over every zone-visit
    record of type "high_theft", [(now - entered_ms) / 1000]. *)
Definition specDwellSum (now : Q) (history : list Suspicion.ZoneVisit) : Q :=
  fold_right Qplus 0
    (map (fun h => (now - Suspicion.entered_ms h) / 1000)
       (List.filter
          (fun h => String.eqb (Suspicion.zone_type h) "high_theft")
          history)).

(** A zone-visit record counts for the dwell time when its type is
    "high_theft" and its [zone_id] is the id of an enabled "high_theft" zone
    of the configuration. *)
Definition countsForDwell (zones : list Suspicion.ZoneConfig)
    (h : Suspicion.ZoneVisit) : bool :=
  String.eqb (Suspicion.zone_type h) "high_theft"
  && existsb
       (fun z => String.eqb (Suspicion.type z) "high_theft"
                 && Suspicion.isEnabled z
                 && String.eqb (Suspicion.id z) (Suspicion.zone_id h))
       zones.

(** The dwell sum over the records that count: their seconds added up in
    the order of the history, starting from 0, in double arithmetic. *)
Definition dwellSum (zones : list Suspicion.ZoneConfig) (now : Q)
    (history : list Suspicion.ZoneVisit) : Q :=
  fold_left (Suspicion.dwellAdd now)
    (List.filter (countsForDwell zones) history) 0.

(** A voice call that returns, with [success = true] and the local
    backend. *)
Definition succeedsLocally (m : M (list Effect) Voice.VoiceAlertResult)
    (tr : list Effect) : Prop :=
  exists (tr' : list Effect) (r : Voice.VoiceAlertResult),
    m tr = (tr', inr r) /\
    Voice.success r = true /\
    Voice.voiceUsed r = "local" /\
    is_Some (Voice.audioPath r).

(** The reasons of the suppressed records a trace attempts to write. *)
Definition suppressedReasons (tr : list Effect) : list string :=
  flat_map
    (fun eff => match eff with ELogSuppressed _ reason => [reason] | _ => [] end)
    tr.

(** The result the pipeline returns from its [catch] block. *)
Definition pipelineFailure : Pipeline.PipelineResult :=
  {| Pipeline.triggered := false;
     Pipeline.reason := Some "pipeline_error";
     Pipeline.audioPath := None;
     Pipeline.fallbackUsed := None |}.

(** The tracker states a run can be in: the state [resetTracks] leaves, and
    the state after any call of [updateTracks] on such a state. *)
Inductive reachable : Tracking.TrackerState -> Prop :=
| reach_reset (st : Tracking.TrackerState) :
    reachable (Tracking.resetTracks st)
| reach_update (dets : list Tracking.PersonDetection) (nowMs : Q)
    (st : Tracking.TrackerState) :
    reachable st -> reachable (snd (Tracking.updateTracks dets nowMs st)).

(** ** Vocabulary of the further properties *)

(** Every persistence buffer of alert-gate.ts holds at most 10 times. *)
Definition buffersBounded (st : AlertGate.GateState) : Prop :=
  forall (cam : string) (l : list Q),
    AlertGate.recentEventsByCamera st !! cam = Some l ->
    (length l <= 10)%nat.

(** The time of an event of gate.ts. *)
Definition gateNow (clock : Q) (input : Gate.GateInput) : Q :=
  default clock (Gate.now_ms input).

(** The id the tracker mints from its counter. *)
Definition trackName (n : N) : string := "t" +:+ pretty n.

(** The keys of the tracker's store, in store order. *)
Definition storeIds (st : Tracking.TrackerState) : list string :=
  map fst (Tracking.activeTracks st).

(** The store holds exactly the ids minted so far, "t1", "t2", ... in the
    order they were minted, each under its own key, and the counter is the
    next number. *)
Definition wellNumbered (st : Tracking.TrackerState) : Prop :=
  exists m : nat,
    Tracking.nextTrackId st = N.of_nat (S m) /\
    storeIds st = map (fun i => trackName (N.of_nat i)) (seq 1 m) /\
    Forall (fun kv => Tracking.track_id (snd kv) = fst kv)
      (Tracking.activeTracks st).

(** The MiniMax judge's rate limiter asked at the given times for one
    camera: the answers, and the map afterwards. *)
Fixpoint rateRun (cameraId : string) (times : list Q)
    (rateCount : gmap string (list Q)) : list bool * gmap string (list Q) :=
  match times with
  | [] => ([], rateCount)
  | t :: rest =>
      let (ok, rc1) := JudgeSelect.checkRateLimit t cameraId rateCount in
      let (oks, rc2) := rateRun cameraId rest rc1 in
      (ok :: oks, rc2)
  end.

(** Every character of a string satisfies [p]. *)
Fixpoint allChars (p : ascii -> bool) (s : string) : bool :=
  match s with
  | EmptyString => true
  | String c rest => p c && allChars p rest
  end.

(** A voice call that returns with [success = true] and an audio path. *)
Definition succeeds (m : M (list Effect) Voice.VoiceAlertResult)
    (tr : list Effect) : Prop :=
  exists (tr' : list Effect) (r : Voice.VoiceAlertResult),
    m tr = (tr', inr r) /\
    Voice.success r = true /\
    is_Some (Voice.audioPath r).

(** Neither [:] nor [.]. *)
Definition notColonOrDot (c : ascii) : bool :=
  negb (Ascii.eqb c ":" || Ascii.eqb c ".").

(** A computation follows [R] when every run takes a state to a state
    related to it by [R]. *)
Definition follows {S A : Type} (R : S -> S -> Prop) (m : M S A) : Prop :=
  forall s, R s (fst (m s)).

(** A trace that has grown by effects that all satisfy [P]. *)
Definition growsT (P : Effect -> Prop) (tr tr' : list Effect) : Prop :=
  exists ext, tr' = tr ++ ext /\ Forall P ext.

(** The same for the pipeline's state, whose gate and voice selection stay
    as they are. *)
Definition grows (P : Effect -> Prop) (s s' : Pipeline.Sys) : Prop :=
  Pipeline.gate s' = Pipeline.gate s /\
  Pipeline.defaultVoice s' = Pipeline.defaultVoice s /\
  growsT P (Pipeline.trace s) (Pipeline.trace s').

(** The calls of the local voice: directory, speech program, file, player. *)
Definition localVoiceEffect (eff : Effect) : Prop :=
  match eff with
  | EMkdir _ | ESpawnWait _ _ | ESpawnDetached _ _ | EWriteFile _ => True
  | _ => False
  end.

(** The calls of either voice: those of the local one, module loads, the
    MiniMax request and the playback queue. *)
Definition voiceEffect (eff : Effect) : Prop :=
  match eff with
  | EMkdir _ | ESpawnWait _ _ | ESpawnDetached _ _ | EWriteFile _
  | EImport _ | EGenerateAlertAudio _ _ | EPlayAudioNonBlocking _ => True
  | _ => False
  end.

(** Not an attempt to write an incident record. *)
Definition notLog (eff : Effect) : Prop :=
  match eff with
  | ELogSuppressed _ _ | ELogTriggered _ _ _ => False
  | _ => True
  end.

(** The number of incident records a trace attempts to write. *)
Definition logAttempts (tr : list Effect) : nat :=
  length
    (List.filter
       (fun eff =>
          match eff with
          | ELogSuppressed _ _ | ELogTriggered _ _ _ => true
          | _ => false
          end) tr).

(** The pipeline once the voice step has produced, or failed to produce, an
    audio path: the last part of the [try] block. *)
Definition afterVoice (env : Pipeline.Env) (w : World)
    (event : ShopliftingEvent) (voiced : option string * bool)
    : M Pipeline.Sys Pipeline.PipelineResult :=
  if negb (truthy (fst voiced)) then
    Pipeline.logSuppressedReported w event "voice_failed";;
    mret {| Pipeline.triggered := false;
            Pipeline.reason := Some "voice_failed";
            Pipeline.audioPath := None; Pipeline.fallbackUsed := None |}
  else
    let path := default "" (fst voiced) in
    Pipeline.logTriggeredReported w event
      (Pipeline.buildAlertText env (location event)) path;;
    Pipeline.call (EImport "./playback") (import_outcome w "./playback");;
    try_catch
      (Pipeline.call (EPlayAudioNonBlocking path)
         (playAudioNonBlocking_outcome w path))
      (Pipeline.consoleError "[ShopliftPipeline] playback error:");;
    mret {| Pipeline.triggered := true; Pipeline.reason := None;
            Pipeline.audioPath := Some path;
            Pipeline.fallbackUsed := Some (snd voiced) |}.

(** The [try] block after the gate has decided. *)
Definition afterGate (env : Pipeline.Env) (w : World)
    (event : ShopliftingEvent) (gateResult : AlertGate.GateResult)
    : M Pipeline.Sys Pipeline.PipelineResult :=
  match gateResult with
  | AlertGate.Rejected reason _ =>
      Pipeline.logSuppressedReported w event (AlertGate.reasonString reason);;
      mret {| Pipeline.triggered := false;
              Pipeline.reason := Some (AlertGate.reasonString reason);
              Pipeline.audioPath := None; Pipeline.fallbackUsed := None |}
  | AlertGate.Allowed _ =>
      fromTts ← Pipeline.miniMaxAttempt env w event;
      voiced ← Pipeline.voiceStep env w event fromTts;
      afterVoice env w event voiced
  end.

(** What writing a suppressed record adds to the trace: the attempt, and
    the report of its failure when it fails. *)
Definition suppressedTrace (w : World) (event : ShopliftingEvent)
    (reason : string) : list Effect :=
  ELogSuppressed event reason ::
  match logSuppressed_outcome w event reason with
  | None => []
  | Some e => [EConsoleError "[ShopliftPipeline] logSuppressed error:" e]
  end.

(** The result of a run the gate has rejected. *)
Definition suppressedResult (reason : string) : Pipeline.PipelineResult :=
  {| Pipeline.triggered := false; Pipeline.reason := Some reason;
     Pipeline.audioPath := None; Pipeline.fallbackUsed := None |}.

(** The lower-case hexadecimal text of a byte sequence, two digits a byte:
    what [Buffer.toString("hex")] gives. *)
Definition hexDigit (d : N) : ascii :=
  ascii_of_N (if (d <? 10)%N then 48 + d else 87 + d)%N.

Fixpoint toHex (bytes : list N) : string :=
  match bytes with
  | [] => EmptyString
  | b :: rest =>
      String (hexDigit (b / 16)%N)
        (String (hexDigit (b mod 16)%N) (toHex rest))
  end.

(** The number of requests a trace of the MiniMax client holds. *)
Definition fetchCount (tr : list TtsClient.TtsEffect) : nat :=
  length
    (List.filter
       (fun eff =>
          match eff with TtsClient.TFetch _ => true | _ => false end) tr).

(** A result names an audio file exactly when it reports success. *)
Definition coherent (r : TTSResult) : Prop :=
  tts_audioPath r = None <-> tts_success r = false.

(** ** Sample data *)

(** Two detections whose boxes overlap with IOU 2/4. *)
Definition sampleD1 : Tracking.PersonDetection :=
  {| Tracking.det_bbox :=
       {| Tracking.x1 := 0; Tracking.y1 := 0;
          Tracking.x2 := 3; Tracking.y2 := 1 |};
     Tracking.det_confidence := 9 # 10 |}.

Definition sampleD2 : Tracking.PersonDetection :=
  {| Tracking.det_bbox :=
       {| Tracking.x1 := 1; Tracking.y1 := 0;
          Tracking.x2 := 4; Tracking.y2 := 1 |};
     Tracking.det_confidence := 8 # 10 |}.

(** The track the first frame makes of [sampleD1] at time 0, and the loop
    state at the start of the next frame. *)
Definition sampleT1 : Tracking.TrackedPerson :=
  Tracking.newTrack "t1" sampleD1 0.

Definition sampleLoop : Tracking.LoopState :=
  {| Tracking.tracker :=
       {| Tracking.activeTracks := [("t1", sampleT1)];
          Tracking.nextTrackId := 2 |};
     Tracking.matched := ∅;
     Tracking.result := [] |}.

(** The axis-parallel rectangle with corners [(xa, ya)] and [(xb, yb)]. *)
Definition square (xa ya xb yb : Q) : list Tracking.Point :=
  [ {| Tracking.x := xa; Tracking.y := ya |};
    {| Tracking.x := xb; Tracking.y := ya |};
    {| Tracking.x := xb; Tracking.y := yb |};
    {| Tracking.x := xa; Tracking.y := yb |} ].

(** A store with two exits: two enabled "exit" zones, and a track standing
    in the second one, with no zone visit on record. *)
Definition exitNorth : Suspicion.ZoneConfig :=
  {| Suspicion.id := "exit-north"; Suspicion.name := "North exit";
     Suspicion.type := "exit";
     Suspicion.polygon := square 0 0 (4 # 10) (4 # 10);
     Suspicion.enabled := Some true |}.

Definition exitSouth : Suspicion.ZoneConfig :=
  {| Suspicion.id := "exit-south"; Suspicion.name := "South exit";
     Suspicion.type := "exit";
     Suspicion.polygon := square (6 # 10) (6 # 10) 1 1;
     Suspicion.enabled := Some true |}.

Definition trackAtSouthExit : Tracking.TrackedPerson :=
  let b := {| Tracking.x1 := 7 # 10; Tracking.y1 := 7 # 10;
              Tracking.x2 := 9 # 10; Tracking.y2 := 9 # 10 |} in
  {| Tracking.track_id := "t1"; Tracking.bbox := b;
     Tracking.confidence := 9 # 10; Tracking.bbox_history := [b];
     Tracking.last_seen := 100000; Tracking.first_seen := 100000 |}.

Definition twoExitInput : Suspicion.SuspicionInput :=
  {| Suspicion.track := trackAtSouthExit;
     Suspicion.zones := [exitNorth; exitSouth];
     Suspicion.zone_history := [];
     Suspicion.now_ms := 100000 |}.

(** A visit to a "high_theft" zone that the configuration does not list. *)
Definition unlistedDwellInput : Suspicion.SuspicionInput :=
  {| Suspicion.track := trackAtSouthExit;
     Suspicion.zones := [];
     Suspicion.zone_history :=
       [ {| Suspicion.zone_id := "aisle-6";
            Suspicion.zone_type := "high_theft";
            Suspicion.entered_ms := 80000 |} ];
     Suspicion.now_ms := 100000 |}.

(** No variable set: no key, no flag, the default template. *)
Definition noCredentials : Voice.Env :=
  {| Voice.SHOPLIFT_ALERT_TEMPLATE := None;
     Voice.MINIMAX_API_KEY := None;
     Voice.ENABLE_MINIMAX_TTS := None |}.

(** A Linux host without [espeak], whose file system works. *)
Definition linuxNoEspeak : World :=
  {| platform := "linux";
     cwd := "/srv/ispy";
     isoNow := "2025-01-29T12:00:00.000Z";
     dateNow := 1738152000000;
     mkdir_outcome := fun _ => None;
     spawn_outcome := fun _ _ => Some (ErrorObj "spawn espeak ENOENT");
     writeFile_outcome := fun _ => None;
     import_outcome := fun _ => None;
     generateAlertAudio_outcome :=
       fun _ _ => inl (ErrorObj "MINIMAX_API_KEY not set");
     playAudioNonBlocking_outcome := fun _ => None;
     logSuppressed_outcome := fun _ _ => None;
     logTriggered_outcome := fun _ _ _ => None |}.

(** The same host with an audio directory that cannot be created. *)
Definition linuxReadOnly : World :=
  {| platform := "linux";
     cwd := "/srv/ispy";
     isoNow := "2025-01-29T12:00:00.000Z";
     dateNow := 1738152000000;
     mkdir_outcome := fun _ => Some (ErrorObj "EACCES: permission denied");
     spawn_outcome := fun _ _ => Some (ErrorObj "spawn espeak ENOENT");
     writeFile_outcome := fun _ => Some (ErrorObj "ENOENT: no such directory");
     import_outcome := fun _ => None;
     generateAlertAudio_outcome :=
       fun _ _ => inl (ErrorObj "MINIMAX_API_KEY not set");
     playAudioNonBlocking_outcome := fun _ => None;
     logSuppressed_outcome := fun _ _ => None;
     logTriggered_outcome := fun _ _ _ => None |}.

Definition sampleEvent : ShopliftingEvent :=
  {| camera_id := "cam-1"; location := "Aisle 6"; confidence := 9 # 10;
     timestamp := "2025-01-29T12:00:00.000Z"; evidence := None |}.

(** The pipeline with persistence switched off and no credentials, on fresh
    module state. *)
Definition samplePipelineEnv : Pipeline.Env :=
  {| Pipeline.gateEnv := AlertGate.noPersistenceEnv;
     Pipeline.voiceEnv := noCredentials |}.

Definition freshSys : Pipeline.Sys :=
  {| Pipeline.gate := AlertGate.emptyGate;
     Pipeline.defaultVoice := Voice.defaultVoice0;
     Pipeline.trace := [] |}.

(** A box of positive area, a box beside it, and a box of zero width. *)
Definition sampleBoxA : Tracking.Bbox :=
  {| Tracking.x1 := 0; Tracking.y1 := 0; Tracking.x2 := 2; Tracking.y2 := 3 |}.

Definition sampleBoxB : Tracking.Bbox :=
  {| Tracking.x1 := 5; Tracking.y1 := 0; Tracking.x2 := 7; Tracking.y2 := 3 |}.

Definition zeroWidthBox : Tracking.Bbox :=
  {| Tracking.x1 := 10; Tracking.y1 := 10;
     Tracking.x2 := 10; Tracking.y2 := 50 |}.

(** Three events of camera "cam-1" and track "t1" through gate.ts, at 0 s,
    5 s and 25 s, from the reset state under the default configuration. *)
Definition sameTrackRun1 : Gate.GateDecision * Gate.GateState :=
  Gate.alertGate Gate.defaultEnv 0
    (Gate.gateEvent "cam-1" "t1" (9 # 10) 0) Gate.emptyGate.

Definition sameTrackRun2 : Gate.GateDecision * Gate.GateState :=
  Gate.alertGate Gate.defaultEnv 0
    (Gate.gateEvent "cam-1" "t1" (9 # 10) 5000) (snd sameTrackRun1).

Definition sameTrackRun3 : Gate.GateDecision * Gate.GateState :=
  Gate.alertGate Gate.defaultEnv 0
    (Gate.gateEvent "cam-1" "t1" (9 # 10) 25000) (snd sameTrackRun2).

(** The pipeline run on the host whose audio directory cannot be created. *)
Definition readOnlyRun : Pipeline.Sys * (Thrown + Pipeline.PipelineResult) :=
  Pipeline.runShopliftAlertPipeline samplePipelineEnv linuxReadOnly
    sampleEvent freshSys.

(** The pipeline under the gate's default configuration, without
    credentials. *)
Definition defaultPipelineEnv : Pipeline.Env :=
  {| Pipeline.gateEnv := AlertGate.defaultEnv;
     Pipeline.voiceEnv := noCredentials |}.



(** Four bytes and their hex text, broken over two lines. *)
Definition sampleBytes : list N := [222; 173; 190; 239]%N.

Definition sampleHex : string :=
  String.append "de ad" (String (ascii_of_nat 10) "be ef").

(** A theft the feedback route would forward, and a frame of 640 by 480. *)
Definition sampleTheft : EventTypes.TheftInput :=
  {| EventTypes.theft_id := "theft-1";
     EventTypes.cameraId := "cam-1";
     EventTypes.zoneId := Some "zone-exit";
     EventTypes.suspicionScore := 75;
     EventTypes.theft_timestamp := "2025-01-29T12:00:00.000Z";
     EventTypes.description := None;
     EventTypes.keyframes := None |}.

Definition sampleCropBox : Tracking.Bbox :=
  {| Tracking.x1 := 600; Tracking.y1 := 10;
     Tracking.x2 := 639; Tracking.y2 := 470 |}.

(** A person walking to the right: the box of step [i], its detection, and
    the tracker after the first [n] steps, one frame a step, from the reset
    state. *)
Definition walkBox (i : nat) : Tracking.Bbox :=
  {| Tracking.x1 := inject_Z (Z.of_nat i); Tracking.y1 := 0;
     Tracking.x2 := inject_Z (Z.of_nat i) + 10; Tracking.y2 := 20 |}.

Definition walkDet (i : nat) : Tracking.PersonDetection :=
  {| Tracking.det_bbox := walkBox i; Tracking.det_confidence := 9 # 10 |}.

Definition walkFrames (n : nat) : Tracking.TrackerState :=
  fold_left
    (fun st i =>
       snd (Tracking.updateTracks [walkDet i] (inject_Z (Z.of_nat i)) st))
    (seq 0 n)
    {| Tracking.activeTracks := []; Tracking.nextTrackId := 1 |}.

(** The track those ten frames leave: its history is full. *)
Definition walkTrack10 : Tracking.TrackedPerson :=
  {| Tracking.track_id := "t1";
     Tracking.bbox := walkBox 9;
     Tracking.confidence := 9 # 10;
     Tracking.bbox_history := map walkBox (seq 0 10);
     Tracking.last_seen := inject_Z (Z.of_nat 9);
     Tracking.first_seen := inject_Z (Z.of_nat 0) |}.

(** An enabled "high_theft" zone and three visits to it, entered 1 ms,
    8139 ms and 3860 ms before [now]: 12 s in all. *)
Definition aisleSix : Suspicion.ZoneConfig :=
  {| Suspicion.id := "aisle-6"; Suspicion.name := "Aisle 6";
     Suspicion.type := "high_theft";
     Suspicion.polygon := square 0 0 (3 # 10) (3 # 10);
     Suspicion.enabled := None |}.

Definition twelveSecondsInput : Suspicion.SuspicionInput :=
  {| Suspicion.track := trackAtSouthExit;
     Suspicion.zones := [aisleSix];
     Suspicion.zone_history :=
       [ {| Suspicion.zone_id := "aisle-6";
            Suspicion.zone_type := "high_theft";
            Suspicion.entered_ms := 99999 |};
         {| Suspicion.zone_id := "aisle-6";
            Suspicion.zone_type := "high_theft";
            Suspicion.entered_ms := 91861 |};
         {| Suspicion.zone_id := "aisle-6";
            Suspicion.zone_type := "high_theft";
            Suspicion.entered_ms := 96140 |} ];
     Suspicion.now_ms := 100000 |}.

(** * Properties *)

(** ** Numbers *)

Lemma Qlt_bool_iff (a b : Q) : Qlt_bool a b = true <-> a < b.
Proof.
  unfold Qlt_bool. rewrite negb_true_iff.
  destruct (Qle_bool b a) eqn:E.
  - apply Qle_bool_iff in E. split; [discriminate | lra].
  - split; [intros _ | reflexivity].
    apply Qnot_le_lt. intros H. apply Qle_bool_iff in H. congruence.
Qed.

Lemma Qlt_bool_false_iff (a b : Q) : Qlt_bool a b = false <-> b <= a.
Proof.
  unfold Qlt_bool. rewrite negb_false_iff. apply Qle_bool_iff.
Qed.

Lemma Qlt_bool_true (a b : Q) : a < b -> Qlt_bool a b = true.
Proof. apply Qlt_bool_iff. Qed.

Lemma Qlt_bool_false (a b : Q) : b <= a -> Qlt_bool a b = false.
Proof. apply Qlt_bool_false_iff. Qed.

Lemma Qle_bool_true (a b : Q) : a <= b -> Qle_bool a b = true.
Proof. apply Qle_bool_iff. Qed.

Lemma Qle_bool_false (a b : Q) : b < a -> Qle_bool a b = false.
Proof.
  intros H. destruct (Qle_bool a b) eqn:E; [| reflexivity].
  apply Qle_bool_iff in E. lra.
Qed.

(** ** The alert gates *)

Section GateScenario.

Import Gate.

Variables (trk1 trk2 trk3 : string) (t0 clock : Q).

Let e1 := gateEvent "cam-1" trk1 (9 # 10) t0.
Let e2 := gateEvent "cam-1" trk2 (9 # 10) (t0 + 5000).
Let e3 := gateEvent "cam-1" trk3 (9 # 10) (t0 + 25000).

Let r1 := alertGate defaultEnv clock e1 emptyGate.
Let r2 := alertGate defaultEnv clock e2 (snd r1).
Let r3 := alertGate defaultEnv clock e3 (snd r2).

Lemma gate_first_admitted :
  r1 = (Allow,
        {| lastTriggerByCamera := {["cam-1" := t0]};
           lastTriggerByTrack := {[trk1 := t0]} |}).
Proof. reflexivity. Qed.

Lemma gate_second_rejected : r2 = (Reject camera_cooldown, snd r1).
Proof.
  unfold r2. rewrite gate_first_admitted. cbn [snd].
  unfold alertGate, e2, gateEvent.
  cbn [camera_id track_id judge_confidence_0_1 now_ms lastTriggerByCamera
       lastTriggerByTrack].
  rewrite lookup_singleton_eq.
  change (getJudgeMinConfidence defaultEnv) with (7 # 10).
  change (getCameraCooldown defaultEnv) with 20.
  rewrite (Qlt_bool_false (9 # 10)) by lra.
  unfold inCooldown, default, id. rewrite Qlt_bool_true by lra.
  reflexivity.
Qed.

Lemma gate_third :
  fst r3 = if String.eqb trk3 trk1 then Reject track_cooldown else Allow.
Proof.
  unfold r3. rewrite gate_second_rejected, gate_first_admitted. cbn [snd].
  unfold alertGate, e3, gateEvent.
  cbn [camera_id track_id judge_confidence_0_1 now_ms lastTriggerByCamera
       lastTriggerByTrack].
  rewrite lookup_singleton_eq.
  change (getJudgeMinConfidence defaultEnv) with (7 # 10).
  change (getCameraCooldown defaultEnv) with 20.
  change (getTrackCooldown defaultEnv) with 30.
  rewrite (Qlt_bool_false (9 # 10)) by lra.
  unfold inCooldown at 1. unfold default, id.
  rewrite Qlt_bool_false by lra.
  destruct (String.eqb_spec trk3 trk1) as [-> | Hne].
  - rewrite lookup_singleton_eq. unfold inCooldown.
    rewrite Qlt_bool_true by lra. reflexivity.
  - rewrite lookup_singleton_ne by congruence. reflexivity.
Qed.

End GateScenario.

Section AlertGateScenario.

Import AlertGate.

Variables (loc ts : string) (evd : option ShopliftingEventEvidence).
Variable t0 : Q.

Let ev : ShopliftingEvent :=
  {| camera_id := "cam-1"; location := loc; confidence := 9 # 10;
     timestamp := ts; evidence := evd |}.

(** Default configuration (persistence count 2): the first event only fills
    the persistence buffer. *)
Lemma alert_gate_default_first_rejected :
  alertGate defaultEnv t0 ev emptyGate =
  (Rejected persistence_not_met ev,
   {| lastTriggerByCamera := ∅;
      recentEventsByCamera := {["cam-1" := [t0]]} |}).
Proof. reflexivity. Qed.

Let q1 := alertGate noPersistenceEnv t0 ev emptyGate.
Let q2 := alertGate noPersistenceEnv (t0 + 5000) ev (snd q1).
Let q3 := alertGate noPersistenceEnv (t0 + 25000) ev (snd q2).

Lemma alert_gate_first_admitted :
  q1 = (Allowed ev,
        {| lastTriggerByCamera := {["cam-1" := t0]};
           recentEventsByCamera := ∅ |}).
Proof. reflexivity. Qed.

Lemma alert_gate_second_rejected : q2 = (Rejected cooldown ev, snd q1).
Proof.
  unfold q2. rewrite alert_gate_first_admitted. cbn [snd].
  unfold alertGate, ev.
  cbn [camera_id confidence lastTriggerByCamera recentEventsByCamera].
  rewrite lookup_singleton_eq.
  change (getMinConfidence noPersistenceEnv) with (75 # 100).
  change (getCooldownSeconds noPersistenceEnv) with 20.
  rewrite (Qlt_bool_false (9 # 10)) by lra.
  rewrite Qlt_bool_true by lra. reflexivity.
Qed.

Lemma alert_gate_third_admitted : fst q3 = Allowed ev.
Proof.
  unfold q3. rewrite alert_gate_second_rejected, alert_gate_first_admitted.
  cbn [snd]. unfold alertGate, ev.
  cbn [camera_id confidence lastTriggerByCamera recentEventsByCamera].
  rewrite lookup_singleton_eq.
  change (getMinConfidence noPersistenceEnv) with (75 # 100).
  change (getCooldownSeconds noPersistenceEnv) with 20.
  rewrite (Qlt_bool_false (9 # 10)) by lra.
  rewrite Qlt_bool_false by lra. reflexivity.
Qed.

End AlertGateScenario.

(** C1 (as the sources have it).  lib/grocery-shoplift/gate.ts, default
    configuration, state after [resetGate]: an event for camera "cam-1" at
    confidence 0.9 is admitted; an event for "cam-1" 5 s later is rejected
    with [camera_cooldown]; an event for "cam-1" 25 s after the first is
    admitted when its track differs from the first event's track, and is
    rejected with [track_cooldown] (30 s) when it carries the same track.
    lib/shoplift-alerts/alert-gate.ts: with persistence switched off the same
    three events give admitted, [cooldown], admitted; under its default
    configuration (persistence count 2) the first event is rejected with
    [persistence_not_met]. *)
Theorem gate_cooldown_scenario
    (trk1 trk2 trk3 loc ts : string) (evd : option ShopliftingEventEvidence)
    (t0 clock : Q) :
  let r1 := Gate.alertGate Gate.defaultEnv clock
              (Gate.gateEvent "cam-1" trk1 (9 # 10) t0) Gate.emptyGate in
  let r2 := Gate.alertGate Gate.defaultEnv clock
              (Gate.gateEvent "cam-1" trk2 (9 # 10) (t0 + 5000)) (snd r1) in
  let r3 := Gate.alertGate Gate.defaultEnv clock
              (Gate.gateEvent "cam-1" trk3 (9 # 10) (t0 + 25000)) (snd r2) in
  let ev := {| camera_id := "cam-1"; location := loc; confidence := 9 # 10;
               timestamp := ts; evidence := evd |} in
  let q1 := AlertGate.alertGate AlertGate.noPersistenceEnv t0 ev
              AlertGate.emptyGate in
  let q2 := AlertGate.alertGate AlertGate.noPersistenceEnv (t0 + 5000) ev
              (snd q1) in
  let q3 := AlertGate.alertGate AlertGate.noPersistenceEnv (t0 + 25000) ev
              (snd q2) in
  (fst r1 = Gate.Allow /\
   fst r2 = Gate.Reject Gate.camera_cooldown /\
   fst r3 = if String.eqb trk3 trk1
            then Gate.Reject Gate.track_cooldown else Gate.Allow)
  /\
  (fst q1 = AlertGate.Allowed ev /\
   fst q2 = AlertGate.Rejected AlertGate.cooldown ev /\
   fst q3 = AlertGate.Allowed ev)
  /\
  fst (AlertGate.alertGate AlertGate.defaultEnv t0 ev AlertGate.emptyGate)
  = AlertGate.Rejected AlertGate.persistence_not_met ev.
Proof.
  intros. split; [| split].
  - split; [reflexivity | split].
    + subst r2 r1. rewrite gate_second_rejected. reflexivity.
    + subst r3 r2 r1. apply gate_third.
  - split; [reflexivity | split].
    + subst q2 q1 ev. rewrite alert_gate_second_rejected. reflexivity.
    + subst q3 q2 q1 ev. apply alert_gate_third_admitted.
  - reflexivity.
Qed.

(** C1, as stated, at one track: the three events of the scenario carried by
    track "t1" through gate.ts; the third one, 25 s after the first, is still
    inside the 30 s track cooldown and is not admitted. *)
Lemma gate_scenario_same_track_rejected :
  fst sameTrackRun1 = Gate.Allow /\
  fst sameTrackRun2 = Gate.Reject Gate.camera_cooldown /\
  fst sameTrackRun3 = Gate.Reject Gate.track_cooldown /\
  fst sameTrackRun3 <> Gate.Allow.
Proof.
  vm_compute. repeat split; congruence.
Qed.

(** C10.  gate.ts: a rejection leaves both maps as they were; the maps
    change only with an admission, which records the event's time for its
    camera and its track. *)
Theorem gate_reject_keeps_state (env : Gate.Env) (clock : Q)
    (input : Gate.GateInput) (st : Gate.GateState) :
  snd (Gate.alertGate env clock input st) =
  match fst (Gate.alertGate env clock input st) with
  | Gate.Reject _ => st
  | Gate.Allow =>
      let now := default clock (Gate.now_ms input) in
      {| Gate.lastTriggerByCamera :=
           <[Gate.camera_id input := now]> (Gate.lastTriggerByCamera st);
         Gate.lastTriggerByTrack :=
           <[Gate.track_id input := now]> (Gate.lastTriggerByTrack st) |}
  end.
Proof.
  unfold Gate.alertGate.
  destruct (Qlt_bool _ _); [reflexivity |].
  destruct (Gate.inCooldown _ _ _); [reflexivity |].
  destruct (Gate.inCooldown _ _ _); reflexivity.
Qed.

(** ** The tracker *)

Section Iou.

Import Tracking.

Lemma iou_identical (a : Bbox) : properBox a -> iou a a == 1.
Proof.
  intros [Hx Hy]. unfold iou.
  assert (Ew : Qmax 0 (Qmin (x2 a) (x2 a) - Qmax (x1 a) (x1 a))
               == x2 a - x1 a).
  { rewrite Q.max_id, Q.min_id. apply Q.max_r. lra. }
  assert (Eh : Qmax 0 (Qmin (y2 a) (y2 a) - Qmax (y1 a) (y1 a))
               == y2 a - y1 a).
  { rewrite Q.max_id, Q.min_id. apply Q.max_r. lra. }
  set (W := Qmax 0 _) in *. set (H := Qmax 0 _) in *.
  assert (Harea : 0 < (x2 a - x1 a) * (y2 a - y1 a)) by nra.
  destruct (Qle_bool _ _) eqn:E.
  - apply Qle_bool_iff in E. nra.
  - field_simplify_eq; nra.
Qed.

Lemma inter_width_zero (lo1 hi1 lo2 hi2 : Q) :
  hi1 <= lo2 \/ hi2 <= lo1 ->
  Qmax 0 (Qmin hi1 hi2 - Qmax lo1 lo2) == 0.
Proof.
  intros H. apply Q.max_l.
  pose proof (Q.le_min_l hi1 hi2). pose proof (Q.le_min_r hi1 hi2).
  pose proof (Q.le_max_l lo1 lo2). pose proof (Q.le_max_r lo1 lo2).
  destruct H; lra.
Qed.

Lemma iou_disjoint (a b : Bbox) : noOverlap a b -> iou a b == 0.
Proof.
  intros H. unfold iou.
  pose proof (inter_width_zero (x1 a) (x2 a) (x1 b) (x2 b)) as Hw.
  pose proof (inter_width_zero (y1 a) (y2 a) (y1 b) (y2 b)) as Hh.
  set (W := Qmax 0 (Qmin (x2 a) (x2 b) - _)) in *.
  set (H' := Qmax 0 (Qmin (y2 a) (y2 b) - _)) in *.
  assert (Hinter : W * H' == 0).
  { destruct H as [H | [H | [H | H]]].
    - rewrite Hw by tauto. ring.
    - rewrite Hw by tauto. ring.
    - rewrite Hh by tauto. ring.
    - rewrite Hh by tauto. ring. }
  destruct (Qle_bool _ _); [reflexivity |].
  rewrite Hinter. unfold Qdiv. ring.
Qed.

End Iou.

(** C8 (as the sources have it).  [iou] of a box with itself is 1 when the
    box has positive width and height, and [iou] of two boxes without
    overlapping area is 0.  (For a box of zero area the guard
    [union <= 0 ? 0 : ...] answers 0.) *)
Theorem iou_identical_and_disjoint (a b c : Tracking.Bbox)
    (Ha : properBox a) (Hbc : noOverlap b c) :
  Tracking.iou a a == 1 /\ Tracking.iou b c == 0.
Proof.
  split; [apply iou_identical, Ha | apply iou_disjoint, Hbc].
Qed.

Lemma iou_identical_and_disjoint_witness :
  Tracking.iou sampleBoxA sampleBoxA == 1 /\
  Tracking.iou sampleBoxA sampleBoxB == 0.
Proof.
  apply (iou_identical_and_disjoint sampleBoxA sampleBoxA sampleBoxB).
  - unfold properBox; cbn; lra.
  - unfold noOverlap; cbn; lra.
Defined.

(** C8, as stated, at a box of zero width: the box is identical to itself
    and overlaps nothing, and [iou] answers 0, not 1. *)
Lemma iou_degenerate_box_is_zero :
  Tracking.iou zeroWidthBox zeroWidthBox == 0 /\
  ~ Tracking.iou zeroWidthBox zeroWidthBox == 1.
Proof.
  vm_compute. split; [reflexivity | discriminate].
Qed.

Section BestMatch.

Import Tracking.

Variables (ms : gset string) (det : PersonDetection).

(** The score of a track against the detection at hand. *)
Let score (t : TrackedPerson) : Q := iou (bbox t) (det_bbox det).

(** Tracks that are taken, or score no more than the running best, leave the
    accumulator alone. *)
Lemma bestStep_keep (acc : Q * option TrackedPerson) (t : TrackedPerson) :
  (unmatched ms t -> score t <= fst acc) ->
  bestStep ms det acc t = acc.
Proof.
  intros H. unfold bestStep.
  destruct (bool_decide_reflect (track_id t ∈ ms)) as [Hin | Hout];
    [reflexivity |].
  rewrite Qlt_bool_false; [reflexivity | apply H, Hout].
Qed.

Lemma bestStep_take (acc : Q * option TrackedPerson) (t : TrackedPerson) :
  unmatched ms t -> fst acc < score t ->
  bestStep ms det acc t = (score t, Some t).
Proof.
  intros Hout Hlt. unfold bestStep.
  rewrite bool_decide_eq_false_2 by exact Hout.
  rewrite Qlt_bool_true by exact Hlt. reflexivity.
Qed.

(** Whatever the loop does, its running best never exceeds a bound that
    dominates the start value and every candidate. *)
Lemma fold_bestStep_below (bound : Q) (ts : list TrackedPerson) :
  forall acc,
    fst acc < bound ->
    Forall (fun t => unmatched ms t -> score t < bound) ts ->
    fst (fold_left (bestStep ms det) ts acc) < bound.
Proof.
  induction ts as [| t ts IH]; intros acc Hacc Hall; [exact Hacc |].
  apply Forall_cons in Hall as [Ht Hts]. cbn [fold_left].
  apply IH; [| exact Hts].
  unfold bestStep.
  destruct (bool_decide_reflect (track_id t ∈ ms)) as [Hin | Hout];
    [exact Hacc |].
  destruct (Qlt_bool (fst acc) _); [apply Ht, Hout | exact Hacc].
Qed.

Lemma fold_bestStep_stable (ts : list TrackedPerson) :
  forall acc,
    Forall (fun t => unmatched ms t -> score t <= fst acc) ts ->
    fold_left (bestStep ms det) ts acc = acc.
Proof.
  induction ts as [| t ts IH]; intros acc Hall; [reflexivity |].
  apply Forall_cons in Hall as [Ht Hts]. cbn [fold_left].
  rewrite bestStep_keep by exact Ht. apply IH, Hts.
Qed.

(** The inner loop picks the first track, in store order, among the
    unmatched tracks of highest score, when that score is above the
    threshold. *)
Lemma findBest_picks (pre post : list TrackedPerson) (t : TrackedPerson) :
  unmatched ms t ->
  IOU_THRESHOLD < score t ->
  Forall (fun u => unmatched ms u -> score u < score t) pre ->
  Forall (fun u => unmatched ms u -> score u <= score t) post ->
  findBest ms det (pre ++ t :: post) = (score t, Some t).
Proof.
  intros Hout Hthr Hpre Hpost. unfold findBest.
  rewrite fold_left_app. cbn [fold_left].
  rewrite bestStep_take;
    [| exact Hout | apply fold_bestStep_below; assumption].
  apply fold_bestStep_stable. exact Hpost.
Qed.

(** With no unmatched track above the threshold the loop finds nothing. *)
Lemma findBest_none (ts : list TrackedPerson) :
  Forall (fun u => unmatched ms u -> score u <= IOU_THRESHOLD) ts ->
  findBest ms det ts = (IOU_THRESHOLD, None).
Proof.
  intros H. unfold findBest. apply fold_bestStep_stable. exact H.
Qed.

(** What the loop returns is a stored, unmatched track above the threshold. *)
Lemma fold_bestStep_sound (ts : list TrackedPerson) :
  forall acc t,
    snd (fold_left (bestStep ms det) ts acc) = Some t ->
    snd acc = Some t \/ (t ∈ ts /\ unmatched ms t).
Proof.
  induction ts as [| u ts IH]; intros acc t H; [left; exact H |].
  cbn [fold_left] in H. apply IH in H as [H | [Hin Hout]].
  - unfold bestStep in H.
    destruct (bool_decide_reflect (track_id u ∈ ms)) as [Hu | Hu];
      [left; exact H |].
    destruct (Qlt_bool _ _); [| left; exact H].
    cbn in H. injection H as <-. right. split; [left | exact Hu].
  - right. split; [right; exact Hin | exact Hout].
Qed.

Lemma findBest_sound (ts : list TrackedPerson) (t : TrackedPerson) :
  snd (findBest ms det ts) = Some t -> t ∈ ts /\ unmatched ms t.
Proof.
  intros H. apply fold_bestStep_sound in H as [H | H];
    [discriminate H | exact H].
Qed.





End BestMatch.

Section TrackerStep.

Import Tracking.

Lemma map_get_map_set (k : string) (v : TrackedPerson)
    (m : list (string * TrackedPerson)) :
  map_get k (map_set k v m) = Some v.
Proof.
  induction m as [| [k' v'] m IH]; cbn.
  - rewrite String.eqb_refl. reflexivity.
  - destruct (String.eqb k' k) eqn:E; cbn.
    + rewrite String.eqb_refl. reflexivity.
    + rewrite E. exact IH.
Qed.

Lemma values_map_set_Forall (P : TrackedPerson -> Prop) (k : string)
    (v : TrackedPerson) (m : list (string * TrackedPerson)) :
  P v -> Forall P (values m) -> Forall P (values (map_set k v m)).
Proof.
  intros Hv. induction m as [| [k' v'] m IH]; cbn; intros Hm.
  - constructor; [exact Hv | constructor].
  - apply Forall_cons in Hm as [Hv' Hm].
    destruct (String.eqb k' k); cbn; constructor; auto.
Qed.

Lemma values_app (m1 m2 : list (string * TrackedPerson)) :
  values (m1 ++ m2) = values m1 ++ values m2.
Proof. apply map_app. Qed.

(** The loop body on a detection for which the inner loop found [t]. *)
Lemma detStep_matched (nowMs : Q) (ls : LoopState) (det : PersonDetection)
    (t : TrackedPerson) :
  snd (findBest (matched ls) det (values (activeTracks (tracker ls))))
  = Some t ->
  detStep nowMs ls det =
  {| tracker :=
       {| activeTracks :=
            map_set (track_id t) (updatedTrack t det nowMs)
              (activeTracks (tracker ls));
          nextTrackId := nextTrackId (tracker ls) |};
     matched := {[track_id t]} ∪ matched ls;
     result := result ls ++ [updatedTrack t det nowMs] |}.
Proof. intros H. unfold detStep. rewrite H. reflexivity. Qed.

(** The loop body on a detection for which the inner loop found nothing. *)
Lemma detStep_unmatched (nowMs : Q) (ls : LoopState) (det : PersonDetection) :
  snd (findBest (matched ls) det (values (activeTracks (tracker ls))))
  = None ->
  let trackId := "t" +:+ pretty (nextTrackId (tracker ls)) in
  detStep nowMs ls det =
  {| tracker :=
       {| activeTracks :=
            map_set trackId (newTrack trackId det nowMs)
              (activeTracks (tracker ls));
          nextTrackId := (nextTrackId (tracker ls) + 1)%N |};
     matched := matched ls;
     result := result ls ++ [newTrack trackId det nowMs] |}.
Proof. intros H. unfold detStep. rewrite H. reflexivity. Qed.

Lemma slice_last_length {A : Type} (n : nat) (l : list A) :
  (length (slice_last n l) <= n)%nat.
Proof. unfold slice_last. rewrite length_drop. lia. Qed.

Lemma slice_last_short {A : Type} (n : nat) (l : list A) :
  (length l <= n)%nat -> slice_last n l = l.
Proof.
  intros H. unfold slice_last.
  replace (length l - n)%nat with 0%nat by lia. reflexivity.
Qed.

Lemma slice_last_full {A : Type} (n : nat) (l : list A) (a : A) :
  length l = n -> (0 < n)%nat -> slice_last n (l ++ [a]) = tail l ++ [a].
Proof.
  intros H Hn. unfold slice_last. rewrite length_app. cbn [length].
  replace (length l + 1 - n)%nat with 1%nat by lia.
  destruct l as [| b l]; [cbn in H; lia | reflexivity].
Qed.

Lemma updatedTrack_bounded (t : TrackedPerson) (det : PersonDetection)
    (nowMs : Q) :
  historyBounded (updatedTrack t det nowMs).
Proof. apply slice_last_length. Qed.

Lemma newTrack_bounded (k : string) (det : PersonDetection) (nowMs : Q) :
  historyBounded (newTrack k det nowMs).
Proof. unfold historyBounded, MAX_BBOX_HISTORY. cbn. lia. Qed.

Lemma detStep_bounded (nowMs : Q) (ls : LoopState) (det : PersonDetection) :
  loopBounded ls -> loopBounded (detStep nowMs ls det).
Proof.
  intros [Hstore Hres]. unfold detStep.
  destruct (snd (findBest _ _ _)) as [t |]; split; cbn.
  - apply (values_map_set_Forall historyBounded);
      [apply updatedTrack_bounded | exact Hstore].
  - apply Forall_app. split; [exact Hres |].
    constructor; [apply updatedTrack_bounded | constructor].
  - apply (values_map_set_Forall historyBounded);
      [apply newTrack_bounded | exact Hstore].
  - apply Forall_app. split; [exact Hres |].
    constructor; [apply newTrack_bounded | constructor].
Qed.

Lemma fold_detStep_bounded (nowMs : Q) (dets : list PersonDetection) :
  forall ls, loopBounded ls -> loopBounded (fold_left (detStep nowMs) dets ls).
Proof.
  induction dets as [| d dets IH]; intros ls H; [exact H |].
  cbn [fold_left]. apply IH, detStep_bounded, H.
Qed.

Lemma updateTracks_bounded (dets : list PersonDetection) (nowMs : Q)
    (st : TrackerState) :
  Forall historyBounded (values (activeTracks st)) ->
  Forall historyBounded (fst (updateTracks dets nowMs st)) /\
  Forall historyBounded (values (activeTracks (snd (updateTracks dets nowMs st)))).
Proof.
  intros H. unfold updateTracks. cbn [fst snd].
  destruct (fold_detStep_bounded nowMs dets
              {| tracker := st; matched := ∅; result := [] |}) as [H1 H2].
  - split; [exact H | constructor].
  - split; assumption.
Qed.

End TrackerStep.

Section TrackerClaims.

Import Tracking.


Lemma track_name_1 : "t" +:+ pretty 1%N = "t1".
Proof. vm_compute. reflexivity. Qed.



End TrackerClaims.



(** The loop appends one returned track per detection. *)
Lemma fold_detStep_appends (nowMs : Q) (dets : list Tracking.PersonDetection) :
  forall ls,
  exists rs : list Tracking.TrackedPerson,
    Tracking.result (fold_left (Tracking.detStep nowMs) dets ls)
    = Tracking.result ls ++ rs /\
    length rs = length dets.
Proof.
  induction dets as [| d dets IH]; intros ls; cbn [fold_left].
  - exists []. rewrite app_nil_r. split; reflexivity.
  - destruct (IH (Tracking.detStep nowMs ls d)) as [rs [Hrs Hlen]].
    assert (Hd : exists u, Tracking.result (Tracking.detStep nowMs ls d)
                           = Tracking.result ls ++ [u]).
    { unfold Tracking.detStep.
      destruct (snd (Tracking.findBest _ _ _)); eexists; reflexivity. }
    destruct Hd as [u Hu]. exists (u :: rs).
    rewrite Hrs, Hu, <- app_assoc. split; [reflexivity |].
    cbn [length]. rewrite Hlen. reflexivity.
Qed.

Lemma updateTracks_length (dets : list Tracking.PersonDetection) (nowMs : Q)
    (st : Tracking.TrackerState) :
  length (fst (Tracking.updateTracks dets nowMs st)) = length dets.
Proof.
  unfold Tracking.updateTracks. cbn [fst].
  destruct (fold_detStep_appends nowMs dets
              {| Tracking.tracker := st; Tracking.matched := ∅;
                 Tracking.result := [] |}) as [rs [Hrs Hlen]].
  rewrite Hrs. cbn. exact Hlen.
Qed.

(** C9.  [updateTracks] keeps the bound on [bbox_history]: it returns one
    track per detection, and when every stored track has at most 10 boxes, so
    has every track it returns and every track stored afterwards.  A
    detection of the frame that is taken by a stored track appends its box
    and keeps the last 10: the track returned at the detection's position,
    which is the one then stored under that id, has the old history with the
    new box at the end when the old history was below the bound, and the old
    history without its oldest box, followed by the new box, when it was
    full. *)
Theorem bbox_history_bounded_fifo
    (pre post : list Tracking.PersonDetection)
    (det : Tracking.PersonDetection) (nowMs : Q)
    (st : Tracking.TrackerState) (t : Tracking.TrackedPerson)
    (Hinv : Forall historyBounded
              (Tracking.values (Tracking.activeTracks st)))
    (Hbest : snd (Tracking.findBest
                    (Tracking.matched (loopBefore nowMs st pre)) det
                    (Tracking.values
                       (Tracking.activeTracks
                          (Tracking.tracker (loopBefore nowMs st pre)))))
             = Some t) :
  length (fst (Tracking.updateTracks (pre ++ det :: post) nowMs st))
  = length (pre ++ det :: post) /\
  Forall historyBounded
    (fst (Tracking.updateTracks (pre ++ det :: post) nowMs st)) /\
  Forall historyBounded
    (Tracking.values
       (Tracking.activeTracks
          (snd (Tracking.updateTracks (pre ++ det :: post) nowMs st)))) /\
  fifoFrame pre post det nowMs st t.
Proof.
  destruct (updateTracks_bounded (pre ++ det :: post) nowMs st Hinv)
    as [H1 H2].
  split; [apply updateTracks_length |].
  split; [exact H1 | split; [exact H2 |]].
  unfold fifoFrame. cbv zeta.
  exists (Tracking.updatedTrack t det nowMs).
  unfold Tracking.updateTracks. cbn [fst snd].
  rewrite !fold_left_app. cbn [fold_left]. fold (loopBefore nowMs st pre).
  rewrite (detStep_matched nowMs (loopBefore nowMs st pre) det t Hbest).
  split; [| split; [| split; [| split; [| split; [| split]]]]].
  - destruct (fold_detStep_appends nowMs pre
                {| Tracking.tracker := st; Tracking.matched := ∅;
                   Tracking.result := [] |}) as [rs [Hrs Hlen]].
    fold (loopBefore nowMs st pre) in Hrs. cbn [Tracking.result app] in Hrs.
    match goal with
    | |- Tracking.result (fold_left _ post ?ls) !! _ = _ =>
        destruct (fold_detStep_appends nowMs post ls) as [rs' [Hrs' _]]
    end.
    rewrite Hrs'. cbn [Tracking.result]. rewrite Hrs, <- app_assoc.
    rewrite lookup_app_r by lia.
    rewrite Hlen, Nat.sub_diag. reflexivity.
  - cbn [Tracking.tracker Tracking.activeTracks]. apply map_get_map_set.
  - reflexivity.
  - reflexivity.
  - reflexivity.
  - intros Hlen. cbn [Tracking.updatedTrack Tracking.bbox_history].
    apply slice_last_short.
    rewrite length_app. cbn. unfold Tracking.MAX_BBOX_HISTORY. lia.
  - intros Hlen. cbn [Tracking.updatedTrack Tracking.bbox_history].
    apply slice_last_full; [exact Hlen |].
    unfold Tracking.MAX_BBOX_HISTORY. lia.
Qed.

Lemma bbox_history_bounded_fifo_witness :
  length (fst (Tracking.updateTracks ([] ++ walkDet 10 :: []) 10
                 (walkFrames 10)))
  = length ([] ++ walkDet 10 :: []) /\
  Forall historyBounded
    (fst (Tracking.updateTracks ([] ++ walkDet 10 :: []) 10
            (walkFrames 10))) /\
  Forall historyBounded
    (Tracking.values
       (Tracking.activeTracks
          (snd (Tracking.updateTracks ([] ++ walkDet 10 :: []) 10
                  (walkFrames 10))))) /\
  fifoFrame [] [] (walkDet 10) 10 (walkFrames 10) walkTrack10.
Proof.
  apply (bbox_history_bounded_fifo [] [] (walkDet 10) 10 (walkFrames 10)
           walkTrack10).
  - vm_compute. constructor; [apply le_n | constructor].
  - vm_compute. reflexivity.
Defined.

(** The run behind that instance: ten frames fill the history of the one
    track, and the eleventh frame returns the track with the first box gone
    and the new box at the end. *)
Example eleven_frames_keep_last_ten :
  Tracking.activeTracks (walkFrames 10) = [("t1", walkTrack10)] /\
  length (Tracking.bbox_history walkTrack10) = 10%nat /\
  map Tracking.bbox_history
    (fst (Tracking.updateTracks [walkDet 10] 10 (walkFrames 10)))
  = [map walkBox (seq 1 10)].
Proof. vm_compute. repeat split; reflexivity. Qed.

(** The bound holds of the state [resetTracks] leaves, hence of every state
    a run reaches. *)
Lemma reset_bounded (st : Tracking.TrackerState) :
  Forall historyBounded
    (Tracking.values (Tracking.activeTracks (Tracking.resetTracks st))).
Proof. constructor. Qed.

Lemma reachable_bounded (st : Tracking.TrackerState) :
  reachable st ->
  Forall historyBounded (Tracking.values (Tracking.activeTracks st)).
Proof.
  induction 1 as [st | dets nowMs st _ IH].
  - apply reset_bounded.
  - apply updateTracks_bounded, IH.
Qed.

(** ** The suspicion engine *)

(** C2, at a store with two exits.  The track's centre is classified into
    the enabled "exit" zone "exit-south" and the history holds no checkout
    visit, yet [computeSuspicion] compares the current zone with the first
    enabled exit zone only ("exit-north"): it returns
    [exit_without_checkout = false], no reason and score 0. *)
Lemma second_exit_zone_not_flagged :
  Suspicion.whichZone
    (Tracking.bboxCenter (Tracking.bbox (Suspicion.track twoExitInput))
       None None)
    (Suspicion.zones twoExitInput) = Some exitSouth /\
  Suspicion.type exitSouth = "exit" /\
  Suspicion.isEnabled exitSouth = true /\
  Suspicion.exit_without_checkout
    (Suspicion.computeSuspicion Suspicion.defaultEnv twoExitInput None None)
  = false /\
  Suspicion.reasons
    (Suspicion.computeSuspicion Suspicion.defaultEnv twoExitInput None None)
  = [] /\
  Suspicion.suspicion_score
    (Suspicion.computeSuspicion Suspicion.defaultEnv twoExitInput None None)
  == 0.
Proof.
  vm_compute. repeat split; reflexivity.
Qed.

Section Dwell.

Import Tracking Suspicion.

Variables (zs : list ZoneConfig) (now : Q).

Let highTheftZones :=
  List.filter (fun z => String.eqb (type z) "high_theft" && isEnabled z) zs.

Lemma find_in_filter (p q : ZoneConfig -> bool) (l : list ZoneConfig) :
  match List.find q (List.filter p l) with
  | Some _ => true
  | None => false
  end = existsb (fun z => p z && q z) l.
Proof.
  induction l as [| z l IH]; [reflexivity |].
  cbn [List.filter existsb]. destruct (p z) eqn:Hp; cbn [andb orb].
  - cbn [List.find]. destruct (q z); [reflexivity | exact IH].
  - exact IH.
Qed.

Lemma dwellStep_counts (acc : Q) (h : ZoneVisit) :
  dwellStep highTheftZones now acc h =
  if countsForDwell zs h then dwellAdd now acc h else acc.
Proof.
  unfold dwellStep, countsForDwell.
  destruct (String.eqb (zone_type h) "high_theft"); [| reflexivity].
  cbn [negb andb].
  pose proof (find_in_filter
                (fun z => String.eqb (type z) "high_theft" && isEnabled z)
                (fun z => String.eqb (id z) (zone_id h)) zs) as H.
  fold highTheftZones in H. rewrite <- H.
  destruct (List.find _ highTheftZones); reflexivity.
Qed.

(** The accumulating loop adds up the records that count, in order. *)
Lemma fold_dwellStep_from (history : list ZoneVisit) :
  forall acc,
    fold_left (dwellStep highTheftZones now) history acc
    = fold_left (dwellAdd now) (List.filter (countsForDwell zs) history) acc.
Proof.
  induction history as [| h history IH]; intros acc; cbn [fold_left].
  - reflexivity.
  - rewrite IH, dwellStep_counts. cbn [List.filter].
    destruct (countsForDwell zs h); reflexivity.
Qed.

Lemma fold_dwellStep (history : list ZoneVisit) :
  fold_left (dwellStep highTheftZones now) history 0
  = dwellSum zs now history.
Proof. apply fold_dwellStep_from. Qed.

End Dwell.

(** When every "high_theft" record names an enabled "high_theft" zone of the
    configuration, every "high_theft" record counts. *)
Lemma dwellSum_all_listed (zones : list Suspicion.ZoneConfig) (now : Q)
    (history : list Suspicion.ZoneVisit) :
  Forall (fun h => String.eqb (Suspicion.zone_type h) "high_theft" = true ->
                   countsForDwell zones h = true) history ->
  dwellSum zones now history =
  fold_left (Suspicion.dwellAdd now)
    (List.filter (fun h => String.eqb (Suspicion.zone_type h) "high_theft")
       history) 0.
Proof.
  intros H. unfold dwellSum. f_equal.
  induction H as [| h history Hh _ IH]; [reflexivity |].
  cbn [List.filter]. rewrite IH.
  destruct (String.eqb (Suspicion.zone_type h) "high_theft") eqn:E.
  - rewrite Hh by reflexivity. reflexivity.
  - unfold countsForDwell. rewrite E. reflexivity.
Qed.



(** The sum is accumulated in doubles.  Three visits of 1 ms, 8139 ms and
    3860 ms make 12 s, but the running sum of their rounded quotients is the
    double 11.999999999999998: the threshold of 12 is not reached and nothing
    is added to the score, while the returned field, rounded to one decimal,
    reads 12. *)
Example dwell_sum_rounds_below_threshold :
  specDwellSum (Suspicion.now_ms twelveSecondsInput)
    (Suspicion.zone_history twelveSecondsInput) == 12 /\
  dwellSum (Suspicion.zones twelveSecondsInput)
    (Suspicion.now_ms twelveSecondsInput)
    (Suspicion.zone_history twelveSecondsInput)
  = 6755399441055743 # 562949953421312 /\
  Suspicion.dwell_high_theft_sec
    (Suspicion.computeSuspicion Suspicion.defaultEnv twelveSecondsInput
       None None) = 12 /\
  Suspicion.suspicion_score
    (Suspicion.computeSuspicion Suspicion.defaultEnv twelveSecondsInput
       None None) == 0.
Proof. vm_compute. repeat split; reflexivity. Qed.

(** Rounding to a double: one tenth is not a double, an integer is; a value
    halfway between two doubles goes to the even significand. *)
Example double_rounding_samples :
  Double.round (1 # 10) = 3602879701896397 # 36028797018963968 /\
  Double.round 12 = 12 /\
  Double.div 1049 1000 = 2362138004555825 # 2251799813685248 /\
  Double.round (inject_Z (2 ^ 53 + 1)) = inject_Z (2 ^ 53) /\
  Double.round (inject_Z (2 ^ 53 + 3)) = inject_Z (2 ^ 53 + 4).
Proof. vm_compute. repeat split; reflexivity. Qed.

(** What does hold of exit-without-checkout: when the zone the track's
    centre is classified into carries the id of the first enabled "exit"
    zone, and no "checkout" record is younger than the memory window, the
    flag is set, the reason listed and the score at least 40. *)
Lemma exit_without_checkout_first_exit (env : Suspicion.Env)
    (input : Suspicion.SuspicionInput) (frameWidth frameHeight : option Q)
    (z e : Suspicion.ZoneConfig) :
  Suspicion.whichZone
    (Tracking.bboxCenter (Tracking.bbox (Suspicion.track input))
       frameWidth frameHeight)
    (Suspicion.zones input) = Some z ->
  List.find (fun c => String.eqb (Suspicion.type c) "exit"
                      && Suspicion.isEnabled c)
    (Suspicion.zones input) = Some e ->
  Suspicion.id z = Suspicion.id e ->
  existsb
    (fun h => String.eqb (Suspicion.zone_type h) "checkout"
              && Qle_bool
                   (Suspicion.now_ms input
                    - Suspicion.getCheckoutMemorySeconds env * 1000)
                   (Suspicion.entered_ms h))
    (Suspicion.zone_history input) = false ->
  let r := Suspicion.computeSuspicion env input frameWidth frameHeight in
  Suspicion.exit_without_checkout r = true /\
  In "exit_without_checkout" (Suspicion.reasons r) /\
  40 <= Suspicion.suspicion_score r.
Proof.
  intros Hz He Hid Hno. cbv zeta. unfold Suspicion.computeSuspicion.
  rewrite Hz, He, Hno. unfold Suspicion.sameZoneId.
  rewrite Hid, String.eqb_refl.
  cbn [negb Suspicion.exit_without_checkout Suspicion.reasons
       Suspicion.suspicion_score].
  split; [reflexivity | split].
  - destruct (Qle_bool _ _); destruct (Suspicion.torsoSpike _);
      rewrite ?in_app_iff; cbn; tauto.
  - destruct (Qle_bool _ _); destruct (Suspicion.torsoSpike _);
      vm_compute; discriminate.
Qed.

(** ** The concealment judge *)

(** C6.  The local judge answers [concealment_likely] =
    [exitWithoutCheckout || torsoRatioSpike], confidence 0.7 when likely and
    0.2 otherwise, and "alert" exactly when likely and the confidence is at
    least 0.7, "log_only" otherwise; two inputs that agree on the two flags
    get the same answer. *)
Theorem local_judge_rule (input other : Judge.ConcealmentJudgeInput) :
  let r := Judge.LocalFallbackJudge_judge input in
  Judge.concealment_likely r
  = (Judge.exitWithoutCheckout input || Judge.torsoRatioSpike input) /\
  Judge.confidence_0_1 r
  = (if Judge.concealment_likely r then 7 # 10 else 2 # 10) /\
  (Judge.recommended_action r = "alert" <->
   Judge.concealment_likely r = true /\ 7 # 10 <= Judge.confidence_0_1 r) /\
  (Judge.recommended_action r <> "alert" ->
   Judge.recommended_action r = "log_only") /\
  (Judge.exitWithoutCheckout other = Judge.exitWithoutCheckout input /\
   Judge.torsoRatioSpike other = Judge.torsoRatioSpike input ->
   Judge.LocalFallbackJudge_judge other = r).
Proof.
  cbv zeta. unfold Judge.LocalFallbackJudge_judge.
  cbn [Judge.concealment_likely Judge.confidence_0_1
       Judge.recommended_action].
  split; [reflexivity | split; [reflexivity | split; [| split]]].
  - destruct (Judge.exitWithoutCheckout input),
      (Judge.torsoRatioSpike input); cbn;
      (split; [intros H; first [discriminate H | split; [reflexivity | lra]]
              | intros [H _]; first [discriminate H | reflexivity]]).
  - destruct (Judge.exitWithoutCheckout input),
      (Judge.torsoRatioSpike input); cbn; intros H;
      first [reflexivity | exfalso; apply H; reflexivity].
  - intros [-> ->]. reflexivity.
Qed.

(** ** The voice alert *)

(** Unfold the monad down to functions on the trace. *)
Ltac run_eff :=
  unfold try_catch, mbind, M_bind, bind, mret, M_ret, ret, throw, get,
    modify, zoom, io in *;
  cbn beta iota zeta.

Section VoiceLocal.

Import Voice.

Variables (env : Env) (w : World).
Hypothesis mkdir_ok : forall dir, mkdir_outcome w dir = None.
Hypothesis writeFile_ok : forall path, writeFile_outcome w path = None.

Lemma writeBeepWav_ok (dir fileName : string) (tr : list Effect) :
  writeBeepWav w dir fileName tr =
  (tr ++ [EMkdir dir] ++ [EWriteFile (path_join dir fileName)],
   inr (path_join dir fileName)).
Proof.
  unfold writeBeepWav, mkdir, writeFile. run_eff.
  rewrite mkdir_ok, writeFile_ok. rewrite <- app_assoc. reflexivity.
Qed.

Lemma LocalVoiceAlert_play_ok (location cameraId : string)
    (tr : list Effect) :
  succeedsLocally (LocalVoiceAlert_play env w location cameraId) tr.
Proof.
  unfold succeedsLocally, LocalVoiceAlert_play.
  destruct (String.eqb (platform w) "darwin") eqn:Hdarwin.
  - (* macOS: say, or the tone from the catch block *)
    unfold try_catch at 1. unfold mbind, M_bind, bind, mkdir, spawnWait, io.
    rewrite mkdir_ok.
    destruct (spawn_outcome w "say" _) as [e |] eqn:Hsay.
    + unfold mbind, M_bind, bind. rewrite writeBeepWav_ok.
      unfold playNonBlocking, io, mret, M_ret, ret.
      eexists _, _. split; [reflexivity |].
      cbn. repeat split. eexists; reflexivity.
    + unfold playNonBlocking, io, mret, M_ret, ret.
      eexists _, _. split; [reflexivity |].
      cbn. repeat split. eexists; reflexivity.
  - destruct (String.eqb (platform w) "linux") eqn:Hlinux.
    + (* Linux: espeak, or the tone *)
      unfold try_catch, mbind, M_bind, bind, mkdir, spawnWait, io.
      rewrite mkdir_ok.
      destruct (spawn_outcome w "espeak" _) as [e |] eqn:Hespeak.
      * unfold mret, M_ret, ret. rewrite writeBeepWav_ok.
        unfold playNonBlocking, io.
        eexists _, _. split; [reflexivity |].
        cbn. repeat split. eexists; reflexivity.
      * unfold playNonBlocking, io, mret, M_ret, ret.
        eexists _, _. split; [reflexivity |].
        cbn. repeat split. eexists; reflexivity.
    + (* elsewhere: the tone *)
      unfold try_catch, mbind, M_bind, bind, mret, M_ret, ret.
      rewrite writeBeepWav_ok.
      unfold playNonBlocking, io.
      eexists _, _. split; [reflexivity |].
      cbn. repeat split. eexists; reflexivity.
Qed.

End VoiceLocal.

Lemma initVoiceAlert_no_key (env : Voice.Env) :
  truthy (Voice.MINIMAX_API_KEY env) = false ->
  Voice.initVoiceAlert env = Voice.LocalVoiceAlert.
Proof.
  intros H. unfold Voice.initVoiceAlert, Voice.createMiniMaxVoiceAlert.
  rewrite H. reflexivity.
Qed.

(** C7.  Without a MiniMax key the voice alert in use is the local one, both
    before and after [initVoiceAlert], and when the audio directory can be
    made and the tone file written, [play] returns [success = true] with
    [voiceUsed = "local"], whatever the platform and whether or not the
    speech program runs. *)
Theorem local_voice_always_succeeds (env : Voice.Env) (w : World)
    (location cameraId : string) (tr : list Effect)
    (Hkey : truthy (Voice.MINIMAX_API_KEY env) = false)
    (Hmkdir : forall dir, mkdir_outcome w dir = None)
    (Hwrite : forall path, writeFile_outcome w path = None) :
  Voice.initVoiceAlert env = Voice.defaultVoice0 /\
  succeedsLocally
    (Voice.play (Voice.initVoiceAlert env) env w location cameraId) tr.
Proof.
  rewrite (initVoiceAlert_no_key env Hkey). split; [reflexivity |].
  apply LocalVoiceAlert_play_ok; assumption.
Qed.

Lemma local_voice_always_succeeds_witness :
  Voice.initVoiceAlert noCredentials = Voice.defaultVoice0 /\
  succeedsLocally
    (Voice.play (Voice.initVoiceAlert noCredentials) noCredentials
       linuxNoEspeak "Aisle 6" "cam-1") [].
Proof.
  apply (local_voice_always_succeeds noCredentials linuxNoEspeak
           "Aisle 6" "cam-1" []).
  - reflexivity.
  - intros dir. reflexivity.
  - intros path. reflexivity.
Defined.

(** ** The pipeline *)

Section PipelineBoundary.

Import Pipeline.

Variables (env : Env) (w : World) (event : ShopliftingEvent).

(** The [catch] block returns the structured failure, after reporting the
    error and attempting one suppressed record; it cannot throw, whether the
    record is written or not. *)
Lemma pipelineHandler_returns (e : Thrown) (s1 : Sys) :
  exists s2 : Sys,
    pipelineHandler w event e s1 = (s2, inr pipelineFailure) /\
    trace s2 =
      trace s1 ++
      [EConsoleError "[ShopliftPipeline] unexpected error:" e;
       ELogSuppressed event (suppressedReasonOf e)] /\
    gate s2 = gate s1 /\
    defaultVoice s2 = defaultVoice s1.
Proof.
  unfold pipelineHandler, consoleError, call, setTrace. run_eff.
  destruct (logSuppressed_outcome w event (suppressedReasonOf e));
    cbn; eexists; (split; [reflexivity |]); cbn;
    rewrite <- app_assoc; repeat split.
Qed.

Lemma runShopliftAlertPipeline_returns (s : Sys) :
  exists (s' : Sys) (r : PipelineResult),
    runShopliftAlertPipeline env w event s = (s', inr r).
Proof.
  unfold runShopliftAlertPipeline, try_catch.
  destruct (pipelineBody env w event s) as [s1 [e | r]].
  - destruct (pipelineHandler_returns e s1) as [s2 [H _]].
    exists s2, pipelineFailure. exact H.
  - exists s1, r. reflexivity.
Qed.

Lemma runShopliftAlertPipeline_caught (s s1 : Sys) (e : Thrown) :
  pipelineBody env w event s = (s1, inl e) ->
  exists s2 : Sys,
    runShopliftAlertPipeline env w event s = (s2, inr pipelineFailure) /\
    trace s2 =
      trace s1 ++
      [EConsoleError "[ShopliftPipeline] unexpected error:" e;
       ELogSuppressed event (suppressedReasonOf e)].
Proof.
  intros Hbody. unfold runShopliftAlertPipeline, try_catch. rewrite Hbody.
  destruct (pipelineHandler_returns e s1) as [s2 [H [Htr _]]].
  exists s2. split; assumption.
Qed.

End PipelineBoundary.

(** C3 (as the sources have it).  [runShopliftAlertPipeline] returns a
    result for every event, world and state: it never raises.  When a step
    inside the [try] block throws, the error is reported, one suppressed
    record is attempted -- its reason is the error's message when the thrown
    value is an [Error], and "pipeline_error" otherwise -- and the call
    returns [triggered = false] with reason "pipeline_error", whether or not
    that record could be written. *)
Theorem pipeline_never_raises (env : Pipeline.Env) (w : World)
    (event : ShopliftingEvent) (s : Pipeline.Sys) :
  (exists (s' : Pipeline.Sys) (r : Pipeline.PipelineResult),
     Pipeline.runShopliftAlertPipeline env w event s = (s', inr r)) /\
  (forall (s1 : Pipeline.Sys) (e : Thrown),
     Pipeline.pipelineBody env w event s = (s1, inl e) ->
     exists s2 : Pipeline.Sys,
       Pipeline.runShopliftAlertPipeline env w event s
       = (s2, inr pipelineFailure) /\
       Pipeline.trace s2 =
         Pipeline.trace s1 ++
         [EConsoleError "[ShopliftPipeline] unexpected error:" e;
          ELogSuppressed event
            (match e with
             | ErrorObj message => message
             | NonError _ => "pipeline_error"
             end)]).
Proof.
  split.
  - apply runShopliftAlertPipeline_returns.
  - intros s1 e Hbody.
    apply (runShopliftAlertPipeline_caught env w event s s1 e Hbody).
Qed.

(** C3, as stated, on a host whose audio directory cannot be created: the
    gate admits the event, the local voice throws the [Error] of [mkdir], the
    boundary catches it and returns the structured failure, and the one
    suppressed record it attempts carries the error's message, not
    "pipeline_error". *)
Lemma pipeline_error_record_carries_message :
  snd readOnlyRun = inr pipelineFailure /\
  suppressedReasons (Pipeline.trace (fst readOnlyRun))
  = ["EACCES: permission denied"] /\
  ~ In "pipeline_error" (suppressedReasons (Pipeline.trace (fst readOnlyRun))).
Proof.
  vm_compute. split; [reflexivity | split; [reflexivity |]].
  intros [H | []]. discriminate H.
Qed.

(** ** Checks on small inputs *)

Example gate_below_confidence :
  fst (Gate.alertGate Gate.defaultEnv 0
         (Gate.gateEvent "cam-1" "t1" (5 # 10) 0) Gate.emptyGate)
  = Gate.Reject Gate.below_confidence.
Proof. reflexivity. Qed.

Example alert_gate_below_threshold :
  fst (AlertGate.alertGate AlertGate.defaultEnv 0
         {| camera_id := "cam-1"; location := "Aisle 6";
            confidence := 5 # 10; timestamp := ""; evidence := None |}
         AlertGate.emptyGate)
  = AlertGate.Rejected AlertGate.below_threshold
      {| camera_id := "cam-1"; location := "Aisle 6";
         confidence := 5 # 10; timestamp := ""; evidence := None |}.
Proof. reflexivity. Qed.

Example unit_square_inside_outside :
  Suspicion.isPointInPolygon
    {| Tracking.x := 1 # 2; Tracking.y := 1 # 2 |} (square 0 0 1 1) = true /\
  Suspicion.isPointInPolygon
    {| Tracking.x := 3 # 2; Tracking.y := 1 # 2 |} (square 0 0 1 1) = false.
Proof. vm_compute. split; reflexivity. Qed.

Example two_vertices_contain_nothing (p a b : Tracking.Point) :
  Suspicion.isPointInPolygon p [a; b] = false.
Proof. reflexivity. Qed.

Example sample_iou_is_half :
  Tracking.iou (Tracking.det_bbox sampleD1) (Tracking.det_bbox sampleD2)
  == 1 # 2.
Proof. vm_compute. reflexivity. Qed.

Example sample_pipeline_triggers :
  snd (Pipeline.runShopliftAlertPipeline samplePipelineEnv linuxNoEspeak
         sampleEvent freshSys)
  = inr {| Pipeline.triggered := true;
           Pipeline.reason := None;
           Pipeline.audioPath :=
             Some "/srv/ispy/alerts/audio/2025-01-29T12-00-00_cam-1_beep.wav";
           Pipeline.fallbackUsed := Some true |}.
Proof. vm_compute. reflexivity. Qed.

(** * Further properties *)

(** ** Configuration *)

Lemma envNumberOr_cases (v : EnvNumber) (ok : Q -> bool) (dflt : Q) :
  (exists n, v = Some n /\ ok n = true /\ envNumberOr v ok dflt = n)
  \/ envNumberOr v ok dflt = dflt.
Proof.
  destruct v as [n |]; [| right; reflexivity].
  unfold envNumberOr. destruct (ok n) eqn:E; [left | right; reflexivity].
  exists n. repeat split. exact E.
Qed.

(** X1.  Whatever the environment holds, the thresholds the two gates and
    the suspicion engine read are in range: confidences within [0, 1], the
    escalation score within [0, 100], the persistence count at least 1, and
    every cooldown, window and dwell time non-negative. *)
Theorem config_always_in_range (genv : Gate.Env) (aenv : AlertGate.Env)
    (senv : Suspicion.Env) :
  (0 <= Gate.getJudgeMinConfidence genv <= 1 /\
   0 <= Gate.getCameraCooldown genv /\
   0 <= Gate.getTrackCooldown genv) /\
  (0 <= AlertGate.getMinConfidence aenv <= 1 /\
   0 <= AlertGate.getCooldownSeconds aenv /\
   1 <= AlertGate.getPersistenceCount aenv /\
   0 <= AlertGate.getPersistenceWindowMs aenv) /\
  (0 <= Suspicion.getEscalateScore senv <= 100 /\
   0 <= Suspicion.getDwellSeconds senv /\
   0 <= Suspicion.getCheckoutMemorySeconds senv).
Proof.
  assert (Hrange : forall v lo hi dflt,
            lo <= dflt <= hi ->
            lo <= envNumberOr v (fun n => Qle_bool lo n && Qle_bool n hi) dflt
            <= hi).
  { intros v lo hi dflt Hd.
    destruct (envNumberOr_cases v
                (fun n => Qle_bool lo n && Qle_bool n hi) dflt)
      as [[n [_ [Hok ->]]] | ->]; [| exact Hd].
    apply andb_prop in Hok as [H1 H2].
    apply Qle_bool_iff in H1, H2. split; assumption. }
  assert (Hlow : forall v lo dflt,
            lo <= dflt -> lo <= envNumberOr v (fun n => Qle_bool lo n) dflt).
  { intros v lo dflt Hd.
    destruct (envNumberOr_cases v (fun n => Qle_bool lo n) dflt)
      as [[n [_ [Hok ->]]] | ->]; [| exact Hd].
    apply Qle_bool_iff in Hok. exact Hok. }
  repeat split;
    first [ apply Hrange; vm_compute; split; discriminate
          | apply Hlow; vm_compute; discriminate ].
Qed.

(** ** gate.ts: what an admission does to the events that follow *)

Section GateFollowUp.

Import Gate.

Variables (env : Env) (clock : Q) (first next : GateInput) (st : GateState).

Lemma alertGate_allow_inv :
  fst (alertGate env clock first st) = Allow ->
  snd (alertGate env clock first st) =
  {| lastTriggerByCamera :=
       <[camera_id first := gateNow clock first]> (lastTriggerByCamera st);
     lastTriggerByTrack :=
       <[track_id first := gateNow clock first]> (lastTriggerByTrack st) |}.
Proof.
  unfold alertGate, gateNow.
  destruct (Qlt_bool _ _); [discriminate |].
  destruct (inCooldown _ _ _); [discriminate |].
  destruct (inCooldown _ _ _); [discriminate |]. reflexivity.
Qed.

Lemma alertGate_reject_inv (r : RejectReason) :
  fst (alertGate env clock first st) = Reject r ->
  snd (alertGate env clock first st) = st.
Proof.
  unfold alertGate.
  destruct (Qlt_bool _ _); [reflexivity |].
  destruct (inCooldown _ _ _); [reflexivity |].
  destruct (inCooldown _ _ _); [reflexivity | discriminate].
Qed.


Lemma gate_other_keys_untouched :
  camera_id next <> camera_id first ->
  track_id next <> track_id first ->
  fst (alertGate env clock next (snd (alertGate env clock first st))) =
  fst (alertGate env clock next st).
Proof.
  intros Hcam Htrk.
  destruct (fst (alertGate env clock first st)) eqn:Hd.
  - rewrite (alertGate_allow_inv Hd). unfold alertGate.
    cbn [lastTriggerByCamera lastTriggerByTrack].
    rewrite !lookup_insert_ne by congruence.
    destruct (Qlt_bool _ _); [reflexivity |].
    destruct (inCooldown _ _ _); [reflexivity |].
    destruct (inCooldown _ _ _); reflexivity.
  - rewrite (alertGate_reject_inv reason Hd). reflexivity.
Qed.

End GateFollowUp.



(** X3.  gate.ts: the cooldowns are per key.  Whatever an earlier event did,
    an event of another camera and another track is decided as if the
    earlier event had not been seen. *)
Theorem gate_other_camera_and_track_independent (env : Gate.Env) (clock : Q)
    (first next : Gate.GateInput) (st : Gate.GateState)
    (Hcamera : Gate.camera_id next <> Gate.camera_id first)
    (Htrack : Gate.track_id next <> Gate.track_id first) :
  fst (Gate.alertGate env clock next
         (snd (Gate.alertGate env clock first st))) =
  fst (Gate.alertGate env clock next st).
Proof.
  apply gate_other_keys_untouched; assumption.
Qed.

Lemma gate_other_camera_and_track_independent_witness :
  fst (Gate.alertGate Gate.defaultEnv 0
         (Gate.gateEvent "cam-2" "t2" (9 # 10) 1000)
         (snd (Gate.alertGate Gate.defaultEnv 0
                 (Gate.gateEvent "cam-1" "t1" (9 # 10) 0) Gate.emptyGate))) =
  fst (Gate.alertGate Gate.defaultEnv 0
         (Gate.gateEvent "cam-2" "t2" (9 # 10) 1000) Gate.emptyGate).
Proof.
  apply (gate_other_camera_and_track_independent Gate.defaultEnv 0
           (Gate.gateEvent "cam-1" "t1" (9 # 10) 0)
           (Gate.gateEvent "cam-2" "t2" (9 # 10) 1000) Gate.emptyGate).
  - cbn. discriminate.
  - cbn. discriminate.
Defined.

(** ** alert-gate.ts: cooldown, persistence and the bounded buffers *)

Section AlertGateState.

Import AlertGate.

Variables (env : Env) (nowMs : Q) (event : ShopliftingEvent) (st : GateState).



(** A rejection for confidence or cooldown writes nothing at all. *)
Lemma alertGate_early_reject (r : RejectReason) (ev : ShopliftingEvent) :
  fst (alertGate env nowMs event st) = Rejected r ev ->
  r <> persistence_not_met ->
  snd (alertGate env nowMs event st) = st.
Proof.
  unfold alertGate.
  destruct (Qlt_bool _ _); [reflexivity |].
  destruct (match lastTriggerByCamera st !! camera_id event with
            | Some t => _ | None => false end); [reflexivity |].
  destruct (Qlt_bool 1 _ && Qlt_bool 0 _); [| discriminate].
  destruct (Qlt_bool (inject_Z _) _); [| discriminate].
  cbn. intros H Hr. injection H as <- _. contradiction.
Qed.

Lemma alertGate_buffers_bounded :
  buffersBounded st -> buffersBounded (snd (alertGate env nowMs event st)).
Proof.
  intros Hst. unfold alertGate.
  destruct (Qlt_bool _ _); [exact Hst |].
  destruct (match lastTriggerByCamera st !! camera_id event with
            | Some t => _ | None => false end); [exact Hst |].
  destruct (Qlt_bool 1 _ && Qlt_bool 0 _); [| exact Hst].
  assert (Hnew : buffersBounded
            {| lastTriggerByCamera := lastTriggerByCamera st;
               recentEventsByCamera :=
                 <[camera_id event :=
                     slice_last 10
                       (List.filter
                          (fun t => Qle_bool
                                      (nowMs - getPersistenceWindowMs env) t)
                          (default [] (recentEventsByCamera st
                                         !! camera_id event))
                        ++ [nowMs])]> (recentEventsByCamera st) |}).
  { intros cam l. cbn [recentEventsByCamera].
    destruct (decide (camera_id event = cam)) as [<- | Hne].
    - rewrite lookup_insert_eq. intros [= <-]. apply slice_last_length.
    - rewrite lookup_insert_ne by exact Hne. apply Hst. }
  destruct (Qlt_bool (inject_Z _) _); exact Hnew.
Qed.

End AlertGateState.

Section AlertGateFollowUp.

Import AlertGate.


Lemma alert_gate_default_two_sightings (t0 t1 : Q)
    (first next : ShopliftingEvent) :
  camera_id next = camera_id first ->
  75 # 100 <= confidence first ->
  75 # 100 <= confidence next ->
  fst (alertGate defaultEnv t0 first emptyGate)
  = Rejected persistence_not_met first /\
  fst (alertGate defaultEnv t1 next
         (snd (alertGate defaultEnv t0 first emptyGate)))
  = if Qle_bool (t1 - 1000) t0 then Allowed next
    else Rejected persistence_not_met next.
Proof.
  intros Hcam H1 H2.
  assert (Hfirst : alertGate defaultEnv t0 first emptyGate =
            (Rejected persistence_not_met first,
             {| lastTriggerByCamera := ∅;
                recentEventsByCamera := {[camera_id first := [t0]]} |})).
  { unfold alertGate.
    change (getMinConfidence defaultEnv) with (75 # 100).
    rewrite Qlt_bool_false by exact H1. reflexivity. }
  rewrite Hfirst. split; [reflexivity |]. cbn [snd].
  unfold alertGate.
  change (getMinConfidence defaultEnv) with (75 # 100).
  rewrite Qlt_bool_false by exact H2.
  cbn [lastTriggerByCamera recentEventsByCamera].
  rewrite lookup_empty, Hcam, lookup_singleton_eq.
  change (getPersistenceCount defaultEnv) with 2.
  change (getPersistenceWindowMs defaultEnv) with 1000.
  change (Qlt_bool 1 2 && Qlt_bool 0 1000) with true. cbv iota.
  unfold default, id. cbn [List.filter].
  destruct (Qle_bool (t1 - 1000) t0); reflexivity.
Qed.

End AlertGateFollowUp.

(** X4.  alert-gate.ts: the persistence buffers stay bounded.  When every
    camera's buffer holds at most 10 times, so does every buffer after
    [alertGate], whatever the event, the configuration and the decision. *)
Theorem alert_gate_buffers_stay_bounded (env : AlertGate.Env) (nowMs : Q)
    (event : ShopliftingEvent) (st : AlertGate.GateState)
    (Hbounded : buffersBounded st) :
  buffersBounded (snd (AlertGate.alertGate env nowMs event st)).
Proof.
  apply alertGate_buffers_bounded, Hbounded.
Qed.

Lemma alert_gate_buffers_stay_bounded_witness :
  buffersBounded
    (snd (AlertGate.alertGate AlertGate.defaultEnv 0 sampleEvent
            AlertGate.emptyGate)).
Proof.
  apply (alert_gate_buffers_stay_bounded AlertGate.defaultEnv 0 sampleEvent
           AlertGate.emptyGate).
  intros cam l H. cbn in H. rewrite lookup_empty in H. discriminate H.
Defined.



(** X7.  alert-gate.ts under its default configuration (two sightings within
    1000 ms): from the reset state the first event of a camera is rejected
    with [persistence_not_met]; the second one is admitted when it comes at
    most 1000 ms after the first, and is rejected with [persistence_not_met]
    again when it comes later. *)
Theorem alert_gate_default_needs_two_sightings (t0 t1 : Q)
    (first next : ShopliftingEvent)
    (Hcamera : camera_id next = camera_id first)
    (Hconf1 : 75 # 100 <= confidence first)
    (Hconf2 : 75 # 100 <= confidence next) :
  fst (AlertGate.alertGate AlertGate.defaultEnv t0 first AlertGate.emptyGate)
  = AlertGate.Rejected AlertGate.persistence_not_met first /\
  fst (AlertGate.alertGate AlertGate.defaultEnv t1 next
         (snd (AlertGate.alertGate AlertGate.defaultEnv t0 first
                 AlertGate.emptyGate)))
  = if Qle_bool (t1 - 1000) t0 then AlertGate.Allowed next
    else AlertGate.Rejected AlertGate.persistence_not_met next.
Proof.
  apply alert_gate_default_two_sightings; assumption.
Qed.

Lemma alert_gate_default_needs_two_sightings_witness :
  fst (AlertGate.alertGate AlertGate.defaultEnv 0 sampleEvent
         AlertGate.emptyGate)
  = AlertGate.Rejected AlertGate.persistence_not_met sampleEvent /\
  fst (AlertGate.alertGate AlertGate.defaultEnv 400 sampleEvent
         (snd (AlertGate.alertGate AlertGate.defaultEnv 0 sampleEvent
                 AlertGate.emptyGate)))
  = if Qle_bool (400 - 1000) 0 then AlertGate.Allowed sampleEvent
    else AlertGate.Rejected AlertGate.persistence_not_met sampleEvent.
Proof.
  apply (alert_gate_default_needs_two_sightings 0 400 sampleEvent sampleEvent).
  - reflexivity.
  - vm_compute. discriminate.
  - vm_compute. discriminate.
Defined.

(** ** tracking.ts: the IOU *)

Section IouFacts.

Import Tracking.

(** The clipped overlap along one axis: zero, or positive and no longer than
    either interval. *)
Lemma overlap_1d (lo1 hi1 lo2 hi2 : Q) :
  let o := Qmax 0 (Qmin hi1 hi2 - Qmax lo1 lo2) in
  o == 0 \/ (0 < o /\ o <= hi1 - lo1 /\ o <= hi2 - lo2).
Proof.
  cbv zeta.
  pose proof (Q.le_min_l hi1 hi2). pose proof (Q.le_min_r hi1 hi2).
  pose proof (Q.le_max_l lo1 lo2). pose proof (Q.le_max_r lo1 lo2).
  destruct (Q.max_spec 0 (Qmin hi1 hi2 - Qmax lo1 lo2)) as [[Hlt He] | [Hle He]].
  - right. rewrite He. repeat split; lra.
  - left. exact He.
Qed.

Lemma overlap_1d_comm (lo1 hi1 lo2 hi2 : Q) :
  Qmax 0 (Qmin hi1 hi2 - Qmax lo1 lo2)
  == Qmax 0 (Qmin hi2 hi1 - Qmax lo2 lo1).
Proof.
  rewrite (Q.min_comm hi1 hi2), (Q.max_comm lo1 lo2). reflexivity.
Qed.

Lemma iou_in_unit_interval (a b : Bbox) : 0 <= iou a b <= 1.
Proof.
  unfold iou.
  pose proof (overlap_1d (x1 a) (x2 a) (x1 b) (x2 b)) as HW.
  pose proof (overlap_1d (y1 a) (y2 a) (y1 b) (y2 b)) as HH.
  cbv zeta in HW, HH.
  set (W := Qmax 0 (Qmin (x2 a) (x2 b) - _)) in *.
  set (H := Qmax 0 (Qmin (y2 a) (y2 b) - _)) in *.
  set (wa := x2 a - x1 a) in *. set (ha := y2 a - y1 a) in *.
  set (wb := x2 b - x1 b) in *. set (hb := y2 b - y1 b) in *.
  destruct (Qle_bool _ _) eqn:E; [lra |].
  assert (Hu : 0 < wa * ha + wb * hb - W * H).
  { apply Qnot_le_lt. intros Hle. apply Qle_bool_iff in Hle. congruence. }
  assert (Hinter : 0 <= W * H /\ W * H <= wa * ha /\ W * H <= wb * hb
                   \/ W * H == 0).
  { destruct HW as [HW | [HW0 [HWa HWb]]]; [right; rewrite HW; ring |].
    destruct HH as [HH | [HH0 [HHa HHb]]]; [right; rewrite HH; ring |].
    left. repeat split; nra. }
  split.
  - apply Qle_shift_div_l; [exact Hu |].
    destruct Hinter as [[H0 _] | H0]; lra.
  - apply Qle_shift_div_r; [exact Hu |].
    destruct Hinter as [[H0 [H1 H2]] | H0]; lra.
Qed.

Lemma iou_symmetric (a b : Bbox) : iou a b == iou b a.
Proof.
  unfold iou.
  pose proof (overlap_1d_comm (x1 a) (x2 a) (x1 b) (x2 b)) as HW.
  pose proof (overlap_1d_comm (y1 a) (y2 a) (y1 b) (y2 b)) as HH.
  set (W := Qmax 0 (Qmin (x2 a) (x2 b) - _)) in *.
  set (H := Qmax 0 (Qmin (y2 a) (y2 b) - _)) in *.
  set (W' := Qmax 0 (Qmin (x2 b) (x2 a) - _)) in *.
  set (H' := Qmax 0 (Qmin (y2 b) (y2 a) - _)) in *.
  set (A := (x2 a - x1 a) * (y2 a - y1 a)).
  set (B := (x2 b - x1 b) * (y2 b - y1 b)).
  assert (Hi : W * H == W' * H') by (rewrite HW, HH; reflexivity).
  assert (Hu : A + B - W * H == B + A - W' * H') by (rewrite Hi; ring).
  destruct (Qle_bool (A + B - W * H) 0) eqn:E1;
    destruct (Qle_bool (B + A - W' * H') 0) eqn:E2.
  - reflexivity.
  - apply Qle_bool_iff in E1.
    assert (E : Qle_bool (B + A - W' * H') 0 = true)
      by (apply Qle_bool_iff; nra).
    congruence.
  - apply Qle_bool_iff in E2.
    assert (E : Qle_bool (A + B - W * H) 0 = true)
      by (apply Qle_bool_iff; nra).
    congruence.
  - rewrite Hi.
    assert (Hc : A + B - W' * H' == B + A - W' * H') by ring.
    rewrite Hc. reflexivity.
Qed.

End IouFacts.

(** X8.  tracking.ts: [iou] is a ratio in [0, 1] for every pair of boxes,
    well-formed or not, and does not depend on the order of its arguments. *)
Theorem iou_bounded_and_symmetric (a b : Tracking.Bbox) :
  0 <= Tracking.iou a b <= 1 /\ Tracking.iou a b == Tracking.iou b a.
Proof.
  split; [apply iou_in_unit_interval | apply iou_symmetric].
Qed.

(** ** tracking.ts: what one frame does to the store *)

Section TrackerFrame.

Import Tracking.

Lemma map_get_map_set_ne (k k' : string) (v : TrackedPerson)
    (m : list (string * TrackedPerson)) :
  k <> k' -> map_get k (map_set k' v m) = map_get k m.
Proof.
  intros Hne. induction m as [| [k0 v0] m IH]; cbn.
  - destruct (String.eqb_spec k' k); [congruence | reflexivity].
  - destruct (String.eqb_spec k0 k') as [-> | Hk0]; cbn.
    + destruct (String.eqb_spec k' k); [congruence | reflexivity].
    + destruct (String.eqb k0 k); [reflexivity | exact IH].
Qed.

Lemma map_set_present (k : string) (v : TrackedPerson)
    (m : list (string * TrackedPerson)) :
  k ∈ map fst m -> map fst (map_set k v m) = map fst m.
Proof.
  induction m as [| [k0 v0] m IH]; cbn; intros Hin.
  - inversion Hin.
  - destruct (String.eqb_spec k0 k) as [-> | Hne]; [reflexivity |].
    cbn. f_equal. apply IH.
    apply elem_of_cons in Hin as [Heq | Hin]; [congruence | exact Hin].
Qed.

Lemma map_set_absent (k : string) (v : TrackedPerson)
    (m : list (string * TrackedPerson)) :
  k ∉ map fst m -> map_set k v m = m ++ [(k, v)].
Proof.
  induction m as [| [k0 v0] m IH]; cbn; intros Hout; [reflexivity |].
  destruct (String.eqb_spec k0 k) as [-> | Hne].
  - exfalso. apply Hout. left.
  - f_equal. apply IH. intros Hin. apply Hout. right. exact Hin.
Qed.

Lemma map_set_Forall (P : string * TrackedPerson -> Prop) (k : string)
    (v : TrackedPerson) (m : list (string * TrackedPerson)) :
  P (k, v) -> Forall P m -> Forall P (map_set k v m).
Proof.
  intros Hv. induction m as [| [k0 v0] m IH]; cbn; intros Hm.
  - constructor; [exact Hv | constructor].
  - apply Forall_cons in Hm as [H0 Hm].
    destruct (String.eqb k0 k); constructor; auto.
Qed.

(** The body of the loop returns one track, which carries the detection and
    the frame time, and writes it into the store under its own id. *)
Lemma detStep_shape (nowMs : Q) (ls : LoopState) (det : PersonDetection) :
  exists u : TrackedPerson,
    result (detStep nowMs ls det) = result ls ++ [u] /\
    activeTracks (tracker (detStep nowMs ls det))
    = map_set (track_id u) u (activeTracks (tracker ls)) /\
    bbox u = det_bbox det /\
    confidence u = det_confidence det /\
    last_seen u = nowMs.
Proof.
  unfold detStep.
  destruct (snd (findBest _ _ _)) as [t |]; cbn; eexists;
    (split; [reflexivity |]); cbn; repeat split.
Qed.

Lemma fold_detStep_results (nowMs : Q) (dets : list PersonDetection) :
  forall ls,
  exists rs : list TrackedPerson,
    result (fold_left (detStep nowMs) dets ls) = result ls ++ rs /\
    map bbox rs = map det_bbox dets /\
    map confidence rs = map det_confidence dets /\
    Forall (fun u => last_seen u = nowMs) rs.
Proof.
  induction dets as [| d dets IH]; intros ls; cbn [fold_left].
  - exists []. rewrite app_nil_r. repeat split. constructor.
  - destruct (detStep_shape nowMs ls d) as [u [Hres [_ [Hb [Hc Hl]]]]].
    destruct (IH (detStep nowMs ls d)) as [rs [Hrs [Hbs [Hcs Hls]]]].
    exists (u :: rs). rewrite Hrs, Hres, <- app_assoc. cbn.
    repeat split; [congruence | congruence |].
    constructor; assumption.
Qed.

(** A key of the store survives the frame; its track is the same afterwards
    unless the frame returned a track with that id. *)
Lemma fold_detStep_keeps (nowMs : Q) (dets : list PersonDetection)
    (k : string) :
  forall ls rs,
    result (fold_left (detStep nowMs) dets ls) = result ls ++ rs ->
    (is_Some (map_get k (activeTracks (tracker ls))) ->
     is_Some (map_get k
                (activeTracks (tracker (fold_left (detStep nowMs) dets ls)))))
    /\
    (k ∉ map track_id rs ->
     map_get k (activeTracks (tracker (fold_left (detStep nowMs) dets ls)))
     = map_get k (activeTracks (tracker ls))).
Proof.
  induction dets as [| d dets IH]; intros ls rs Hrs; cbn [fold_left] in *.
  - split; [tauto | reflexivity].
  - destruct (detStep_shape nowMs ls d) as [u [Hres [Hstore _]]].
    destruct (fold_detStep_results nowMs dets (detStep nowMs ls d))
      as [rs' [Hrs' _]].
    assert (Heq : rs = u :: rs').
    { rewrite Hrs', Hres, <- app_assoc in Hrs.
      apply app_inv_head in Hrs. symmetry. exact Hrs. }
    subst rs. destruct (IH (detStep nowMs ls d) rs' Hrs') as [IH1 IH2].
    split.
    + intros Hsome. apply IH1. rewrite Hstore.
      destruct (String.eqb_spec k (track_id u)) as [-> | Hne].
      * rewrite map_get_map_set. eexists; reflexivity.
      * rewrite map_get_map_set_ne by exact Hne. exact Hsome.
    + intros Hout. cbn in Hout.
      rewrite IH2 by (intros Hin; apply Hout; right; exact Hin).
      rewrite Hstore. apply map_get_map_set_ne.
      intros ->. apply Hout. left.
Qed.

End TrackerFrame.

(** X9.  tracking.ts: [updateTracks] returns one track per detection, in the
    order of the detections; each carries its detection's box and confidence
    and the frame time as [last_seen]. *)
Theorem updateTracks_one_track_per_detection
    (dets : list Tracking.PersonDetection) (nowMs : Q)
    (st : Tracking.TrackerState) :
  map Tracking.bbox (fst (Tracking.updateTracks dets nowMs st))
  = map Tracking.det_bbox dets /\
  map Tracking.confidence (fst (Tracking.updateTracks dets nowMs st))
  = map Tracking.det_confidence dets /\
  Forall (fun u => Tracking.last_seen u = nowMs)
    (fst (Tracking.updateTracks dets nowMs st)) /\
  length (fst (Tracking.updateTracks dets nowMs st)) = length dets.
Proof.
  unfold Tracking.updateTracks. cbn [fst].
  destruct (fold_detStep_results nowMs dets
              {| Tracking.tracker := st; Tracking.matched := ∅;
                 Tracking.result := [] |}) as [rs [Hrs [Hb [Hc Hl]]]].
  cbn in Hrs. rewrite Hrs. repeat split; try assumption.
  rewrite <- (length_map Tracking.bbox rs), Hb. apply length_map.
Qed.

(** X10.  tracking.ts: the tracker never drops a track.  A key of the store
    is still a key after [updateTracks], and its track is left exactly as it
    was unless the frame returned a track with that id. *)
Theorem updateTracks_never_evicts
    (dets : list Tracking.PersonDetection) (nowMs : Q)
    (st : Tracking.TrackerState) (k : string) (t : Tracking.TrackedPerson)
    (Hstored : map_get k (Tracking.activeTracks st) = Some t) :
  is_Some
    (map_get k
       (Tracking.activeTracks (snd (Tracking.updateTracks dets nowMs st))))
  /\
  (k ∉ map Tracking.track_id (fst (Tracking.updateTracks dets nowMs st)) ->
   map_get k
     (Tracking.activeTracks (snd (Tracking.updateTracks dets nowMs st)))
   = Some t).
Proof.
  unfold Tracking.updateTracks. cbn [fst snd].
  destruct (fold_detStep_keeps nowMs dets k
              {| Tracking.tracker := st; Tracking.matched := ∅;
                 Tracking.result := [] |}
              (Tracking.result
                 (fold_left (Tracking.detStep nowMs) dets
                    {| Tracking.tracker := st; Tracking.matched := ∅;
                       Tracking.result := [] |}))
              eq_refl) as [H1 H2].
  cbn [Tracking.tracker] in H1, H2. split.
  - apply H1. rewrite Hstored. eexists; reflexivity.
  - intros Hout. rewrite H2 by exact Hout. exact Hstored.
Qed.

Lemma updateTracks_never_evicts_witness :
  is_Some
    (map_get "t1"
       (Tracking.activeTracks
          (snd (Tracking.updateTracks [sampleD2] 40
                  (Tracking.tracker sampleLoop)))))
  /\
  ("t1" ∉ map Tracking.track_id
            (fst (Tracking.updateTracks [sampleD2] 40
                    (Tracking.tracker sampleLoop))) ->
   map_get "t1"
     (Tracking.activeTracks
        (snd (Tracking.updateTracks [sampleD2] 40
                (Tracking.tracker sampleLoop))))
   = Some sampleT1).
Proof.
  apply (updateTracks_never_evicts [sampleD2] 40
           (Tracking.tracker sampleLoop) "t1" sampleT1).
  reflexivity.
Defined.

(** ** tracking.ts: the ids *)

Section TrackerIds.

Import Tracking.

Lemma trackName_inj (a b : N) : trackName a = trackName b -> a = b.
Proof.
  unfold trackName. cbn. intros H. injection H as H.
  apply (inj pretty). exact H.
Qed.

Lemma trackName_fresh (m : nat) :
  trackName (N.of_nat (S m))
  ∉ map (fun i => trackName (N.of_nat i)) (seq 1 m).
Proof.
  intros Hin. apply list_elem_of_In, in_map_iff in Hin as [i [Heq Hi]].
  apply trackName_inj in Heq. apply in_seq in Hi. lia.
Qed.

Lemma wellNumbered_fresh (st : TrackerState) :
  wellNumbered st -> trackName (nextTrackId st) ∉ storeIds st.
Proof.
  intros [m [Hnext [Hids _]]]. rewrite Hnext, Hids. apply trackName_fresh.
Qed.

Lemma wellNumbered_NoDup (st : TrackerState) :
  wellNumbered st -> NoDup (storeIds st).
Proof.
  intros [m [_ [Hids _]]]. rewrite Hids.
  apply NoDup_fmap_2; [| apply NoDup_ListNoDup, seq_NoDup].
  intros i j H. apply trackName_inj in H. lia.
Qed.

Lemma stored_track_key (m : list (string * TrackedPerson))
    (t : TrackedPerson) :
  Forall (fun kv => track_id (snd kv) = fst kv) m ->
  t ∈ values m -> track_id t ∈ map fst m.
Proof.
  intros Hall Hin. unfold values in Hin.
  apply list_elem_of_In, in_map_iff in Hin as [[k v] [Heq Hin]].
  cbn in Heq. subst v.
  rewrite Forall_forall in Hall.
  specialize (Hall (k, t) (proj2 (list_elem_of_In _ _) Hin)). cbn in Hall.
  rewrite Hall. apply list_elem_of_In, in_map_iff.
  exists (k, t). split; [reflexivity | exact Hin].
Qed.

Lemma detStep_wellNumbered (nowMs : Q) (ls : LoopState)
    (det : PersonDetection) :
  wellNumbered (tracker ls) -> wellNumbered (tracker (detStep nowMs ls det)).
Proof.
  intros Hwn. pose proof (wellNumbered_fresh _ Hwn) as Hfresh.
  destruct Hwn as [m [Hnext [Hids Hkeys]]].
  unfold detStep.
  destruct (snd (findBest _ _ _)) as [t |] eqn:Hbest; cbn [tracker].
  - (* matched: the keys are as before *)
    apply findBest_sound in Hbest as [Hin _].
    pose proof (stored_track_key _ t Hkeys Hin) as Hkey.
    exists m. unfold storeIds. cbn [nextTrackId activeTracks].
    split; [exact Hnext | split].
    + rewrite map_set_present by exact Hkey. exact Hids.
    + apply map_set_Forall; [reflexivity | exact Hkeys].
  - (* unmatched: the minted id is new and goes to the end *)
    exists (S m). unfold storeIds in *. cbn [nextTrackId activeTracks].
    fold (trackName (nextTrackId (tracker ls))) in *.
    split; [rewrite Hnext; lia | split].
    + rewrite map_set_absent by exact Hfresh.
      rewrite map_app, Hids, seq_S, map_app, Hnext. reflexivity.
    + apply map_set_Forall; [reflexivity | exact Hkeys].
Qed.

Lemma updateTracks_wellNumbered (dets : list PersonDetection) (nowMs : Q)
    (st : TrackerState) :
  wellNumbered st -> wellNumbered (snd (updateTracks dets nowMs st)).
Proof.
  intros H. unfold updateTracks. cbn [snd].
  set (ls0 := {| tracker := st; matched := ∅; result := [] |}).
  assert (H0 : wellNumbered (tracker ls0)) by exact H.
  clearbody ls0. revert ls0 H0.
  induction dets as [| d dets IH]; intros ls0 H0; [exact H0 |].
  cbn [fold_left]. apply IH, detStep_wellNumbered, H0.
Qed.

Lemma reachable_wellNumbered (st : TrackerState) :
  reachable st -> wellNumbered st.
Proof.
  induction 1 as [st | dets nowMs st _ IH].
  - exists 0%nat. repeat split. constructor.
  - apply updateTracks_wellNumbered, IH.
Qed.

(** Two detections of the first frame that overlap above the threshold. *)
Lemma first_frame_two_detections (d1 d2 : PersonDetection) (nowMs : Q) :
  IOU_THRESHOLD < iou (det_bbox d1) (det_bbox d2) ->
  updateTracks [d1; d2] nowMs {| activeTracks := []; nextTrackId := 1 |} =
  ([newTrack "t1" d1 nowMs;
    updatedTrack (newTrack "t1" d1 nowMs) d2 nowMs],
   {| activeTracks :=
        [("t1", updatedTrack (newTrack "t1" d1 nowMs) d2 nowMs)];
      nextTrackId := 2 |}).
Proof.
  intros Hiou. unfold updateTracks. cbn [fold_left].
  rewrite (detStep_unmatched nowMs _ d1) by reflexivity.
  cbn [tracker activeTracks nextTrackId result matched map_set app].
  rewrite track_name_1.
  set (T1 := newTrack "t1" d1 nowMs).
  assert (Hbest :
    findBest ∅ d2 [T1] = (iou (bbox T1) (det_bbox d2), Some T1)).
  { apply (findBest_picks ∅ d2 [] [] T1).
    - unfold unmatched. apply not_elem_of_empty.
    - exact Hiou.
    - constructor.
    - constructor. }
  rewrite (detStep_matched nowMs _ d2 T1)
    by (cbn [tracker activeTracks matched values map snd];
        rewrite Hbest; reflexivity).
  reflexivity.
Qed.

End TrackerIds.

(** X11.  tracking.ts: ids are minted in sequence and never reused.  In
    every state reached from [resetTracks] the store holds exactly the ids
    "t1", "t2", ... up to the counter, in that order, each track under its
    own id; so the keys are pairwise distinct and the id the counter would
    mint next is not in the store. *)
Theorem track_ids_sequential_and_unique (st : Tracking.TrackerState)
    (Hreach : reachable st) :
  wellNumbered st /\
  NoDup (storeIds st) /\
  trackName (Tracking.nextTrackId st) ∉ storeIds st.
Proof.
  pose proof (reachable_wellNumbered st Hreach) as H.
  split; [exact H | split].
  - apply wellNumbered_NoDup, H.
  - apply wellNumbered_fresh, H.
Qed.

Lemma track_ids_sequential_and_unique_witness :
  wellNumbered
    (snd (Tracking.updateTracks [sampleD1] 0
            (Tracking.resetTracks (Tracking.tracker sampleLoop)))) /\
  NoDup
    (storeIds
       (snd (Tracking.updateTracks [sampleD1] 0
               (Tracking.resetTracks (Tracking.tracker sampleLoop))))) /\
  trackName
    (Tracking.nextTrackId
       (snd (Tracking.updateTracks [sampleD1] 0
               (Tracking.resetTracks (Tracking.tracker sampleLoop)))))
  ∉ storeIds
      (snd (Tracking.updateTracks [sampleD1] 0
              (Tracking.resetTracks (Tracking.tracker sampleLoop)))).
Proof.
  apply (track_ids_sequential_and_unique
           (snd (Tracking.updateTracks [sampleD1] 0
                   (Tracking.resetTracks (Tracking.tracker sampleLoop))))).
  apply reach_update, reach_reset.
Defined.

(** X12.  tracking.ts: a track minted in a frame is open to the later
    detections of the same frame.  When the first frame after [resetTracks]
    holds two detections whose boxes overlap with IOU above 0.3, both
    returned tracks carry the id "t1", the store holds that one track, and
    one id is minted. *)
Theorem overlapping_detections_share_minted_track
    (d1 d2 : Tracking.PersonDetection) (nowMs : Q)
    (Hoverlap : Tracking.IOU_THRESHOLD
                < Tracking.iou (Tracking.det_bbox d1) (Tracking.det_bbox d2)) :
  map Tracking.track_id
    (fst (Tracking.updateTracks [d1; d2] nowMs
            {| Tracking.activeTracks := []; Tracking.nextTrackId := 1 |}))
  = ["t1"; "t1"] /\
  storeIds
    (snd (Tracking.updateTracks [d1; d2] nowMs
            {| Tracking.activeTracks := []; Tracking.nextTrackId := 1 |}))
  = ["t1"] /\
  Tracking.nextTrackId
    (snd (Tracking.updateTracks [d1; d2] nowMs
            {| Tracking.activeTracks := []; Tracking.nextTrackId := 1 |}))
  = 2%N.
Proof.
  rewrite (first_frame_two_detections d1 d2 nowMs Hoverlap).
  repeat split.
Qed.

Lemma overlapping_detections_share_minted_track_witness :
  map Tracking.track_id
    (fst (Tracking.updateTracks [sampleD1; sampleD2] 0
            {| Tracking.activeTracks := []; Tracking.nextTrackId := 1 |}))
  = ["t1"; "t1"] /\
  storeIds
    (snd (Tracking.updateTracks [sampleD1; sampleD2] 0
            {| Tracking.activeTracks := []; Tracking.nextTrackId := 1 |}))
  = ["t1"] /\
  Tracking.nextTrackId
    (snd (Tracking.updateTracks [sampleD1; sampleD2] 0
            {| Tracking.activeTracks := []; Tracking.nextTrackId := 1 |}))
  = 2%N.
Proof.
  apply (overlapping_detections_share_minted_track sampleD1 sampleD2 0).
  vm_compute. reflexivity.
Defined.

(** X13.  tracking.ts: for a box of positive width and height lying inside a
    frame of positive size, [bboxCenter] lies strictly inside the box, the
    normalised centre lies strictly inside the unit square (and a width
    given without a height normalises nothing), and [bboxTorsoRatio] is
    positive. *)
Theorem bbox_helpers_on_proper_boxes (box : Tracking.Bbox)
    (frameWidth frameHeight : Q)
    (Hbox : properBox box)
    (Hframe : 0 <= Tracking.x1 box /\ Tracking.x2 box <= frameWidth /\
              0 <= Tracking.y1 box /\ Tracking.y2 box <= frameHeight) :
  (Tracking.x1 box < Tracking.x (Tracking.bboxCenter box None None)
     < Tracking.x2 box /\
   Tracking.y1 box < Tracking.y (Tracking.bboxCenter box None None)
     < Tracking.y2 box) /\
  (0 < Tracking.x (Tracking.bboxCenter box (Some frameWidth)
                     (Some frameHeight)) < 1 /\
   0 < Tracking.y (Tracking.bboxCenter box (Some frameWidth)
                     (Some frameHeight)) < 1) /\
  Tracking.bboxCenter box (Some frameWidth) None
  = Tracking.bboxCenter box None None /\
  0 < Tracking.bboxTorsoRatio box.
Proof.
  destruct Hbox as [Hx Hy]. destruct Hframe as [Hx1 [Hx2 [Hy1 Hy2]]].
  unfold Tracking.bboxCenter, Tracking.bboxTorsoRatio.
  cbn [Tracking.x Tracking.y].
  assert (Hw : 0 < frameWidth) by lra.
  assert (Hh : 0 < frameHeight) by lra.
  rewrite Qle_bool_false by lra.
  repeat split;
    repeat first [ apply Qlt_shift_div_l; [lra |]
                 | apply Qlt_shift_div_r; [lra |] ];
    try lra.
Qed.

Lemma bbox_helpers_on_proper_boxes_witness :
  (Tracking.x1 sampleBoxA < Tracking.x (Tracking.bboxCenter sampleBoxA None None)
     < Tracking.x2 sampleBoxA /\
   Tracking.y1 sampleBoxA < Tracking.y (Tracking.bboxCenter sampleBoxA None None)
     < Tracking.y2 sampleBoxA) /\
  (0 < Tracking.x (Tracking.bboxCenter sampleBoxA (Some 640) (Some 480)) < 1 /\
   0 < Tracking.y (Tracking.bboxCenter sampleBoxA (Some 640) (Some 480)) < 1) /\
  Tracking.bboxCenter sampleBoxA (Some 640) None
  = Tracking.bboxCenter sampleBoxA None None /\
  0 < Tracking.bboxTorsoRatio sampleBoxA.
Proof.
  apply (bbox_helpers_on_proper_boxes sampleBoxA 640 480).
  - unfold properBox; cbn; lra.
  - cbn; lra.
Defined.

(** ** suspicion.ts: zones *)

Section ZoneGeometry.

Import Tracking Suspicion.

Lemma Qlt_bool_compat (a b b' : Q) : b == b' -> Qlt_bool a b = Qlt_bool a b'.
Proof.
  intros Hb. destruct (Qlt_bool a b') eqn:E.
  - apply Qlt_bool_iff in E. apply Qlt_bool_true. rewrite Hb. exact E.
  - apply Qlt_bool_false_iff in E. apply Qlt_bool_false. rewrite Hb. exact E.
Qed.

(** On a vertical edge the crossing abscissa is the edge's own. *)
Lemma vertical_edge_abscissa (x0 d e : Q) : (x0 - x0) * d / e + x0 == x0.
Proof. unfold Qdiv. ring. Qed.

(** Ray casting on an axis-parallel rectangle, spelled out: only the two
    vertical edges can be crossed. *)
Lemma isPointInPolygon_square (px py xa ya xb yb : Q) :
  isPointInPolygon {| x := px; y := py |} (square xa ya xb yb) =
  xorb (xorb (Qlt_bool py ya) (Qlt_bool py yb) && Qlt_bool px xa)
       (xorb (Qlt_bool py yb) (Qlt_bool py ya) && Qlt_bool px xb).
Proof.
  unfold isPointInPolygon, square. cbn [length Nat.ltb Nat.leb seq fold_left].
  unfold edgeCrossed, vertex. cbn [nth x y fst Nat.sub].
  rewrite (Qlt_bool_compat px _ xa (vertical_edge_abscissa xa _ _)).
  rewrite (Qlt_bool_compat px _ xb (vertical_edge_abscissa xb _ _)).
  destruct (Qlt_bool py ya), (Qlt_bool py yb), (Qlt_bool px xa),
    (Qlt_bool px xb); reflexivity.
Qed.

Lemma whichZone_spec (p : Point) (zs : list ZoneConfig) :
  match whichZone p zs with
  | Some z =>
      exists pre post,
        zs = pre ++ z :: post /\
        isEnabled z = true /\
        isPointInPolygon p (polygon z) = true /\
        Forall (fun u => isEnabled u = false
                         \/ isPointInPolygon p (polygon u) = false) pre
  | None =>
      Forall (fun u => isEnabled u = false
                       \/ isPointInPolygon p (polygon u) = false) zs
  end.
Proof.
  induction zs as [| z zs IH]; cbn [whichZone]; [constructor |].
  destruct (isEnabled z) eqn:Hen; cbn [negb].
  - destruct (isPointInPolygon p (polygon z)) eqn:Hin.
    + exists [], zs. repeat split; [assumption .. | constructor].
    + destruct (whichZone p zs) as [z' |].
      * destruct IH as [pre [post [Hzs [H1 [H2 H3]]]]].
        exists (z :: pre), post. rewrite Hzs. repeat split; try assumption.
        constructor; [right; exact Hin | exact H3].
      * constructor; [right; exact Hin | exact IH].
  - destruct (whichZone p zs) as [z' |].
    + destruct IH as [pre [post [Hzs [H1 [H2 H3]]]]].
      exists (z :: pre), post. rewrite Hzs. repeat split; try assumption.
      constructor; [left; exact Hen | exact H3].
    + constructor; [left; exact Hen | exact IH].
Qed.

Lemma isPointInPolygon_needs_three (p : Point) (poly : list Point) :
  isPointInPolygon p poly = true -> (3 <= length poly)%nat.
Proof.
  unfold isPointInPolygon.
  destruct (Nat.ltb_spec (length poly) 3); [discriminate | intros _; lia].
Qed.

End ZoneGeometry.

(** X14.  suspicion.ts: on an axis-parallel rectangle the ray casting of
    [isPointInPolygon] is exact away from the border: a point strictly
    inside is inside, and a point strictly to the left, to the right, above
    or below is outside. *)
Theorem isPointInPolygon_rectangle (px py xa ya xb yb : Q)
    (Hrect : xa < xb /\ ya < yb) :
  (xa < px < xb /\ ya < py < yb ->
   Suspicion.isPointInPolygon {| Tracking.x := px; Tracking.y := py |}
     (square xa ya xb yb) = true) /\
  (px < xa \/ xb < px \/ py < ya \/ yb < py ->
   Suspicion.isPointInPolygon {| Tracking.x := px; Tracking.y := py |}
     (square xa ya xb yb) = false).
Proof.
  destruct Hrect as [Hx Hy]. rewrite isPointInPolygon_square.
  destruct (Qlt_bool py ya) eqn:E1; destruct (Qlt_bool py yb) eqn:E2;
    destruct (Qlt_bool px xa) eqn:E3; destruct (Qlt_bool px xb) eqn:E4;
    try apply Qlt_bool_iff in E1; try apply Qlt_bool_false_iff in E1;
    try apply Qlt_bool_iff in E2; try apply Qlt_bool_false_iff in E2;
    try apply Qlt_bool_iff in E3; try apply Qlt_bool_false_iff in E3;
    try apply Qlt_bool_iff in E4; try apply Qlt_bool_false_iff in E4;
    cbn; split; intros H; first [reflexivity | exfalso; lra].
Qed.

Lemma isPointInPolygon_rectangle_witness :
  (0 < 1 # 2 < 1 /\ 0 < 1 # 2 < 1 ->
   Suspicion.isPointInPolygon {| Tracking.x := 1 # 2; Tracking.y := 1 # 2 |}
     (square 0 0 1 1) = true) /\
  (1 # 2 < 0 \/ 1 < 1 # 2 \/ 1 # 2 < 0 \/ 1 < 1 # 2 ->
   Suspicion.isPointInPolygon {| Tracking.x := 1 # 2; Tracking.y := 1 # 2 |}
     (square 0 0 1 1) = false).
Proof.
  apply (isPointInPolygon_rectangle (1 # 2) (1 # 2) 0 0 1 1).
  split; lra.
Defined.

(** X15.  suspicion.ts: [whichZone] answers the first zone, in configured
    order, that is enabled and contains the point: every zone before it is
    disabled or does not contain the point, the zone itself is enabled and
    has at least 3 vertices; it answers nothing exactly when no enabled zone
    contains the point. *)
Theorem whichZone_first_enabled_containing (p : Tracking.Point)
    (zs : list Suspicion.ZoneConfig) :
  match Suspicion.whichZone p zs with
  | Some z =>
      exists pre post,
        zs = pre ++ z :: post /\
        Suspicion.isEnabled z = true /\
        Suspicion.isPointInPolygon p (Suspicion.polygon z) = true /\
        (3 <= length (Suspicion.polygon z))%nat /\
        Forall (fun u => Suspicion.isEnabled u = false
                         \/ Suspicion.isPointInPolygon p (Suspicion.polygon u)
                            = false) pre
  | None =>
      Forall (fun u => Suspicion.isEnabled u = false
                       \/ Suspicion.isPointInPolygon p (Suspicion.polygon u)
                          = false) zs
  end.
Proof.
  pose proof (whichZone_spec p zs) as H.
  destruct (Suspicion.whichZone p zs) as [z |]; [| exact H].
  destruct H as [pre [post [Hzs [H1 [H2 H3]]]]].
  exists pre, post. repeat split; try assumption.
  apply (isPointInPolygon_needs_three p), H2.
Qed.

(** ** suspicion.ts: the terms of the score *)

Section SuspicionTerms.

Import Tracking Suspicion.

Variables (env : Env) (input : SuspicionInput)
  (frameWidth frameHeight : option Q).

Let r := computeSuspicion env input frameWidth frameHeight.

(** The score, by the three terms. *)
Lemma score_by_terms :
  exists dwellHit : bool,
    dwellHit = Qle_bool (getDwellSeconds env)
                 (dwellSum (zones input) (now_ms input) (zone_history input))
    /\
    suspicion_score r ==
      (if exit_without_checkout r then 40 else 0)
      + (if dwellHit then 25 else 0)
      + (if torso_ratio_spike r then 20 else 0) /\
    length (reasons r) =
      ((if exit_without_checkout r then 1 else 0)
       + (if dwellHit then 1 else 0)
       + (if torso_ratio_spike r then 1 else 0))%nat.
Proof.
  eexists. split; [reflexivity |].
  unfold r, computeSuspicion.
  cbn [suspicion_score exit_without_checkout torso_ratio_spike reasons].
  rewrite (fold_dwellStep (zones input) (now_ms input) (zone_history input)).
  set (dwell := dwellSum _ _ _).
  destruct (if sameZoneId _ _ then _ else false);
    destruct (Qle_bool (getDwellSeconds env) dwell);
    destruct (torsoSpike _);
    (split; [vm_compute; reflexivity | reflexivity]).
Qed.

Lemma exit_flag_off :
  (existsb
     (fun h => String.eqb (zone_type h) "checkout"
               && Qle_bool (now_ms input - getCheckoutMemorySeconds env * 1000)
                    (entered_ms h))
     (zone_history input) = true
   \/ List.find (fun z => String.eqb (type z) "exit" && isEnabled z)
        (zones input) = None
   \/ whichZone (bboxCenter (bbox (track input)) frameWidth frameHeight)
        (zones input) = None) ->
  exit_without_checkout r = false /\
  ~ In "exit_without_checkout" (reasons r).
Proof.
  intros H. unfold r, computeSuspicion.
  cbn [exit_without_checkout reasons].
  set (dwell := fold_left _ (zone_history input) 0).
  assert (Hflag :
    (if sameZoneId
          (whichZone (bboxCenter (bbox (track input)) frameWidth frameHeight)
             (zones input))
          (List.find (fun z => String.eqb (type z) "exit" && isEnabled z)
             (zones input))
     then negb
            (existsb
               (fun h => String.eqb (zone_type h) "checkout"
                         && Qle_bool
                              (now_ms input
                               - getCheckoutMemorySeconds env * 1000)
                              (entered_ms h))
               (zone_history input))
     else false) = false).
  { destruct H as [H | [H | H]]; rewrite H.
    - destruct (sameZoneId _ _); reflexivity.
    - destruct (whichZone _ _); reflexivity.
    - destruct (List.find _ _); reflexivity. }
  rewrite Hflag. split; [reflexivity |].
  destruct (Qle_bool _ dwell); destruct (torsoSpike _); cbn;
    intros Hin; repeat (destruct Hin as [Hin | Hin]; [discriminate Hin |]);
    exact Hin.
Qed.

End SuspicionTerms.

Section TorsoSteady.

Import Tracking Suspicion.

(** Five boxes of one and the same width-to-height ratio at the end of the
    history. *)
Lemma torsoSpike_steady (older : list Bbox) (b1 b2 b3 b4 b5 : Bbox) (q : Q) :
  bboxTorsoRatio b1 == q -> bboxTorsoRatio b2 == q ->
  bboxTorsoRatio b3 == q -> bboxTorsoRatio b4 == q ->
  bboxTorsoRatio b5 == q ->
  torsoSpike (older ++ [b1; b2; b3; b4; b5]) = false.
Proof.
  intros H1 H2 H3 H4 H5. unfold torsoSpike.
  assert (Hlen : (TORSO_RATIO_WINDOW <=? length (older ++ [b1; b2; b3; b4; b5]))%nat
                 = true).
  { apply Nat.leb_le. rewrite length_app. cbn. unfold TORSO_RATIO_WINDOW. lia. }
  rewrite Hlen.
  assert (Hslice : slice_last TORSO_RATIO_WINDOW (older ++ [b1; b2; b3; b4; b5])
                   = [b1; b2; b3; b4; b5]).
  { unfold slice_last, TORSO_RATIO_WINDOW. rewrite length_app. cbn [length].
    replace (length older + 5 - 5)%nat with (length older + 0)%nat by lia.
    rewrite drop_app_length'; [reflexivity | lia]. }
  rewrite Hslice. cbn [map fold_left length List.last].
  apply Qle_bool_false. unfold TORSO_SPIKE_RATIO.
  set (m := (0 + bboxTorsoRatio b1 + bboxTorsoRatio b2 + bboxTorsoRatio b3
             + bboxTorsoRatio b4 + bboxTorsoRatio b5)
            / inject_Z (Z.of_nat 5)).
  assert (Hm : m == q).
  { unfold m. rewrite H1, H2, H3, H4, H5. field. }
  rewrite Hm, H5.
  assert (Hz : q - q == 0) by ring. rewrite Hz. reflexivity.
Qed.

Lemma torsoSpike_short (history : list Bbox) :
  (length history < 5)%nat -> torsoSpike history = false.
Proof.
  intros H. unfold torsoSpike, TORSO_RATIO_WINDOW.
  destruct (Nat.leb_spec 5 (length history)); [lia | reflexivity].
Qed.

End TorsoSteady.

(** X16.  suspicion.ts: under the default escalation score of 70 a result
    escalates exactly when all three terms have triggered -- exit without
    checkout, the dwell threshold reached by the sum as the loop accumulates
    it in doubles, and a torso-ratio spike; any two of them (at most 65
    points) do not. *)
Theorem escalation_needs_all_three_terms (env : Suspicion.Env)
    (input : Suspicion.SuspicionInput) (frameWidth frameHeight : option Q) :
  Suspicion.shouldEscalate Suspicion.defaultEnv
    (Suspicion.computeSuspicion env input frameWidth frameHeight) = true
  <->
  Suspicion.exit_without_checkout
    (Suspicion.computeSuspicion env input frameWidth frameHeight) = true /\
  Qle_bool (Suspicion.getDwellSeconds env)
    (dwellSum (Suspicion.zones input) (Suspicion.now_ms input)
       (Suspicion.zone_history input)) = true /\
  Suspicion.torso_ratio_spike
    (Suspicion.computeSuspicion env input frameWidth frameHeight) = true.
Proof.
  destruct (score_by_terms env input frameWidth frameHeight)
    as [dwellHit [Hd [Hscore _]]].
  unfold Suspicion.shouldEscalate.
  change (Suspicion.getEscalateScore Suspicion.defaultEnv) with 70.
  rewrite <- Hd. rewrite Hscore.
  destruct (Suspicion.exit_without_checkout _), dwellHit,
    (Suspicion.torso_ratio_spike _); cbn;
    (split;
     [ intros H; first [discriminate H | repeat split]
     | intros (H1 & H2 & H3); first [reflexivity | discriminate] ]).
Qed.

(** X17.  suspicion.ts: exit without checkout is not flagged, and its reason
    not listed, when the history holds a "checkout" visit entered within the
    memory window, when the configuration has no enabled "exit" zone, or
    when the track's centre lies in no enabled zone. *)
Theorem exit_flag_needs_exit_zone_and_no_recent_checkout
    (env : Suspicion.Env) (input : Suspicion.SuspicionInput)
    (frameWidth frameHeight : option Q)
    (Hcase :
       existsb
         (fun h => String.eqb (Suspicion.zone_type h) "checkout"
                   && Qle_bool
                        (Suspicion.now_ms input
                         - Suspicion.getCheckoutMemorySeconds env * 1000)
                        (Suspicion.entered_ms h))
         (Suspicion.zone_history input) = true
       \/ List.find (fun z => String.eqb (Suspicion.type z) "exit"
                              && Suspicion.isEnabled z)
            (Suspicion.zones input) = None
       \/ Suspicion.whichZone
            (Tracking.bboxCenter (Tracking.bbox (Suspicion.track input))
               frameWidth frameHeight)
            (Suspicion.zones input) = None) :
  Suspicion.exit_without_checkout
    (Suspicion.computeSuspicion env input frameWidth frameHeight) = false /\
  ~ In "exit_without_checkout"
      (Suspicion.reasons
         (Suspicion.computeSuspicion env input frameWidth frameHeight)).
Proof.
  apply exit_flag_off, Hcase.
Qed.

Lemma exit_flag_needs_exit_zone_and_no_recent_checkout_witness :
  Suspicion.exit_without_checkout
    (Suspicion.computeSuspicion Suspicion.defaultEnv unlistedDwellInput
       None None) = false /\
  ~ In "exit_without_checkout"
      (Suspicion.reasons
         (Suspicion.computeSuspicion Suspicion.defaultEnv unlistedDwellInput
            None None)).
Proof.
  apply (exit_flag_needs_exit_zone_and_no_recent_checkout
           Suspicion.defaultEnv unlistedDwellInput None None).
  right. left. reflexivity.
Defined.

(** X18.  suspicion.ts: the torso-ratio term looks at the last five boxes
    only.  A history of fewer than five boxes never triggers it, and neither
    does a history whose last five boxes have one and the same
    width-to-height ratio, whatever came before. *)
Theorem torso_spike_needs_a_changing_ratio
    (short older : list Tracking.Bbox) (b1 b2 b3 b4 b5 : Tracking.Bbox)
    (q : Q)
    (Hshort : (length short < 5)%nat)
    (Hsteady : Forall (fun b => Tracking.bboxTorsoRatio b == q)
                 [b1; b2; b3; b4; b5]) :
  Suspicion.torsoSpike short = false /\
  Suspicion.torsoSpike (older ++ [b1; b2; b3; b4; b5]) = false.
Proof.
  split; [apply torsoSpike_short, Hshort |].
  repeat (apply Forall_cons in Hsteady as [? Hsteady]).
  apply (torsoSpike_steady older b1 b2 b3 b4 b5 q); assumption.
Qed.

Lemma torso_spike_needs_a_changing_ratio_witness :
  Suspicion.torsoSpike [sampleBoxA] = false /\
  Suspicion.torsoSpike
    ([sampleBoxB]
     ++ [sampleBoxA; sampleBoxA; sampleBoxA; sampleBoxA; sampleBoxA]) = false.
Proof.
  apply (torso_spike_needs_a_changing_ratio [sampleBoxA] [sampleBoxB]
           sampleBoxA sampleBoxA sampleBoxA sampleBoxA sampleBoxA (2 # 3)).
  - cbn. lia.
  - repeat constructor; vm_compute; reflexivity.
Defined.

(** ** judge.ts: the MiniMax judge *)

Section RateLimit.

Import JudgeSelect.

Variables (cam : string) (lo : Q).

(** Times of one 60-second span. *)
Let inSpan (t : Q) : Prop := lo <= t <= lo + 60000.

Lemma filter_all_in_span (now : Q) (l : list Q) :
  inSpan now -> Forall inSpan l ->
  List.filter (fun t => Qle_bool (now - RATE_WINDOW_MS) t) l = l.
Proof.
  intros [Hn1 Hn2] Hl. induction Hl as [| t l [Ht1 Ht2] _ IH]; [reflexivity |].
  cbn [List.filter]. rewrite IH.
  rewrite Qle_bool_true; [reflexivity |]. unfold RATE_WINDOW_MS. lra.
Qed.

(** While fewer than six times of the span are stored, a call of the span is
    accepted and stored. *)
Lemma checkRateLimit_accepts (now : Q) (l : list Q)
    (rc : gmap string (list Q)) :
  rc !! cam = Some l -> Forall inSpan l -> inSpan now ->
  (length l < 6)%nat ->
  checkRateLimit now cam rc = (true, <[cam := l ++ [now]]> rc).
Proof.
  intros Hrc Hl Hnow Hlen. unfold checkRateLimit. rewrite Hrc.
  unfold default, id. rewrite (filter_all_in_span now l Hnow Hl).
  unfold RATE_LIMIT_PER_CAMERA.
  destruct (Nat.leb_spec 6 (length l)); [lia |].
  rewrite slice_last_short; [reflexivity |].
  rewrite length_app. cbn. lia.
Qed.

Lemma checkRateLimit_refuses (now : Q) (l : list Q)
    (rc : gmap string (list Q)) :
  rc !! cam = Some l -> Forall inSpan l -> inSpan now ->
  (6 <= length l)%nat ->
  checkRateLimit now cam rc = (false, rc).
Proof.
  intros Hrc Hl Hnow Hlen. unfold checkRateLimit. rewrite Hrc.
  unfold default, id. rewrite (filter_all_in_span now l Hnow Hl).
  unfold RATE_LIMIT_PER_CAMERA.
  destruct (Nat.leb_spec 6 (length l)); [reflexivity | lia].
Qed.

Lemma rateRun_accepts_all (times : list Q) :
  forall (l : list Q) (rc : gmap string (list Q)),
    rc !! cam = Some l -> Forall inSpan l -> Forall inSpan times ->
    (length l + length times <= 6)%nat ->
    fst (rateRun cam times rc) = map (fun _ => true) times /\
    snd (rateRun cam times rc) !! cam = Some (l ++ times).
Proof.
  induction times as [| t times IH]; intros l rc Hrc Hl Hts Hlen.
  - cbn. rewrite app_nil_r. split; [reflexivity | exact Hrc].
  - apply Forall_cons in Hts as [Ht Hts]. cbn [length] in Hlen.
    cbn [rateRun].
    rewrite (checkRateLimit_accepts t l rc Hrc Hl Ht) by lia.
    destruct (IH (l ++ [t]) (<[cam := l ++ [t]]> rc)) as [IH1 IH2].
    + apply lookup_insert_eq.
    + apply Forall_app. split; [exact Hl | constructor; [exact Ht | constructor]].
    + exact Hts.
    + rewrite length_app. cbn. lia.
    + destruct (rateRun cam times (<[cam := l ++ [t]]> rc)) as [oks rc2].
      cbn [fst snd] in *. rewrite IH1, IH2, <- app_assoc.
      split; reflexivity.
Qed.

(** With nothing stored for the camera the first call is accepted. *)
Lemma checkRateLimit_first (now : Q) (rc : gmap string (list Q)) :
  rc !! cam = None ->
  checkRateLimit now cam rc = (true, <[cam := [now]]> rc).
Proof.
  intros Hrc. unfold checkRateLimit. rewrite Hrc. reflexivity.
Qed.

Lemma rate_limit_six_per_span (t1 : Q) (more : list Q) (t7 later : Q)
    (rc : gmap string (list Q)) :
  rc !! cam = None ->
  length more = 5%nat ->
  Forall inSpan (t1 :: more ++ [t7]) ->
  lo + 120000 < later ->
  let run := rateRun cam (t1 :: more) rc in
  fst run = [true; true; true; true; true; true] /\
  fst (checkRateLimit t7 cam (snd run)) = false /\
  snd (checkRateLimit t7 cam (snd run)) = snd run /\
  fst (checkRateLimit later cam (snd run)) = true.
Proof.
  intros Hrc Hlen Hspan Hlater. cbv zeta.
  apply Forall_cons in Hspan as [H1 Hspan].
  apply Forall_app in Hspan as [Hmore H7].
  apply Forall_cons in H7 as [H7 _].
  cbn [rateRun]. rewrite (checkRateLimit_first t1 rc Hrc).
  destruct (rateRun_accepts_all more [t1] (<[cam := [t1]]> rc)) as [R1 R2].
  - apply lookup_insert_eq.
  - constructor; [exact H1 | constructor].
  - exact Hmore.
  - cbn. lia.
  - destruct (rateRun cam more (<[cam := [t1]]> rc)) as [oks rc2].
    cbn [fst snd] in *.
    assert (Hstored : Forall inSpan ([t1] ++ more)).
    { apply Forall_app. split; [constructor; [exact H1 | constructor] | exact Hmore]. }
    assert (Hsix : length ([t1] ++ more) = 6%nat).
    { rewrite length_app. cbn. lia. }
    rewrite (checkRateLimit_refuses t7 _ rc2 R2 Hstored H7) by lia.
    cbn [fst snd]. split; [| split; [reflexivity | split; [reflexivity |]]].
    + rewrite R1. destruct more as [| a [| b [| c [| d [| e [| f more]]]]]];
        cbn in Hlen; try discriminate. reflexivity.
    + unfold checkRateLimit. rewrite R2. unfold default, id.
      assert (Hnone :
        List.filter (fun t => Qle_bool (later - RATE_WINDOW_MS) t)
          ([t1] ++ more) = []).
      { clear Hsix R2. induction Hstored as [| t l [Ht1 Ht2] _ IH];
          [reflexivity |].
        cbn [List.filter]. rewrite IH.
        rewrite Qle_bool_false; [reflexivity |].
        unfold RATE_WINDOW_MS. lra. }
      rewrite Hnone. reflexivity.
Qed.

End RateLimit.

(** X19.  judge.ts: the rate limit of the MiniMax judge.  For one camera
    with nothing stored, six calls within any span of 60 s are accepted, a
    seventh call within the same span is refused and leaves the map as it
    was, and a call more than 60 s after the span is accepted again. *)
Theorem judge_rate_limit_six_per_minute (cam : string) (lo t1 : Q)
    (more : list Q) (t7 later : Q) (rc : gmap string (list Q))
    (Hfresh : rc !! cam = None)
    (Hfive : length more = 5%nat)
    (Hspan : Forall (fun t => lo <= t <= lo + 60000) (t1 :: more ++ [t7]))
    (Hlater : lo + 120000 < later) :
  fst (rateRun cam (t1 :: more) rc) = [true; true; true; true; true; true] /\
  fst (JudgeSelect.checkRateLimit t7 cam (snd (rateRun cam (t1 :: more) rc)))
  = false /\
  snd (JudgeSelect.checkRateLimit t7 cam (snd (rateRun cam (t1 :: more) rc)))
  = snd (rateRun cam (t1 :: more) rc) /\
  fst (JudgeSelect.checkRateLimit later cam
         (snd (rateRun cam (t1 :: more) rc))) = true.
Proof.
  apply (rate_limit_six_per_span cam lo t1 more t7 later rc); assumption.
Qed.

Lemma judge_rate_limit_six_per_minute_witness :
  fst (rateRun "cam-1" (0 :: [1000; 2000; 3000; 4000; 5000]) ∅)
  = [true; true; true; true; true; true] /\
  fst (JudgeSelect.checkRateLimit 6000 "cam-1"
         (snd (rateRun "cam-1" (0 :: [1000; 2000; 3000; 4000; 5000]) ∅)))
  = false /\
  snd (JudgeSelect.checkRateLimit 6000 "cam-1"
         (snd (rateRun "cam-1" (0 :: [1000; 2000; 3000; 4000; 5000]) ∅)))
  = snd (rateRun "cam-1" (0 :: [1000; 2000; 3000; 4000; 5000]) ∅) /\
  fst (JudgeSelect.checkRateLimit 130000 "cam-1"
         (snd (rateRun "cam-1" (0 :: [1000; 2000; 3000; 4000; 5000]) ∅)))
  = true.
Proof.
  apply (judge_rate_limit_six_per_minute "cam-1" 0 0
           [1000; 2000; 3000; 4000; 5000] 6000 130000 ∅).
  - reflexivity.
  - reflexivity.
  - repeat constructor; cbn; lra.
  - lra.
Defined.

(** X20.  judge.ts: whichever judge is selected, the verdict is the local
    rule's.  The MiniMax judge returns [LocalFallbackJudge]'s result whether
    or not its rate limit lets the call through, and without a key or an
    enabled flag [initConcealmentJudge] selects the local judge. *)
Theorem every_judge_answers_with_the_local_rule
    (j : JudgeSelect.IConcealmentJudge) (now : Q)
    (input : Judge.ConcealmentJudgeInput) (rc : gmap string (list Q))
    (env : JudgeSelect.Env) :
  fst (JudgeSelect.judge j now input rc) = Judge.LocalFallbackJudge_judge input
  /\
  (truthy (JudgeSelect.MINIMAX_API_KEY env) = false
   \/ flagSet (JudgeSelect.ENABLE_MINIMAX_VLM env) = false ->
   JudgeSelect.initConcealmentJudge env = JudgeSelect.LocalFallbackJudge).
Proof.
  split.
  - destruct j; [reflexivity |].
    unfold JudgeSelect.judge, JudgeSelect.MiniMaxVLMJudge_judge.
    destruct (JudgeSelect.checkRateLimit _ _ _) as [ok rc'].
    destruct ok; reflexivity.
  - unfold JudgeSelect.initConcealmentJudge,
      JudgeSelect.createMiniMaxVLMJudge.
    intros [H | H]; rewrite H; cbn; [reflexivity |].
    rewrite orb_true_r. reflexivity.
Qed.

(** X21.  judge.ts with gate.ts under the default configuration: an event
    carrying the local judge's confidence is rejected with
    [below_confidence] exactly when the judge found concealment unlikely; a
    verdict of "likely" (confidence 0.7) meets the gate's minimum of 0.7. *)
Theorem local_verdict_meets_gate_minimum
    (input : Judge.ConcealmentJudgeInput) (cam trk : string) (clock : Q)
    (now : option Q) (st : Gate.GateState) :
  fst (Gate.alertGate Gate.defaultEnv clock
         {| Gate.camera_id := cam; Gate.track_id := trk;
            Gate.judge_confidence_0_1 :=
              Judge.confidence_0_1 (Judge.LocalFallbackJudge_judge input);
            Gate.now_ms := now |} st)
  = Gate.Reject Gate.below_confidence
  <->
  Judge.concealment_likely (Judge.LocalFallbackJudge_judge input) = false.
Proof.
  unfold Gate.alertGate, Judge.LocalFallbackJudge_judge.
  cbn [Gate.judge_confidence_0_1 Judge.confidence_0_1
       Judge.concealment_likely].
  change (Gate.getJudgeMinConfidence Gate.defaultEnv) with (7 # 10).
  destruct (Judge.exitWithoutCheckout input || Judge.torsoRatioSpike input).
  - change (Qlt_bool (7 # 10) (7 # 10)) with false. cbv iota.
    split; [| discriminate].
    destruct (Gate.inCooldown _ _ _); [discriminate |].
    destruct (Gate.inCooldown _ _ _); discriminate.
  - change (Qlt_bool (2 # 10) (7 # 10)) with true. cbv iota.
    split; reflexivity.
Qed.

(** ** voice.ts: file names and the two voices *)

Section SafeNames.

Lemma allChars_mapChars (p : ascii -> bool) (f : ascii -> ascii) (s : string) :
  (forall c, p (f c) = true) -> allChars p (mapChars f s) = true.
Proof.
  intros Hf. induction s as [| c s IH]; [reflexivity |].
  cbn. rewrite Hf, IH. reflexivity.
Qed.

Lemma allChars_substring (p : ascii -> bool) (s : string) :
  forall n, allChars p s = true -> allChars p (String.substring 0 n s) = true.
Proof.
  induction s as [| c s IH]; intros n H.
  - destruct n; reflexivity.
  - destruct n as [| n]; [reflexivity |].
    cbn in H. apply andb_prop in H as [Hc Hs].
    cbn. rewrite Hc. cbn. apply IH, Hs.
Qed.

Lemma length_substring_le (s : string) :
  forall n, (String.length (String.substring 0 n s) <= n)%nat.
Proof.
  induction s as [| c s IH]; intros n.
  - destruct n; cbn; lia.
  - destruct n as [| n]; cbn; [lia |]. specialize (IH n). lia.
Qed.

Lemma safeName_safe (n : nat) (cameraId : string) :
  allChars isSafeChar (safeName n cameraId) = true /\
  (String.length (safeName n cameraId) <= n)%nat.
Proof.
  unfold safeName, sliceTo. split; [| apply length_substring_le].
  apply allChars_substring, allChars_mapChars.
  intros c. destruct (isSafeChar c) eqn:E; [exact E | reflexivity].
Qed.

Lemma fileTimestamp_safe (iso : string) :
  allChars notColonOrDot (fileTimestamp iso) = true /\
  (String.length (fileTimestamp iso) <= 19)%nat.
Proof.
  unfold fileTimestamp, sliceTo. split; [| apply length_substring_le].
  apply allChars_substring, allChars_mapChars.
  intros c. unfold notColonOrDot.
  destruct (Ascii.eqb c ":" || Ascii.eqb c ".")%bool eqn:E;
    [reflexivity | rewrite E; reflexivity].
Qed.

End SafeNames.

(** X22.  voice.ts, minimax-tts.ts, capture.ts: the pieces of an artifact's
    file name are safe whatever the camera id and the clock text: the camera
    part is at most as long as its limit and holds only letters, digits, [-]
    and [_]; the time part is at most 19 characters and holds neither [:]
    nor [.]. *)
Theorem artifact_name_parts_are_safe (n : nat) (cameraId iso : string) :
  allChars isSafeChar (safeName n cameraId) = true /\
  (String.length (safeName n cameraId) <= n)%nat /\
  allChars notColonOrDot (fileTimestamp iso) = true /\
  (String.length (fileTimestamp iso) <= 19)%nat.
Proof.
  destruct (safeName_safe n cameraId) as [H1 H2].
  destruct (fileTimestamp_safe iso) as [H3 H4].
  repeat split; assumption.
Qed.

Section VoiceFallback.

Import Voice.

Variables (env : Env) (w : World) (location cameraId : string).

Lemma succeedsLocally_succeeds (m : M (list Effect) VoiceAlertResult)
    (tr : list Effect) :
  succeedsLocally m tr -> succeeds m tr.
Proof.
  intros [tr' [r [H [Hs [_ Hp]]]]]. exists tr', r. repeat split; assumption.
Qed.

(** [play] of the MiniMax voice either hands over to the local voice, or
    answers with the audio path the request returned. *)
Lemma MiniMaxVoiceAlert_play_cases (tr : list Effect) :
  (exists tr1,
     MiniMaxVoiceAlert_play env w location cameraId tr
     = LocalVoiceAlert_play env w location cameraId tr1)
  \/
  (exists res tr1,
     generateAlertAudio_outcome w location cameraId = inr res /\
     truthy (tts_audioPath res) = true /\
     MiniMaxVoiceAlert_play env w location cameraId tr =
     (tr1,
      inr {| success := true;
             audioPath := tts_audioPath res;
             voiceUsed :=
               if tts_fallbackUsed res then "local" else "minimax";
             error := tts_error res |})).
Proof.
  unfold MiniMaxVoiceAlert_play, try_catch, mbind, M_bind, bind, mret, M_ret,
    ret, io.
  destruct (import_outcome w "@/lib/shoplift-alerts/minimax-tts") as [e |];
    [left; eexists; reflexivity |].
  destruct (generateAlertAudio_outcome w location cameraId) as [e | res];
    [left; eexists; reflexivity |].
  destruct (truthy (tts_audioPath res)) eqn:Hpath;
    [| left; eexists; reflexivity].
  destruct (import_outcome w "@/lib/shoplift-alerts/playback") as [e |];
    [left; eexists; reflexivity |].
  right. exists res. eexists. repeat split. exact Hpath.
Qed.

(** The MiniMax voice cannot fail where the local voice succeeds. *)
Lemma MiniMaxVoiceAlert_play_succeeds (tr : list Effect) :
  (forall dir, mkdir_outcome w dir = None) ->
  (forall path, writeFile_outcome w path = None) ->
  succeeds (MiniMaxVoiceAlert_play env w location cameraId) tr /\
  (forall tr' r,
     MiniMaxVoiceAlert_play env w location cameraId tr = (tr', inr r) ->
     voiceUsed r = "minimax" ->
     exists res,
       generateAlertAudio_outcome w location cameraId = inr res /\
       truthy (tts_audioPath res) = true /\
       tts_fallbackUsed res = false /\
       audioPath r = tts_audioPath res).
Proof.
  intros Hmk Hwr.
  destruct (MiniMaxVoiceAlert_play_cases tr)
    as [[tr1 Hrun] | [res [tr1 [Hgen [Hpath Hrun]]]]].
  - destruct (LocalVoiceAlert_play_ok env w Hmk Hwr location cameraId tr1)
      as [tr2 [r2 [Hr2 [Hs [Hv Hp]]]]].
    split.
    + exists tr2, r2. rewrite Hrun. repeat split; assumption.
    + intros tr' r Hr Hused. rewrite Hrun, Hr2 in Hr.
      injection Hr as _ <-. rewrite Hv in Hused. discriminate Hused.
  - split.
    + eexists _, _. split; [exact Hrun |]. cbn. split; [reflexivity |].
      destruct (tts_audioPath res); [eexists; reflexivity |].
      discriminate Hpath.
    + intros tr' r Hr Hused. rewrite Hrun in Hr. injection Hr as _ <-.
      cbn in Hused |- *. exists res. repeat split; try assumption.
      destruct (tts_fallbackUsed res); [discriminate Hused | reflexivity].
Qed.

(** The local voice with an audio directory that cannot be made: every
    branch ends in [writeBeepWav], whose [mkdir] throws. *)
Lemma LocalVoiceAlert_play_no_directory (e : Thrown) (tr : list Effect) :
  (forall dir, mkdir_outcome w dir = Some e) ->
  exists n : nat,
    LocalVoiceAlert_play env w location cameraId tr =
    (tr ++ repeat (EMkdir (path_join (path_join (cwd w) "alerts") "audio")) n,
     inl e).
Proof.
  intros Hmk. unfold LocalVoiceAlert_play.
  destruct (String.eqb (platform w) "darwin").
  - exists 2%nat.
    unfold writeBeepWav, mkdir, try_catch, mbind, M_bind, bind, io.
    rewrite !Hmk. cbn [repeat]. rewrite <- app_assoc. reflexivity.
  - destruct (String.eqb (platform w) "linux").
    + exists 3%nat.
      unfold writeBeepWav, mkdir, try_catch, mbind, M_bind, bind, mret,
        M_ret, ret, io.
      rewrite !Hmk. cbn [repeat]. rewrite <- !app_assoc. reflexivity.
    + exists 2%nat.
      unfold writeBeepWav, mkdir, try_catch, mbind, M_bind, bind, mret,
        M_ret, ret, io.
      rewrite !Hmk. cbn [repeat]. rewrite <- !app_assoc. reflexivity.
Qed.

End VoiceFallback.

(** X23.  voice.ts: the MiniMax voice falls back to the local voice.  When
    the audio directory can be made and the tone written, its [play] returns
    [success = true] with an audio path whatever the MiniMax request and the
    module loads come to; and it answers [voiceUsed = "minimax"] only when
    the request returned an audio path without having fallen back itself. *)
Theorem minimax_voice_falls_back_to_local (env : Voice.Env) (w : World)
    (location cameraId : string) (tr : list Effect)
    (Hmkdir : forall dir, mkdir_outcome w dir = None)
    (Hwrite : forall path, writeFile_outcome w path = None) :
  succeeds (Voice.MiniMaxVoiceAlert_play env w location cameraId) tr /\
  (forall tr' r,
     Voice.MiniMaxVoiceAlert_play env w location cameraId tr = (tr', inr r) ->
     Voice.voiceUsed r = "minimax" ->
     exists res,
       generateAlertAudio_outcome w location cameraId = inr res /\
       truthy (tts_audioPath res) = true /\
       tts_fallbackUsed res = false /\
       Voice.audioPath r = tts_audioPath res).
Proof.
  apply MiniMaxVoiceAlert_play_succeeds; assumption.
Qed.

Lemma minimax_voice_falls_back_to_local_witness :
  succeeds (Voice.MiniMaxVoiceAlert_play noCredentials linuxNoEspeak
              "Aisle 6" "cam-1") [] /\
  (forall tr' r,
     Voice.MiniMaxVoiceAlert_play noCredentials linuxNoEspeak
       "Aisle 6" "cam-1" [] = (tr', inr r) ->
     Voice.voiceUsed r = "minimax" ->
     exists res,
       generateAlertAudio_outcome linuxNoEspeak "Aisle 6" "cam-1" = inr res /\
       truthy (tts_audioPath res) = true /\
       tts_fallbackUsed res = false /\
       Voice.audioPath r = tts_audioPath res).
Proof.
  apply (minimax_voice_falls_back_to_local noCredentials linuxNoEspeak
           "Aisle 6" "cam-1" []).
  - intros dir. reflexivity.
  - intros path. reflexivity.
Defined.

(** X24.  voice.ts: the one way the local voice fails.  When the audio
    directory cannot be made, [LocalVoiceAlert.play] rejects with the error
    of [mkdir] on every platform, having tried nothing but [mkdir]: no
    speech program is started and no file is written. *)
Theorem local_voice_rejects_without_directory (env : Voice.Env) (w : World)
    (location cameraId : string) (e : Thrown) (tr : list Effect)
    (Hmkdir : forall dir, mkdir_outcome w dir = Some e) :
  exists n : nat,
    Voice.LocalVoiceAlert_play env w location cameraId tr =
    (tr ++ repeat (EMkdir (path_join (path_join (cwd w) "alerts") "audio")) n,
     inl e).
Proof.
  apply LocalVoiceAlert_play_no_directory, Hmkdir.
Qed.

Lemma local_voice_rejects_without_directory_witness :
  exists n : nat,
    Voice.LocalVoiceAlert_play noCredentials linuxReadOnly
      "Aisle 6" "cam-1" [] =
    ([] ++ repeat
             (EMkdir (path_join (path_join (cwd linuxReadOnly) "alerts")
                        "audio")) n,
     inl (ErrorObj "EACCES: permission denied")).
Proof.
  apply (local_voice_rejects_without_directory noCredentials linuxReadOnly
           "Aisle 6" "cam-1" (ErrorObj "EACCES: permission denied") []).
  intros dir. reflexivity.
Defined.

(** ** pipeline.ts: what a run may touch *)

#[global] Instance growsT_preorder (P : Effect -> Prop) : PreOrder (growsT P).
Proof.
  split.
  - intros tr. exists []. rewrite app_nil_r. split; [reflexivity | constructor].
  - intros a b c [e1 [-> H1]] [e2 [-> H2]]. exists (e1 ++ e2).
    rewrite app_assoc. split; [reflexivity | apply Forall_app; split; assumption].
Qed.

#[global] Instance grows_preorder (P : Effect -> Prop) : PreOrder (grows P).
Proof.
  split.
  - intros s. repeat split. reflexivity.
  - intros a b c [G1 [V1 T1]] [G2 [V2 T2]]. repeat split; [congruence .. |].
    etransitivity; eassumption.
Qed.

Section Follows.

Context {S : Type} (R : S -> S -> Prop) `{!PreOrder R}.

Lemma follows_ret {A} (a : A) : follows R (mret a).
Proof. intros s. cbn. reflexivity. Qed.

Lemma follows_throw {A} (e : Thrown) : follows R (@throw S A e).
Proof. intros s. cbn. reflexivity. Qed.

Lemma follows_get : follows R (@get S).
Proof. intros s. cbn. reflexivity. Qed.

Lemma follows_bind {A B} (m : M S A) (k : A -> M S B) :
  follows R m -> (forall a, follows R (k a)) -> follows R (m ≫= k).
Proof.
  intros Hm Hk s. unfold mbind, M_bind, bind. specialize (Hm s).
  destruct (m s) as [s1 [e | a]]; cbn in *; [exact Hm |].
  etransitivity; [exact Hm | apply Hk].
Qed.

Lemma follows_try_catch {A} (m : M S A) (h : Thrown -> M S A) :
  follows R m -> (forall e, follows R (h e)) -> follows R (try_catch m h).
Proof.
  intros Hm Hh s. unfold try_catch. specialize (Hm s).
  destruct (m s) as [s1 [e | a]]; cbn in *; [| exact Hm].
  etransitivity; [exact Hm | apply Hh].
Qed.

End Follows.

Section Grows.

Variable P : Effect -> Prop.

Lemma growsT_one (tr : list Effect) (eff : Effect) :
  P eff -> growsT P tr (tr ++ [eff]).
Proof. intros H. exists [eff]. split; [reflexivity | constructor; [exact H | constructor]]. Qed.

Lemma follows_record {A} (eff : Effect) (r : Thrown + A) :
  P eff -> follows (growsT P) (fun tr => (tr ++ [eff], r)).
Proof. intros H tr. apply growsT_one, H. Qed.

Lemma follows_io (eff : Effect) (o : option Thrown) :
  P eff -> follows (growsT P) (io eff o).
Proof. intros H tr. apply growsT_one, H. Qed.

Lemma follows_zoom {A} (m : M (list Effect) A) :
  follows (growsT P) m ->
  follows (grows P) (zoom Pipeline.trace Pipeline.setTrace m).
Proof.
  intros Hm s. unfold zoom. specialize (Hm (Pipeline.trace s)).
  destruct (m (Pipeline.trace s)) as [t1 r]. cbn in *.
  repeat split. exact Hm.
Qed.

Lemma follows_call (eff : Effect) (o : option Thrown) :
  P eff -> follows (grows P) (Pipeline.call eff o).
Proof. intros H. apply follows_zoom, follows_io, H. Qed.

End Grows.

Lemma growsT_weaken (P Q : Effect -> Prop) (tr tr' : list Effect) :
  (forall eff, P eff -> Q eff) -> growsT P tr tr' -> growsT Q tr tr'.
Proof.
  intros HPQ [ext [-> H]]. exists ext. split; [reflexivity |].
  eapply Forall_impl; eassumption.
Qed.

Lemma follows_weaken {A} (P Q : Effect -> Prop) (m : M (list Effect) A) :
  (forall eff, P eff -> Q eff) ->
  follows (growsT P) m -> follows (growsT Q) m.
Proof. intros HPQ Hm tr. eapply growsT_weaken; [exact HPQ | apply Hm]. Qed.

(** Take a computation apart along its binds, handlers and branches. *)
Ltac follow :=
  repeat first
    [ apply follows_ret; exact _
    | apply follows_get; exact _
    | apply follows_io; exact I
    | apply follows_call; exact I
    | apply follows_record; exact I
    | apply follows_bind; [exact _ | | intros ?]
    | apply follows_try_catch; [exact _ | | intros ?]
    | apply follows_zoom
    | match goal with
      | |- follows _ (if ?b then _ else _) => destruct b
      | |- follows _ (match ?x with Some _ => _ | None => _ end) => destruct x
      end ].

Section VoiceEffects.

Import Voice.

Variables (env : Env) (w : World) (location cameraId : string).

Lemma LocalVoiceAlert_play_effects :
  follows (growsT localVoiceEffect)
    (LocalVoiceAlert_play env w location cameraId).
Proof.
  unfold LocalVoiceAlert_play, writeBeepWav, mkdir, spawnWait, writeFile,
    playNonBlocking.
  cbv zeta. follow.
Qed.

Lemma play_effects (v : IVoiceAlert) :
  follows (growsT voiceEffect) (play v env w location cameraId).
Proof.
  assert (Hlocal : follows (growsT voiceEffect)
                     (LocalVoiceAlert_play env w location cameraId)).
  { apply (follows_weaken localVoiceEffect); [| apply LocalVoiceAlert_play_effects].
    intros [] H; first [exact I | destruct H]. }
  destruct v; [exact Hlocal |].
  unfold play, MiniMaxVoiceAlert_play. cbv zeta. follow.
Qed.

End VoiceEffects.

Section PipelineRuns.

Import Pipeline.

Variables (env : Env) (w : World) (event : ShopliftingEvent).

Lemma pipelineBody_steps :
  pipelineBody env w event = gateCall env w event ≫= afterGate env w event.
Proof. reflexivity. Qed.

(** A run is the gate's decision, then the rest of the [try] block under the
    [catch] block, on the state the gate has left. *)
Lemma run_after_gate (s : Sys) :
  runShopliftAlertPipeline env w event s =
  try_catch
    (afterGate env w event
       (fst (AlertGate.alertGate (gateEnv env) (dateNow w) event (gate s))))
    (pipelineHandler w event)
    (setGate
       (snd (AlertGate.alertGate (gateEnv env) (dateNow w) event (gate s))) s).
Proof.
  unfold runShopliftAlertPipeline. rewrite pipelineBody_steps.
  unfold try_catch, mbind, M_bind, bind, gateCall.
  destruct (AlertGate.alertGate _ _ _ _) as [r g]. reflexivity.
Qed.

Lemma logSuppressedReported_run (reason : string) (s : Sys) :
  logSuppressedReported w event reason s =
  (setTrace (trace s ++ suppressedTrace w event reason) s, inr tt).
Proof.
  unfold logSuppressedReported, consoleError, call, suppressedTrace. run_eff.
  destruct (logSuppressed_outcome w event reason); cbn; [| reflexivity].
  unfold setTrace. cbn. rewrite <- app_assoc. reflexivity.
Qed.

Lemma run_rejected (r : AlertGate.RejectReason) (ev : ShopliftingEvent)
    (s : Sys) :
  fst (AlertGate.alertGate (gateEnv env) (dateNow w) event (gate s))
  = AlertGate.Rejected r ev ->
  runShopliftAlertPipeline env w event s =
  (setTrace
     (trace s ++ suppressedTrace w event (AlertGate.reasonString r))
     (setGate
        (snd (AlertGate.alertGate (gateEnv env) (dateNow w) event (gate s)))
        s),
   inr (suppressedResult (AlertGate.reasonString r))).
Proof.
  intros Hr. rewrite run_after_gate, Hr. unfold afterGate.
  unfold try_catch, mbind at 1, M_bind, bind.
  rewrite logSuppressedReported_run. reflexivity.
Qed.




End PipelineRuns.


(** X25.  pipeline.ts: when the gate rejects the event, the run returns
    [triggered = false] with the gate's reason; it attempts one suppressed
    record with that reason (and reports the failure of that write, if it
    fails), calls no voice and no playback, and leaves the gate in the state
    the gate's own decision produced. *)
Theorem pipeline_rejected_event_is_logged_not_voiced (env : Pipeline.Env)
    (w : World) (event ev : ShopliftingEvent) (r : AlertGate.RejectReason)
    (s : Pipeline.Sys)
    (Hrejected :
       fst (AlertGate.alertGate (Pipeline.gateEnv env) (dateNow w) event
              (Pipeline.gate s))
       = AlertGate.Rejected r ev) :
  snd (Pipeline.runShopliftAlertPipeline env w event s)
  = inr (suppressedResult (AlertGate.reasonString r)) /\
  Pipeline.trace (fst (Pipeline.runShopliftAlertPipeline env w event s))
  = Pipeline.trace s ++ suppressedTrace w event (AlertGate.reasonString r) /\
  Pipeline.gate (fst (Pipeline.runShopliftAlertPipeline env w event s))
  = snd (AlertGate.alertGate (Pipeline.gateEnv env) (dateNow w) event
           (Pipeline.gate s)).
Proof.
  rewrite (run_rejected env w event r ev s Hrejected). repeat split.
Qed.

Lemma pipeline_rejected_event_is_logged_not_voiced_witness :
  snd (Pipeline.runShopliftAlertPipeline defaultPipelineEnv linuxNoEspeak
         sampleEvent freshSys)
  = inr (suppressedResult "persistence_not_met") /\
  Pipeline.trace
    (fst (Pipeline.runShopliftAlertPipeline defaultPipelineEnv linuxNoEspeak
            sampleEvent freshSys))
  = Pipeline.trace freshSys ++
    suppressedTrace linuxNoEspeak sampleEvent "persistence_not_met" /\
  Pipeline.gate
    (fst (Pipeline.runShopliftAlertPipeline defaultPipelineEnv linuxNoEspeak
            sampleEvent freshSys))
  = snd (AlertGate.alertGate (Pipeline.gateEnv defaultPipelineEnv)
           (dateNow linuxNoEspeak) sampleEvent (Pipeline.gate freshSys)).
Proof.
  apply (pipeline_rejected_event_is_logged_not_voiced defaultPipelineEnv
           linuxNoEspeak sampleEvent sampleEvent
           AlertGate.persistence_not_met freshSys).
  vm_compute. reflexivity.
Defined.




(** ** pipeline.ts: incident records per run *)

Lemma logAttempts_app (a b : list Effect) :
  logAttempts (a ++ b) = (logAttempts a + logAttempts b)%nat.
Proof. unfold logAttempts. rewrite List.filter_app, length_app. reflexivity. Qed.

Lemma logAttempts_notLog (ext : list Effect) :
  Forall notLog ext -> logAttempts ext = 0%nat.
Proof.
  unfold logAttempts. induction 1 as [| eff ext H _ IH]; [reflexivity |].
  destruct eff; cbn in *; first [exact IH | destruct H].
Qed.

Section PipelineRecords.

Import Pipeline.

Variables (env : Env) (w : World) (event : ShopliftingEvent).

Lemma miniMaxAttempt_notLog :
  follows (grows notLog) (miniMaxAttempt env w event).
Proof. unfold miniMaxAttempt. follow. Qed.

Lemma voiceStep_notLog (sofar : option string * bool) :
  follows (grows notLog) (voiceStep env w event sofar).
Proof.
  unfold voiceStep. follow.
  apply (follows_weaken voiceEffect); [| apply play_effects].
  intros [] H; first [exact I | destruct H].
Qed.

(** From the voice step on, one record is attempted; the only step that can
    throw there is the load of the playback module, after the record. *)
Lemma afterVoice_records (voiced : option string * bool) (s : Sys) :
  exists ext,
    trace (fst (afterVoice env w event voiced s)) = trace s ++ ext /\
    logAttempts ext = 1%nat /\
    forall e, snd (afterVoice env w event voiced s) = inl e ->
              import_outcome w "./playback" = Some e.
Proof.
  unfold afterVoice, logTriggeredReported, consoleError, call.
  destruct (negb (truthy (fst voiced))).
  - unfold mbind, M_bind, bind. rewrite !logSuppressedReported_run.
    cbn. eexists. split; [reflexivity |]. split; [| discriminate].
    unfold suppressedTrace, logAttempts.
    destruct (logSuppressed_outcome w event "voice_failed"); reflexivity.
  - run_eff. cbn.
    destruct (logTriggered_outcome w event _ _); cbn;
      destruct (import_outcome w "./playback") as [e0 |]; cbn;
      try destruct (playAudioNonBlocking_outcome w _); cbn;
      rewrite <- ?app_assoc;
      (eexists; split; [reflexivity |]; split; [reflexivity |]);
      intros e He; first [discriminate He | injection He as <-; reflexivity].
Qed.

Lemma afterGate_records (r : AlertGate.GateResult) (s : Sys) :
  exists ext,
    trace (fst (afterGate env w event r s)) = trace s ++ ext /\
    match snd (afterGate env w event r s) with
    | inr _ => logAttempts ext = 1%nat
    | inl e =>
        logAttempts ext = 0%nat \/
        (logAttempts ext = 1%nat /\ import_outcome w "./playback" = Some e)
    end.
Proof.
  destruct r as [ev | reason ev]; unfold afterGate.
  - unfold mbind, M_bind, bind.
    destruct (miniMaxAttempt_notLog s) as (_ & _ & ext1 & Ht1 & Hn1).
    destruct (miniMaxAttempt env w event s) as [s1 [e | fromTts]]; cbn in *.
    { exists ext1. split; [exact Ht1 |]. left.
      apply logAttempts_notLog, Hn1. }
    destruct (voiceStep_notLog fromTts s1) as (_ & _ & ext2 & Ht2 & Hn2).
    destruct (voiceStep env w event fromTts s1) as [s2 [e | voiced]];
      cbn in *.
    { exists (ext1 ++ ext2). rewrite Ht2, Ht1, app_assoc.
      split; [reflexivity |]. left. rewrite logAttempts_app.
      rewrite !logAttempts_notLog by assumption. reflexivity. }
    destruct (afterVoice_records voiced s2) as (ext3 & Ht3 & Hn3 & He3).
    exists ((ext1 ++ ext2) ++ ext3).
    rewrite Ht3, Ht2, Ht1, !app_assoc. split; [reflexivity |].
    assert (Hn : logAttempts ((ext1 ++ ext2) ++ ext3) = 1%nat).
    { rewrite !logAttempts_app, Hn3.
      rewrite !logAttempts_notLog by assumption. reflexivity. }
    destruct (snd (afterVoice env w event voiced s2)) as [e | res];
      [| exact Hn].
    right. split; [exact Hn | apply He3; reflexivity].
  - unfold mbind, M_bind, bind. rewrite !logSuppressedReported_run. cbn.
    eexists. split; [reflexivity |].
    unfold suppressedTrace, logAttempts.
    destruct (logSuppressed_outcome w event _); reflexivity.
Qed.

End PipelineRecords.

(** X27.  pipeline.ts: every run attempts an incident record.  It attempts
    exactly one, except when the playback module fails to load after the
    triggered record has been written: then the [catch] block attempts a
    second, suppressed record and the run returns the "pipeline_error"
    result. *)
Theorem pipeline_attempts_one_record_or_two (env : Pipeline.Env) (w : World)
    (event : ShopliftingEvent) (s : Pipeline.Sys) :
  exists ext,
    Pipeline.trace (fst (Pipeline.runShopliftAlertPipeline env w event s))
    = Pipeline.trace s ++ ext /\
    (logAttempts ext = 1%nat \/
     (logAttempts ext = 2%nat /\
      import_outcome w "./playback" <> None /\
      snd (Pipeline.runShopliftAlertPipeline env w event s)
      = inr pipelineFailure)).
Proof.
  rewrite run_after_gate.
  set (r := fst (AlertGate.alertGate _ _ _ _)).
  set (g := snd (AlertGate.alertGate _ _ _ _)).
  unfold try_catch.
  destruct (afterGate_records env w event r (Pipeline.setGate g s))
    as (ext & Ht & Hn).
  destruct (afterGate env w event r (Pipeline.setGate g s))
    as [s1 [e | res]]; cbn in *.
  - destruct (pipelineHandler_returns w event e s1) as (s2 & Hrun & Ht2 & _).
    rewrite Hrun. cbn. rewrite Ht2, Ht, <- app_assoc.
    eexists. split; [reflexivity |].
    rewrite logAttempts_app.
    destruct Hn as [Hn | [Hn Himp]]; rewrite Hn; [left; reflexivity |].
    right. split; [reflexivity |]. split; [| reflexivity].
    rewrite Himp. discriminate.
  - exists ext. split; [exact Ht | left; exact Hn].
Qed.


(** ** minimax-tts.ts: [hexToBytes] *)

Lemma hexDigitValue_hexDigit (d : N) :
  (d < 16)%N -> MinimaxTts.hexDigitValue (hexDigit d) = Some d.
Proof.
  intros H. destruct d as [| p]; [reflexivity |].
  do 4 (try destruct p as [p | p |]); try reflexivity; lia.
Qed.

Lemma hexDigit_not_whitespace (d : N) :
  (d < 16)%N -> MinimaxTts.isWhitespace (hexDigit d) = false.
Proof.
  intros H. destruct d as [| p]; [reflexivity |].
  do 4 (try destruct p as [p | p |]); try reflexivity; lia.
Qed.

Lemma byteOfPair_hexDigits (b : N) :
  (b < 256)%N ->
  MinimaxTts.byteOfPair (hexDigit (b / 16)) (hexDigit (b mod 16)) = b.
Proof.
  intros H. unfold MinimaxTts.byteOfPair.
  rewrite !hexDigitValue_hexDigit.
  - symmetry. apply N.div_mod. discriminate.
  - apply N.mod_lt. discriminate.
  - apply N.Div0.div_lt_upper_bound. exact H.
Qed.

Lemma bytesOfPairs_toHex (bytes : list N) :
  Forall (fun b => (b < 256)%N) bytes ->
  MinimaxTts.bytesOfPairs (toHex bytes) = bytes.
Proof.
  induction 1 as [| b rest Hb _ IH]; [reflexivity |].
  cbn [toHex MinimaxTts.bytesOfPairs].
  rewrite byteOfPair_hexDigits by exact Hb. rewrite IH. reflexivity.
Qed.

Lemma length_toHex (bytes : list N) :
  String.length (toHex bytes) = (2 * length bytes)%nat.
Proof.
  induction bytes as [| b rest IH]; [reflexivity |].
  cbn [toHex String.length length]. rewrite IH. lia.
Qed.

(** X28.  minimax-tts.ts: [hexToBytes] undoes hex encoding.  A text that,
    white space apart, is the lower-case hex of a byte sequence decodes to
    exactly those bytes. *)
Theorem hexToBytes_decodes_hex_text (bytes : list N) (hex : string)
    (Hbytes : Forall (fun b => (b < 256)%N) bytes)
    (Hclean : MinimaxTts.stripWhitespace hex = toHex bytes) :
  MinimaxTts.hexToBytes hex = inr bytes.
Proof.
  unfold MinimaxTts.hexToBytes. rewrite Hclean, length_toHex.
  replace (2 * length bytes)%nat with (length bytes * 2)%nat by lia.
  rewrite Nat.Div0.mod_mul. cbn [Nat.eqb negb].
  rewrite bytesOfPairs_toHex by exact Hbytes. reflexivity.
Qed.

Lemma hexToBytes_decodes_hex_text_witness :
  MinimaxTts.hexToBytes sampleHex = inr sampleBytes.
Proof.
  apply (hexToBytes_decodes_hex_text sampleBytes sampleHex).
  - unfold sampleBytes. repeat constructor.
  - vm_compute. reflexivity.
Defined.

(** ** types.ts: events built from thefts *)

Lemma alertGate_minConfidence_range (env : AlertGate.Env) :
  0 <= AlertGate.getMinConfidence env <= 1.
Proof.
  unfold AlertGate.getMinConfidence.
  destruct (envNumberOr_cases (AlertGate.SHOPLIFT_MIN_CONFIDENCE env)
              (fun n => Qle_bool 0 n && Qle_bool n 1)
              AlertGate.DEFAULT_MIN_CONFIDENCE)
    as [[n [_ [Hok ->]]] | ->].
  - apply andb_prop in Hok as [H1 H2]. apply Qle_bool_iff in H1, H2.
    split; assumption.
  - unfold AlertGate.DEFAULT_MIN_CONFIDENCE. split; lra.
Qed.

Lemma fromTheftEvent_confidence_range (theft : EventTypes.TheftInput)
    (label : option string) :
  0 <= confidence (EventTypes.fromTheftEvent theft label) <= 1.
Proof.
  cbn. split.
  - apply Q.min_glb; [lra | apply Q.le_max_l].
  - apply Q.le_min_l.
Qed.

(** X29.  types.ts with alert-gate.ts: the event [fromTheftEvent] builds
    always passes [isShopliftingEvent], its confidence being the score over
    100 clamped to [0, 1]; and when the score is at least 100 times the
    gate's minimum confidence (75 by default, the threshold of the feedback
    route), the gate never rejects that event as [below_threshold]. *)
Theorem theft_event_is_valid_and_meets_threshold (env : AlertGate.Env)
    (theft : EventTypes.TheftInput) (label : option string)
    (Hscore : AlertGate.getMinConfidence env * 100
              <= EventTypes.suspicionScore theft) :
  EventTypes.isShopliftingEvent
    (EventTypes.eventObject (EventTypes.fromTheftEvent theft label)) = true /\
  forall (nowMs : Q) (st : AlertGate.GateState) (ev : ShopliftingEvent),
    fst (AlertGate.alertGate env nowMs (EventTypes.fromTheftEvent theft label)
           st)
    <> AlertGate.Rejected AlertGate.below_threshold ev.
Proof.
  pose proof (fromTheftEvent_confidence_range theft label) as [Hlo Hhi].
  pose proof (alertGate_minConfidence_range env) as [_ Hmax].
  split.
  - unfold EventTypes.isShopliftingEvent, EventTypes.eventObject.
    cbn [EventTypes.getField String.eqb Ascii.eqb Bool.eqb
         EventTypes.SHOPLIFTING_EVENT_TYPE EventTypes.isString andb].
    apply Qle_bool_iff in Hlo, Hhi. rewrite Hlo, Hhi. reflexivity.
  - intros nowMs st ev.
    assert (Hconf : AlertGate.getMinConfidence env
                    <= confidence (EventTypes.fromTheftEvent theft label)).
    { cbn. apply Q.min_glb; [exact Hmax |].
      apply Qle_trans with (y := EventTypes.suspicionScore theft / 100);
        [| apply Q.le_max_r].
      apply Qle_shift_div_l; [lra | exact Hscore]. }
    unfold AlertGate.alertGate.
    rewrite Qlt_bool_false by exact Hconf.
    destruct (match AlertGate.lastTriggerByCamera st !! _ with
              | Some t => _ | None => false end); [discriminate |].
    destruct (Qlt_bool 1 _ && Qlt_bool 0 _); [| discriminate].
    destruct (Qlt_bool (inject_Z _) _); discriminate.
Qed.

Lemma theft_event_is_valid_and_meets_threshold_witness :
  EventTypes.isShopliftingEvent
    (EventTypes.eventObject
       (EventTypes.fromTheftEvent sampleTheft (Some "Exit A"))) = true /\
  forall (nowMs : Q) (st : AlertGate.GateState) (ev : ShopliftingEvent),
    fst (AlertGate.alertGate AlertGate.defaultEnv nowMs
           (EventTypes.fromTheftEvent sampleTheft (Some "Exit A")) st)
    <> AlertGate.Rejected AlertGate.below_threshold ev.
Proof.
  apply (theft_event_is_valid_and_meets_threshold AlertGate.defaultEnv
           sampleTheft (Some "Exit A")).
  vm_compute. discriminate.
Defined.


(** ** capture.ts: the crop rectangle *)

(** One axis of [cropBoxWithMargin]: the clamped start, the clamped end moved
    past the start when it is not beyond it, and their floor and ceiling. *)
Lemma crop_axis (lo hi : Q) (F : Z) :
  (1 <= F)%Z ->
  0 <= Capture.Math_floor (Qmax 0 (Qmin lo (inject_Z F - 1))) /\
  1 <= Capture.Math_ceil
         ((if Qle_bool (Qmax 0 (Qmin hi (inject_Z F)))
                (Qmax 0 (Qmin lo (inject_Z F - 1)))
           then Qmax 0 (Qmin lo (inject_Z F - 1)) + 1
           else Qmax 0 (Qmin hi (inject_Z F)))
          - Qmax 0 (Qmin lo (inject_Z F - 1))) /\
  Capture.Math_floor (Qmax 0 (Qmin lo (inject_Z F - 1))) +
  Capture.Math_ceil
    ((if Qle_bool (Qmax 0 (Qmin hi (inject_Z F)))
           (Qmax 0 (Qmin lo (inject_Z F - 1)))
      then Qmax 0 (Qmin lo (inject_Z F - 1)) + 1
      else Qmax 0 (Qmin hi (inject_Z F)))
     - Qmax 0 (Qmin lo (inject_Z F - 1)))
  <= inject_Z F.
Proof.
  intros HF.
  assert (HFq : 1 <= inject_Z F).
  { change 1 with (inject_Z 1). rewrite <- Zle_Qle. exact HF. }
  set (a := Qmax 0 (Qmin lo (inject_Z F - 1))).
  set (b0 := Qmax 0 (Qmin hi (inject_Z F))).
  assert (Ha0 : 0 <= a) by apply Q.le_max_l.
  assert (Ha1 : a <= inject_Z F - 1).
  { apply Q.max_lub; [lra | apply Q.le_min_r]. }
  assert (Hb0 : b0 <= inject_Z F).
  { apply Q.max_lub; [lra | apply Q.le_min_r]. }
  set (b := if Qle_bool b0 a then a + 1 else b0).
  assert (Hb : a < b /\ b <= inject_Z F).
  { unfold b. destruct (Qle_bool b0 a) eqn:E.
    - split; lra.
    - split; [| exact Hb0]. apply Qnot_le_lt. intros Hle.
      apply Qle_bool_iff in Hle. congruence. }
  destruct Hb as [Hab HbF].
  unfold Capture.Math_floor, Capture.Math_ceil.
  pose proof (Qfloor_le a) as Hfl.
  pose proof (Qle_ceiling (b - a)) as Hce1.
  pose proof (Qceiling_lt (b - a)) as Hce2.
  set (fl := Qfloor a) in *. set (ce := Qceiling (b - a)) in *.
  assert (Hfl0 : (0 <= fl)%Z).
  { change 0%Z with (Qfloor 0). apply Qfloor_resp_le. exact Ha0. }
  assert (Hce : (1 <= ce)%Z).
  { assert (H : (0 < ce)%Z); [| lia].
    rewrite Zlt_Qlt. change (inject_Z 0) with 0. lra. }
  assert (Hsum : (fl + ce <= F)%Z).
  { assert (H : (fl + (ce - 1) < F)%Z); [| lia].
    rewrite Zlt_Qlt, inject_Z_plus. lra. }
  split; [| split].
  - change 0 with (inject_Z 0). rewrite <- Zle_Qle. exact Hfl0.
  - change 1 with (inject_Z 1). rewrite <- Zle_Qle. exact Hce.
  - rewrite <- inject_Z_plus, <- Zle_Qle. exact Hsum.
Qed.

(** X30.  capture.ts: for a frame of whole pixel dimensions, at least 1 by 1,
    the crop [cropBoxWithMargin] returns lies inside the frame and is never
    empty, whatever the box and the margin: its corner is at or after the
    origin, its width and height are at least 1, and it ends at or before
    the frame's width and height. *)
Theorem cropBoxWithMargin_inside_frame (box : Tracking.Bbox)
    (frameWidth frameHeight : Z) (margin : option Q)
    (Hwidth : (1 <= frameWidth)%Z) (Hheight : (1 <= frameHeight)%Z) :
  0 <= Capture.x (Capture.cropBoxWithMargin box (inject_Z frameWidth)
                    (inject_Z frameHeight) margin) /\
  0 <= Capture.y (Capture.cropBoxWithMargin box (inject_Z frameWidth)
                    (inject_Z frameHeight) margin) /\
  1 <= Capture.w (Capture.cropBoxWithMargin box (inject_Z frameWidth)
                    (inject_Z frameHeight) margin) /\
  1 <= Capture.h (Capture.cropBoxWithMargin box (inject_Z frameWidth)
                    (inject_Z frameHeight) margin) /\
  Capture.x (Capture.cropBoxWithMargin box (inject_Z frameWidth)
               (inject_Z frameHeight) margin)
  + Capture.w (Capture.cropBoxWithMargin box (inject_Z frameWidth)
                 (inject_Z frameHeight) margin)
  <= inject_Z frameWidth /\
  Capture.y (Capture.cropBoxWithMargin box (inject_Z frameWidth)
               (inject_Z frameHeight) margin)
  + Capture.h (Capture.cropBoxWithMargin box (inject_Z frameWidth)
                 (inject_Z frameHeight) margin)
  <= inject_Z frameHeight.
Proof.
  unfold Capture.cropBoxWithMargin.
  cbn [Capture.x Capture.y Capture.w Capture.h].
  set (m := default Capture.MARGIN margin).
  destruct (crop_axis
              (Tracking.x1 box - (Tracking.x2 box - Tracking.x1 box) * m)
              (Tracking.x2 box + (Tracking.x2 box - Tracking.x1 box) * m)
              frameWidth Hwidth) as (Hx & Hw & Hxw).
  destruct (crop_axis
              (Tracking.y1 box - (Tracking.y2 box - Tracking.y1 box) * m)
              (Tracking.y2 box + (Tracking.y2 box - Tracking.y1 box) * m)
              frameHeight Hheight) as (Hy & Hh & Hyh).
  repeat split; assumption.
Qed.

Lemma cropBoxWithMargin_inside_frame_witness :
  0 <= Capture.x (Capture.cropBoxWithMargin sampleCropBox (inject_Z 640)
                    (inject_Z 480) None) /\
  0 <= Capture.y (Capture.cropBoxWithMargin sampleCropBox (inject_Z 640)
                    (inject_Z 480) None) /\
  1 <= Capture.w (Capture.cropBoxWithMargin sampleCropBox (inject_Z 640)
                    (inject_Z 480) None) /\
  1 <= Capture.h (Capture.cropBoxWithMargin sampleCropBox (inject_Z 640)
                    (inject_Z 480) None) /\
  Capture.x (Capture.cropBoxWithMargin sampleCropBox (inject_Z 640)
               (inject_Z 480) None)
  + Capture.w (Capture.cropBoxWithMargin sampleCropBox (inject_Z 640)
                 (inject_Z 480) None)
  <= inject_Z 640 /\
  Capture.y (Capture.cropBoxWithMargin sampleCropBox (inject_Z 640)
               (inject_Z 480) None)
  + Capture.h (Capture.cropBoxWithMargin sampleCropBox (inject_Z 640)
                 (inject_Z 480) None)
  <= inject_Z 480.
Proof.
  apply (cropBoxWithMargin_inside_frame sampleCropBox 640 480 None); lia.
Defined.


(** ** minimax-tts.ts: the request loop of [generateAlertAudio] *)

Lemma fetchCount_app (a b : list TtsClient.TtsEffect) :
  fetchCount (a ++ b) = (fetchCount a + fetchCount b)%nat.
Proof. unfold fetchCount. rewrite List.filter_app, length_app. reflexivity. Qed.

Section TtsRequests.

Import TtsClient.

Variables (w : TtsWorld) (audioPath : string).

(** One turn of the loop makes one request and ends in an exit of the loop
    body; what is thrown inside it is caught. *)
Lemma attempt_turn (attempt : nat) (tr : list TtsEffect) :
  exists ext exit,
    try_catch (attemptBody w audioPath attempt) (attemptHandler attempt) tr
    = (tr ++ ext, inr exit) /\
    fetchCount ext = 1%nat /\
    forall r, exit = Return r -> coherent r.
Proof.
  unfold try_catch, attemptBody, attemptHandler, emit.
  unfold mbind, M_bind, bind, mret, M_ret, ret.
  destruct (fetch_outcome w attempt) as [e | status traceId audio].
  - exists [TFetch attempt].
    destruct (negb (isRetryable (messageOrString e))
              || (attempt =? MAX_RETRIES)%nat);
      eexists; (split; [reflexivity |]); (split; [reflexivity |]);
      intros r Hr; discriminate Hr.
  - destruct (negb (statusOk status)).
    + exists [TFetch attempt].
      destruct (statusRetryable status);
        eexists; (split; [reflexivity |]); (split; [reflexivity |]);
        intros r Hr; [discriminate Hr |].
      injection Hr as <-. split; reflexivity.
    + destruct (negb (truthy audio)).
      * exists [TFetch attempt]. eexists.
        split; [reflexivity |]. split; [reflexivity |].
        intros r Hr; discriminate Hr.
      * destruct (MinimaxTts.hexToBytes (default "" audio)) as [e | bytes].
        { exists [TFetch attempt].
          destruct (negb (isRetryable (messageOrString e))
                    || (attempt =? MAX_RETRIES)%nat);
            eexists; (split; [reflexivity |]); (split; [reflexivity |]);
            intros r Hr; discriminate Hr. }
        exists [TFetch attempt; TWriteFile audioPath].
        destruct (writeFile_outcome w audioPath) as [e |]; cbn.
        { destruct (negb (isRetryable (messageOrString e))
                    || (attempt =? MAX_RETRIES)%nat);
            eexists; (split; [rewrite <- app_assoc; reflexivity |]);
            (split; [reflexivity |]); intros r Hr; discriminate Hr. }
        eexists. split; [rewrite <- app_assoc; reflexivity |].
        split; [reflexivity |].
        intros r Hr. injection Hr as <-. split; discriminate.
Qed.

(** The loop makes at most as many requests as it has turns left, and is not
    left by a throw. *)
Lemma attemptLoop_run (remaining : nat) :
  forall (attempt : nat) (lastError : option string) (tr : list TtsEffect),
  exists ext res,
    attemptLoop w audioPath remaining attempt lastError tr
    = (tr ++ ext, inr res) /\
    (fetchCount ext <= remaining)%nat /\
    forall r, res = inl r -> coherent r.
Proof.
  induction remaining as [| k IH]; intros attempt lastError tr.
  - exists [], (inr lastError). cbn. rewrite app_nil_r.
    split; [reflexivity |]. split; [reflexivity |].
    intros r Hr; discriminate Hr.
  - cbn [attemptLoop].
    set (pre := if (0 <? attempt)%nat
                then [TSleep (Qmin (1000 * 2 ^ Z.of_nat attempt) 5000)]
                else []).
    assert (Hpre : forall B (k0 : unit -> M (list TtsEffect) B),
               ((if (0 <? attempt)%nat
                 then emit (TSleep (Qmin (1000 * 2 ^ Z.of_nat attempt) 5000))
                        None
                 else mret tt) ≫= k0) tr
               = k0 tt (tr ++ pre)).
    { intros B k0. unfold pre, emit, mbind, M_bind, bind, mret, M_ret, ret.
      destruct (0 <? attempt)%nat; cbn; [reflexivity |].
      rewrite app_nil_r. reflexivity. }
    rewrite Hpre.
    assert (Hpre0 : fetchCount pre = 0%nat).
    { unfold pre. destruct (0 <? attempt)%nat; reflexivity. }
    destruct (attempt_turn attempt (tr ++ pre)) as (ext1 & exit & Hturn & Hn1 & Hc1).
    unfold mbind at 1, M_bind, bind. rewrite Hturn.
    destruct exit as [lastError' | lastError' | r].
    + destruct (IH (S attempt) lastError' ((tr ++ pre) ++ ext1))
        as (ext2 & res & Hloop & Hn2 & Hc2).
      rewrite Hloop. exists ((pre ++ ext1) ++ ext2), res.
      rewrite !app_assoc. split; [reflexivity |].
      rewrite !fetchCount_app, Hpre0, Hn1. split; [lia | exact Hc2].
    + exists (pre ++ ext1), (inr lastError'). cbn. rewrite app_assoc.
      split; [reflexivity |]. rewrite fetchCount_app, Hpre0, Hn1.
      split; [lia |]. intros r Hr; discriminate Hr.
    + exists (pre ++ ext1), (inl r). cbn. rewrite app_assoc.
      split; [reflexivity |]. rewrite fetchCount_app, Hpre0, Hn1.
      split; [lia |]. intros r0 Hr. injection Hr as <-.
      apply Hc1. reflexivity.
Qed.

End TtsRequests.

(** X5.  minimax-tts.ts: [generateAlertAudio] makes at most three requests.
    Without an API key, or in a dry run, it makes none and answers with the
    fallback tone.  With a key and outside a dry run it never throws, and
    the result it returns names an audio file exactly when it reports
    success. *)
Theorem tts_requests_bounded_and_contained (env : TtsClient.Env)
    (w : TtsClient.TtsWorld) (location cameraId : string)
    (tr : list TtsClient.TtsEffect) :
  exists ext,
    fst (TtsClient.generateAlertAudio env w location cameraId tr) = tr ++ ext /\
    (fetchCount ext <= 3)%nat /\
    (negb (truthy (TtsClient.MINIMAX_API_KEY env)) || TtsClient.isDryRun env
     = true ->
     fetchCount ext = 0%nat /\
     forall r,
       snd (TtsClient.generateAlertAudio env w location cameraId tr) = inr r ->
       tts_fallbackUsed r = true) /\
    (negb (truthy (TtsClient.MINIMAX_API_KEY env)) || TtsClient.isDryRun env
     = false ->
     exists r,
       snd (TtsClient.generateAlertAudio env w location cameraId tr) = inr r /\
       coherent r).
Proof.
  unfold TtsClient.generateAlertAudio. cbv zeta.
  set (dir := path_join (path_join (TtsClient.cwd w) "alerts") "audio").
  set (ts := fileTimestamp (TtsClient.isoNow w)).
  set (cam := safeName 32 cameraId).
  set (audioPath := path_join dir (ts +:+ "_" +:+ cam +:+ ".mp3")).
  set (beep := path_join dir (ts +:+ "_" +:+ cam +:+ "_beep.wav")).
  destruct (negb (truthy (TtsClient.MINIMAX_API_KEY env))
            || TtsClient.isDryRun env) eqn:Hoff.
  - unfold TtsClient.writeFallbackBeep, TtsClient.emit.
    unfold mbind, M_bind, bind, mret, M_ret, ret. fold beep.
    destruct (TtsClient.mkdir_outcome w dir) as [e |]; cbn.
    { eexists. split; [reflexivity |]. split; [cbn; lia |].
      split; [| discriminate].
      intros _. split; [reflexivity |]. intros r Hr; discriminate Hr. }
    destruct (TtsClient.writeFile_outcome w beep) as [e |]; cbn;
      rewrite <- app_assoc; (eexists; split; [reflexivity |]);
      (split; [cbn; lia |]); (split; [| discriminate]);
      intros _; (split; [reflexivity |]); intros r Hr;
      [discriminate Hr | injection Hr as <-; reflexivity].
  - set (loop := TtsClient.attemptLoop w audioPath
                   (S TtsClient.MAX_RETRIES) 0 None).
    assert (Hrun : forall tr0, exists ext res,
               loop tr0 = (tr0 ++ ext, inr res) /\
               (fetchCount ext <= 3)%nat /\
               forall r, res = inl r -> coherent r).
    { intros tr0. apply attemptLoop_run. }
    clearbody loop.
    unfold TtsClient.writeFallbackBeep, TtsClient.emit, try_catch.
    unfold mbind, M_bind, bind, mret, M_ret, ret. fold beep.
    destruct (TtsClient.mkdir_outcome w dir) as [e |].
    { eexists. split; [reflexivity |]. split; [cbn; lia |].
      split; [discriminate |]. intros _. eexists. split; [reflexivity |].
      split; reflexivity. }
    destruct (Hrun (tr ++ [TtsClient.TMkdir dir]))
      as (ext1 & res & Hloop & Hn & Hc).
    rewrite Hloop.
    destruct res as [r | lastError].
    { exists ([TtsClient.TMkdir dir] ++ ext1). rewrite app_assoc.
      split; [reflexivity |]. rewrite fetchCount_app. split; [cbn; lia |].
      split; [discriminate |]. intros _. exists r.
      split; [reflexivity | apply Hc; reflexivity]. }
    destruct (TtsClient.writeFile_outcome w beep) as [e |];
      (exists (([TtsClient.TMkdir dir] ++ ext1)
               ++ [TtsClient.TMkdir dir; TtsClient.TWriteFile beep]));
      cbn [fst snd]; rewrite <- !app_assoc; (split; [reflexivity |]);
      rewrite !fetchCount_app; (split; [cbn; lia |]);
      (split; [discriminate |]); intros _; eexists;
      (split; [reflexivity |]); split; first [reflexivity | discriminate].
Qed.

